(** * The datastore PostgreSQL backend (ckanext/datastore/backend/postgres.py)

    A shallow embedding of the schema / query / write engine of the
    datastore backend, and the properties its specification states about it.

    Python [str] values are modelled as [string], the bytes of their UTF-8
    encoding (ASCII text is one byte per character); a Python [dict] whose
    iteration order matters is an association list with the insertion order
    of the source; [fields_types] (only ever looked up) is a [gmap].  The
    relational engine, SQLAlchemy's rendering helpers, [hashlib] and the
    Python builtins [int], [float], [str] and [strptime] are outside the
    module: they appear as parameters (section variables or a class), with
    small concrete instances used to run the definitions on examples. *)

From Stdlib Require Import Ascii String ZArith Floats Lia.
From stdpp Require Import base option list strings sorting gmap pretty.

Set Warnings "-register-all".

(** * Identifier / literal safety *)

Module Quoting.

Definition NUL : ascii := "000"%char.
Definition squote : ascii := "039"%char.
Definition dquote : ascii := "034"%char.

Definition str1 (c : ascii) : string := String c EmptyString.

(** [s.replace(old, new)] for a one-character [old]: the scan is left to
    right and never looks at the text it has just produced. *)
Fixpoint replace_char (old : ascii) (new : string) (s : string) : string :=
  match s with
  | EmptyString => EmptyString
  | String c s' =>
      if Ascii.eqb c old then new +:+ replace_char old new s'
      else String c (replace_char old new s')
  end.

(** [literal_string]: the single quote, then [s] with every single quote
    replaced by two and, after that, every NUL replaced by the empty string,
    then the single quote. *)
Definition literal_string (s : string) : string :=
  str1 squote
  +:+ replace_char NUL "" (replace_char squote (str1 squote +:+ str1 squote) s)
  +:+ str1 squote.

(** [identifier]: the same with the double quote. *)
Definition identifier (s : string) : string :=
  str1 dquote
  +:+ replace_char NUL "" (replace_char dquote (str1 dquote +:+ str1 dquote) s)
  +:+ str1 dquote.

(** ** The specification's reading of the two functions *)

(** Every occurrence of the quote doubled, every NUL dropped. *)
Fixpoint escape_spec (q : ascii) (s : string) : string :=
  match s with
  | EmptyString => EmptyString
  | String c s' =>
      if Ascii.eqb c NUL then escape_spec q s'
      else if Ascii.eqb c q then String q (String q (escape_spec q s'))
      else String c (escape_spec q s')
  end.

Definition wrap_spec (q : ascii) (s : string) : string :=
  String q (escape_spec q s +:+ str1 q).

Fixpoint remove_nul (s : string) : string :=
  match s with
  | EmptyString => EmptyString
  | String c s' =>
      if Ascii.eqb c NUL then remove_nul s' else String c (remove_nul s')
  end.

Fixpoint occurs (c : ascii) (s : string) : bool :=
  match s with
  | EmptyString => false
  | String c' s' => Ascii.eqb c' c || occurs c s'
  end.

(** Collapsing doubled quotes; a quote that is not followed by a second one
    is unescaped and makes the decoding fail. *)
Fixpoint collapse (q : ascii) (s : string) : option string :=
  match s with
  | EmptyString => Some EmptyString
  | String c s' =>
      if Ascii.eqb c q then
        match s' with
        | String c' s'' =>
            if Ascii.eqb c' q then String q <$> collapse q s'' else None
        | EmptyString => None
        end
      else String c <$> collapse q s'
  end.

(** Removing the closing quote (the last character). *)
Fixpoint strip_last (q : ascii) (s : string) : option string :=
  match s with
  | EmptyString => None
  | String c EmptyString => if Ascii.eqb c q then Some EmptyString else None
  | String c s' => String c <$> strip_last q s'
  end.

Definition strip_outer (q : ascii) (s : string) : option string :=
  match s with
  | String c s' => if Ascii.eqb c q then strip_last q s' else None
  | EmptyString => None
  end.

Definition decode (q : ascii) (s : string) : option string :=
  strip_outer q s ≫= collapse q.

End Quoting.

(** * Python values *)

Module Py.

(** The values a record, a filter or a sample can hold (decoded JSON), and
    the tuple the write engine builds for a nested column. *)
Inductive value :=
| VNone
| VBool (b : bool)
| VInt (n : Z)
| VFloat (f : float)
| VStr (s : string)
| VList (l : list value)
| VDict (d : list (string * value))
| VTuple (l : list value).

(** A [dict] with [str] keys, in insertion order; the keys are distinct. *)
Definition dict (A : Type) : Type := list (string * A).

Fixpoint dict_get {A : Type} (k : string) (d : dict A) : option A :=
  match d with
  | [] => None
  | (k', v) :: d' => if String.eqb k' k then Some v else dict_get k d'
  end.

(** [k in d] *)
Definition dict_has {A : Type} (k : string) (d : dict A) : bool :=
  match dict_get k d with Some _ => true | None => false end.

(** [d[k] = v]: an existing key keeps its position. *)
Fixpoint dict_set {A : Type} (k : string) (v : A) (d : dict A) : dict A :=
  match d with
  | [] => [(k, v)]
  | (k', v') :: d' =>
      if String.eqb k' k then (k, v) :: d' else (k', v') :: dict_set k v d'
  end.

Definition dict_keys {A : Type} (d : dict A) : list string := fst <$> d.

(** Truth value of an object ([if x:], [not x]). *)
Definition truthy (v : value) : bool :=
  match v with
  | VNone => false
  | VBool b => b
  | VInt n => negb (n =? 0)%Z
  | VFloat f => negb (PrimFloat.eqb f 0%float)
  | VStr s => negb (String.eqb s "")
  | VList l | VTuple l => match l with [] => false | _ => true end
  | VDict d => match d with [] => false | _ => true end
  end.

(** [isinstance(v, list)], [isinstance(v, (dict, list))], [isinstance(v, int)]
    ([bool] is a subclass of [int]) and [isinstance(v, float)]. *)
Definition is_list (v : value) : bool :=
  match v with VList _ => true | _ => false end.
Definition is_dict_or_list (v : value) : bool :=
  match v with VList _ | VDict _ => true | _ => false end.
Definition is_int (v : value) : bool :=
  match v with VInt _ | VBool _ => true | _ => false end.
Definition is_float (v : value) : bool :=
  match v with VFloat _ => true | _ => false end.

(** [v == ''] and [v is None] *)
Definition is_empty_string (v : value) : bool :=
  match v with VStr s => String.eqb s "" | _ => false end.
Definition is_none (v : value) : bool :=
  match v with VNone => true | _ => false end.

(** The builtins type inference calls on a value: whether [int(v)],
    [float(v)] and [datetime.strptime(v, format)] return (rather than raise
    [TypeError] or [ValueError], the exceptions the caller catches). *)
Class Builtins := {
  int_returns : value → bool;
  float_returns : value → bool;
  strptime_returns : value → string → bool
}.

(** [list(s)] for a set [s] of strings, given by the order in which its
    members were added: the order in which a set yields them depends on
    their hashes, which change from one run to the other, so that it is a
    parameter; it yields each member once. *)
Class SetOrder := {
  list_of_set : list string → list string;
  list_of_set_permutation : ∀ l, list_of_set l ≡ₚ l
}.

(** [s.lower()] on ASCII text. *)
Definition code (c : ascii) : nat := nat_of_ascii c.
Definition between (lo hi : nat) (c : ascii) : bool :=
  (lo <=? code c) && (code c <=? hi).
Definition lower (c : ascii) : ascii :=
  if between 65 90 c then ascii_of_nat (code c + 32) else c.
Fixpoint str_lower (s : string) : string :=
  match s with
  | EmptyString => EmptyString
  | String c s' => String (lower c) (str_lower s')
  end.

(** [len(s)]: the code points of the text, which are the bytes that do not
    continue a UTF-8 sequence (the bytes 10xxxxxx do). *)
Definition continues (c : ascii) : bool := between 128 191 c.
Fixpoint len (s : string) : nat :=
  match s with
  | EmptyString => 0
  | String c s' => (if continues c then 0 else 1) + len s'
  end.

(** [c in s] for strings. *)
Fixpoint contains (c s : string) : bool :=
  String.prefix c s
  || match s with
     | EmptyString => false
     | String _ s' => contains c s'
     end.

(** [v == k] for a [str] [k]. *)
Definition is_str (k : string) (v : value) : bool :=
  match v with VStr s => String.eqb s k | _ => false end.

(** [{**a, **b}] *)
Definition dict_merge {A : Type} (a b : dict A) : dict A :=
  foldl (λ d p, dict_set p.1 p.2 d) a b.

(** [dict(pairs)]: later pairs overwrite earlier ones with the same key. *)
Definition dict_of_pairs {A : Type} (pairs : list (string * A)) : dict A :=
  dict_merge [] pairs.

(** [f"{n}"] for the counters of the placeholder generators. *)
Definition fmt_nat (n : nat) : string := pretty n.

(** [sep.join(l)] *)
Fixpoint join (sep : string) (l : list string) : string :=
  match l with
  | [] => ""
  | [x] => x
  | x :: l' => x +:+ sep +:+ join sep l'
  end.

End Py.

(** * Type inference *)

Module GuessType.
Import Py.

Definition _DATE_FORMATS : list string :=
  [ "%Y-%m-%d";
    "%Y-%m-%d %H:%M:%S";
    "%Y-%m-%dT%H:%M:%S";
    "%Y-%m-%dT%H:%M:%SZ";
    "%d/%m/%Y";
    "%m/%d/%Y";
    "%d-%m-%Y";
    "%m-%d-%Y" ].

(** The members of [data_types = set([int, float])]. *)
Inductive data_type := TInt | TFloat.

Definition data_type_eqb (a b : data_type) : bool :=
  match a, b with
  | TInt, TInt | TFloat, TFloat => true
  | _, _ => false
  end.

(** [t in data_types] and [data_types.discard(t)] *)
Definition member (t : data_type) (data_types : list data_type) : bool :=
  existsb (data_type_eqb t) data_types.
Definition discard (t : data_type) (data_types : list data_type)
  : list data_type :=
  filter (λ t', data_type_eqb t t' = false) data_types.

Section WithBuiltins.
Context `{Builtins}.

(** [data_type(field)] returns. *)
Definition coerces (t : data_type) (field : value) : bool :=
  match t with
  | TInt => int_returns field
  | TFloat => float_returns field
  end.

(** The loop over [list(data_types)]: a type whose coercion raises is
    discarded, and the loop is left as soon as the set is empty.  [todo] is
    the snapshot the loop walks, in the order the set yields its members. *)
Fixpoint coercion_loop (todo : list data_type) (data_types : list data_type)
    (field : value) : list data_type :=
  match todo with
  | [] => data_types
  | t :: todo' =>
      if coerces t field then coercion_loop todo' data_types field
      else
        let data_types' := discard t data_types in
        match data_types' with
        | [] => data_types'
        | _ => coercion_loop todo' data_types' field
        end
  end.

(** The loop over [_DATE_FORMATS]: the first format that parses returns. *)
Fixpoint date_loop (formats : list string) (field : value) : bool :=
  match formats with
  | [] => false
  | format :: formats' =>
      if strptime_returns field format then true else date_loop formats' field
  end.

(** [_guess_type(field)]; [order] is the iteration order of the two-element
    set, which Python leaves unspecified. *)
Definition _guess_type (order : list data_type) (field : value) : string :=
  if is_dict_or_list field then "nested"
  else if is_int field then "int"
  else if is_float field then "float"
  else
    let data_types := coercion_loop order order field in
    if member TInt data_types then "integer"
    else if member TFloat data_types then "numeric"
    else if date_loop _DATE_FORMATS field then "timestamp"
    else "text".

(** The decision list of the specification. *)
Definition guess_type_spec (field : value) : string :=
  match field with
  | VDict _ | VList _ => "nested"
  | VInt _ | VBool _ => "int"
  | VFloat _ => "float"
  | _ =>
      if int_returns field then "integer"
      else if float_returns field then "numeric"
      else if existsb (strptime_returns field) _DATE_FORMATS then "timestamp"
      else "text"
  end.

End WithBuiltins.

(** The two orders in which a set holding [int] and [float] can be walked. *)
Definition iteration_order (int_first : bool) : list data_type :=
  if int_first then [TInt; TFloat] else [TFloat; TInt].

End GuessType.

(** * A reference instance of the builtins on ASCII text

    [int(s)] and [float(s)] follow the grammar of the Python language
    reference for their string argument (surrounding whitespace, a sign,
    digits with single underscores between them; for [float] a fraction, an
    exponent, or one of inf, infinity, nan).  [strptime] follows the regular
    expressions of the standard library for the six directives the date
    formats use: the first match in priority order is taken, text left over
    after it is an error, letters compare without case, and the date must
    exist. *)

Module CPython.
Import Py.

(** The white space [int] and [float] skip around the number in ASCII
    text: tab to carriage return, and the space. *)
Definition is_space (c : ascii) : bool := between 9 13 c || Ascii.eqb c " ".
Definition is_digit (c : ascii) : bool := between 48 57 c.

Fixpoint lstrip (l : list ascii) : list ascii :=
  match l with
  | c :: l' => if is_space c then lstrip l' else l
  | [] => []
  end.
Definition strip (l : list ascii) : list ascii :=
  rev (lstrip (rev (lstrip l))).

Definition drop_sign (l : list ascii) : list ascii :=
  match l with
  | c :: l' => if Ascii.eqb c "+" || Ascii.eqb c "-" then l' else l
  | [] => []
  end.

(** After a digit: more digits, each optionally preceded by one underscore. *)
Fixpoint digitpart_tail (l : list ascii) : list ascii :=
  match l with
  | c :: l' =>
      if is_digit c then digitpart_tail l'
      else if Ascii.eqb c "_" then
        match l' with
        | d :: l'' => if is_digit d then digitpart_tail l'' else l
        | [] => l
        end
      else l
  | [] => []
  end.

Definition digitpart (l : list ascii) : option (list ascii) :=
  match l with
  | c :: l' => if is_digit c then Some (digitpart_tail l') else None
  | [] => None
  end.

Definition at_end (r : option (list ascii)) : bool :=
  match r with Some [] => true | _ => false end.

Definition int_literal (s : string) : bool :=
  at_end (digitpart (drop_sign (strip (list_ascii_of_string s)))).

Definition exponent (l : list ascii) : option (list ascii) :=
  match l with
  | c :: l' =>
      if Ascii.eqb (lower c) "e" then digitpart (drop_sign l') else Some l
  | [] => Some []
  end.

Definition float_number (l : list ascii) : bool :=
  match l with
  | "."%char :: l' => at_end (digitpart l' ≫= exponent)
  | _ =>
      match digitpart l with
      | Some ("."%char :: r) =>
          at_end (exponent (default r (digitpart r)))
      | Some r => at_end (exponent r)
      | None => false
      end
  end.

Definition float_literal (s : string) : bool :=
  let l := drop_sign (strip (list_ascii_of_string s)) in
  let w := string_of_list_ascii (lower <$> l) in
  String.eqb w "inf" || String.eqb w "infinity" || String.eqb w "nan"
  || float_number l.

(** ** strptime *)

Inductive item := Dir (d : ascii) | Lit (c : ascii).

Fixpoint parse_format (l : list ascii) : list item :=
  match l with
  | "%"%char :: d :: l' => Dir d :: parse_format l'
  | c :: l' => Lit c :: parse_format l'
  | [] => []
  end.

(** A character class is a range of codes; an alternative a sequence of
    classes; a directive a list of alternatives in priority order. *)
Definition digit : nat * nat := (48, 57).
Definition ch (c : ascii) : nat * nat := (code c, code c).
Definition rg (a b : ascii) : nat * nat := (code a, code b).

Definition alternatives (d : ascii) : list (list (nat * nat)) :=
  if Ascii.eqb d "Y" then [[digit; digit; digit; digit]]
  else if Ascii.eqb d "m" then
    [[ch "1"; rg "0" "2"]; [ch "0"; rg "1" "9"]; [rg "1" "9"]]
  else if Ascii.eqb d "d" then
    [[ch "3"; rg "0" "1"]; [rg "1" "2"; digit]; [ch "0"; rg "1" "9"];
     [rg "1" "9"]; [ch " "; rg "1" "9"]]
  else if Ascii.eqb d "H" then
    [[ch "2"; rg "0" "3"]; [rg "0" "1"; digit]; [digit]]
  else if Ascii.eqb d "M" then [[rg "0" "5"; digit]; [digit]]
  else if Ascii.eqb d "S" then
    [[ch "6"; rg "0" "1"]; [rg "0" "5"; digit]; [digit]]
  else [].

Fixpoint match_alt (alt : list (nat * nat)) (l : list ascii)
  : option (list ascii * list ascii) :=
  match alt, l with
  | [], _ => Some ([], l)
  | (lo, hi) :: alt', c :: l' =>
      if between lo hi c then
        '(m, r) ← match_alt alt' l'; Some (c :: m, r)
      else None
  | _ :: _, [] => None
  end.

Definition number (m : list ascii) : nat :=
  foldl (λ n c, if is_digit c then 10 * n + (code c - 48) else n) 0 m.

(** Every way of matching the items, the preferred one first; each carries
    the numbers read for the directives and the text left over. *)
Fixpoint match_items (items : list item) (l : list ascii)
  : list (list (ascii * nat) * list ascii) :=
  match items with
  | [] => [([], l)]
  | Dir d :: items' =>
      a ← alternatives d;
      match match_alt a l with
      | Some (m, r) =>
          '(found, rest) ← match_items items' r;
          [((d, number m) :: found, rest)]
      | None => []
      end
  | Lit c :: items' =>
      if is_space c then
        let n := length l - length (lstrip l) in
        k ← rev (seq 1 n); match_items items' (drop k l)
      else
        match l with
        | c' :: l' =>
            if Ascii.eqb (lower c) (lower c') then match_items items' l'
            else []
        | [] => []
        end
  end.

Definition found_get (d : ascii) (found : list (ascii * nat)) : nat :=
  default 0 ((λ p, p.2.2) <$> list_find (λ p, p.1 = d) found).

Definition leap (y : nat) : bool :=
  (y mod 4 =? 0) && (negb (y mod 100 =? 0) || (y mod 400 =? 0)).

Definition days_in_month (y m : nat) : nat :=
  if m =? 2 then (if leap y then 29 else 28)
  else if (m =? 4) || (m =? 6) || (m =? 9) || (m =? 11) then 30 else 31.

Definition strptime (s format : string) : bool :=
  match match_items (parse_format (list_ascii_of_string format))
                    (list_ascii_of_string s) with
  | (found, []) :: _ =>
      let y := found_get "Y" found in
      let m := found_get "m" found in
      let d := found_get "d" found in
      (1 <=? y) && (1 <=? m) && (m <=? 12)
      && (1 <=? d) && (d <=? days_in_month y m)
      && (found_get "S" found <=? 59)
  | _ => false
  end.

#[export] Instance builtins : Builtins := {|
  int_returns v :=
    match v with
    | VStr s => int_literal s
    | VInt _ | VBool _ => true
    | VFloat f => negb (PrimFloat.is_nan f || PrimFloat.is_infinity f)
    | _ => false
    end;
  float_returns v :=
    match v with
    | VStr s => float_literal s
    | VInt _ | VBool _ | VFloat _ => true
    | _ => false
    end;
  strptime_returns v format :=
    match v with
    | VStr s => strptime s format
    | _ => false
    end
|}.

End CPython.

(** * Query compiler: WHERE clauses *)

Module Where.
Import Py Quoting.

(** The entries of [data_dict] that [_where_clauses] reads.  [filters] is the
    mapping under that key (empty when the key is absent); [q] and
    [full_text] are [VNone] when absent. *)
Record request := {
  filters : dict value;
  q : value;
  full_text : value;
  language : option string
}.

(** An element of [WhereClauses]: a clause with its bound values, or a
    one-element tuple holding the clause only. *)
Inductive clause :=
| Bound (clause_str : string) (values : dict value)
| Bare (clause_str : string).

(** [field_type.startswith('_')] *)
Definition _is_array_type (field_type : string) : bool :=
  String.prefix "_" field_type.

Definition list_items (v : value) : list value :=
  match v with VList l => l | _ => [] end.

(** [f"value_{next(idx_gen)}"] when the counter stands at [n]. *)
Definition value_placeholder (n : nat) : string := "value_" +:+ fmt_nat n.

(** [_ts_query_alias(field)] *)
Definition _ts_query_alias (field : option string) : string :=
  let query_alias := "query" in
  let query_alias :=
    match field with
    | Some f => if String.eqb f "" then query_alias
                else query_alias +:+ " " +:+ f
    | None => query_alias
    end in
  identifier query_alias.

Section WithEnvironment.
(** [str(sa.column(field))], [str(v)], the helper
    [should_fts_index_field_type] and the configured default language. *)
Variable sa_column : string → string.
Variable str : value → string.
Variable should_fts_index_field_type : string → bool.
Variable default_fts_lang : string.

(** [_fts_lang(lang)]: [lang or config.get(...)] *)
Definition _fts_lang (lang : option string) : string :=
  match lang with
  | Some l => if String.eqb l "" then default_fts_lang else l
  | None => default_fts_lang
  end.

(** The body of the loop over [filters.items()] for a known field, with the
    counter at [idx]: the clause, and how many placeholders it drew. *)
Definition filter_clause (field field_type : string) (v : value) (idx : nat)
  : clause * nat :=
  let field_array_type := _is_array_type field_type in
  if is_list v && negb field_array_type then
    let items := list_items v in
    let placeholders := value_placeholder <$> seq idx (length items) in
    let clause_str :=
      sa_column field +:+ " in ("
      +:+ join "," ((λ p, ":" +:+ p) <$> placeholders) +:+ ")" in
    let strs :=
      if String.eqb field_type "text" then (λ x, VStr (str x)) <$> items
      else items in
    (Bound clause_str (dict_of_pairs (zip placeholders strs)), length items)
  else
    let v := if String.eqb field_type "text" then VStr (str v) else v in
    let placeholder := value_placeholder idx in
    (Bound (sa_column field +:+ " = :" +:+ placeholder) [(placeholder, v)], 1).

Fixpoint filter_loop (fs : dict value) (fields_types : gmap string string)
    (idx : nat) : list clause :=
  match fs with
  | [] => []
  | (field, v) :: fs' =>
      match fields_types !! field with
      | None => filter_loop fs' fields_types idx
      | Some field_type =>
          let '(c, drawn) := filter_clause field field_type v idx in
          c :: filter_loop fs' fields_types (idx + drawn)
      end
  end.

(** The loop over [q.items()] when [q] is a dict. *)
Fixpoint q_loop (qs : dict value) (fields_types : gmap string string)
    (lang : string) : list clause :=
  match qs with
  | [] => []
  | (field, _) :: qs' =>
      match fields_types !! field with
      | None => q_loop qs' fields_types lang
      | Some ftyp =>
          let query_field := _ts_query_alias (Some field) in
          (if should_fts_index_field_type ftyp then []
           else [Bare ("_full_text @@ " +:+ query_field)])
          ++ Bare ("to_tsvector(" +:+ literal_string lang +:+ ", cast("
                   +:+ identifier field +:+ " as text)) @@ " +:+ query_field)
          :: q_loop qs' fields_types lang
      end
  end.

Definition q_clauses (data_dict : request)
    (fields_types : gmap string string) : list clause :=
  if truthy (q data_dict) then
    match q data_dict with
    | VStr _ => [Bare ("_full_text @@ " +:+ _ts_query_alias None)]
    | VDict qs => q_loop qs fields_types (_fts_lang (language data_dict))
    | _ => []
    end
  else [].

Definition full_text_clauses (data_dict : request) : list clause :=
  if truthy (full_text data_dict)
  then [Bare ("_full_text @@ " +:+ _ts_query_alias None)]
  else [].

Definition _where_clauses (data_dict : request)
    (fields_types : gmap string string) : list clause :=
  filter_loop (filters data_dict) fields_types 0
  ++ q_clauses data_dict fields_types
  ++ full_text_clauses data_dict.

(** ** The specification's reading *)

(** An array column: the engine names the array type of an element type by
    an underscore put before it, as in [_text] and [_int4]; no other type
    name starts with one. *)
Definition array_type (field_type : string) : bool :=
  match field_type with
  | String c _ => Ascii.eqb c "_"
  | EmptyString => false
  end.

(** The value compared with a column of type [field_type]. *)
Definition compared (field_type : string) (v : value) : value :=
  if String.eqb field_type "text" then VStr (str v) else v.

(** [field in (:p1,...,:pn)] with [pi] bound to the i-th value. *)
Definition in_clause (field : string) (placeholders : list string)
    (items : list value) : clause :=
  Bound (sa_column field +:+ " in ("
         +:+ join "," ((λ p, ":" +:+ p) <$> placeholders) +:+ ")")
        (zip placeholders items).

(** [field = :p] with [p] bound to the value. *)
Definition eq_clause (field placeholder : string) (v : value) : clause :=
  Bound (sa_column field +:+ " = :" +:+ placeholder) [(placeholder, v)].

(** The clause the specification promises for a filter pair on a known
    field, drawing its placeholders from [idx] on. *)
Definition filter_clause_spec (fields_types : gmap string string)
    (pair : string * value) (idx : nat) (c : clause) : Prop :=
  ∃ field_type, fields_types !! pair.1 = Some field_type ∧
    match pair.2 with
    | VList items =>
        if array_type field_type
        then c = eq_clause pair.1 (value_placeholder idx)
                   (compared field_type pair.2)
        else c = in_clause pair.1
                   (value_placeholder <$> seq idx (length items))
                   (compared field_type <$> items)
    | v => c = eq_clause pair.1 (value_placeholder idx) (compared field_type v)
    end.

End WithEnvironment.

(** The placeholder names a clause binds. *)
Definition placeholders_of (c : clause) : list string :=
  match c with
  | Bound _ values => dict_keys values
  | Bare _ => []
  end.

Definition known (fields_types : gmap string string) {A : Type}
    (pair : string * A) : bool :=
  bool_decide (is_Some (fields_types !! pair.1)).

(** The request without the filter pairs and the per-field [q] entries that
    name an unknown field. *)
Definition without_unknown (fields_types : gmap string string)
    (data_dict : request) : request :=
  {| filters := List.filter (known fields_types) (filters data_dict);
     q := match q data_dict with
          | VDict qs => VDict (List.filter (known fields_types) qs)
          | other => other
          end;
     full_text := full_text data_dict;
     language := language data_dict |}.

(** [_where(where_clauses_and_values)]: the WHERE text and the bound
    values of every clause. *)
Definition _where (where_clauses_and_values : list clause)
  : string * list (dict value) :=
  let where_clauses :=
    (λ c, "(" +:+ match c with Bound s _ | Bare s => s end +:+ ")")
      <$> where_clauses_and_values in
  let values :=
    where_clauses_and_values ≫=
      (λ c, match c with Bound _ d => [d] | Bare _ => [] end) in
  let where_clause := join " AND " where_clauses in
  let where_clause :=
    if String.eqb where_clause "" then where_clause
    else "WHERE " +:+ where_clause in
  (where_clause, values).

End Where.

(** * The connection to the relational engine *)

Module Db.
Import Py.

(** The parameters of [connection.execute]: none, one mapping, or a list
    of mappings (one execution per row). *)
Inductive params :=
| NoParams
| One (d : dict value)
| Many (rows : list (dict value)).

(** What is executed: [sa.text(sql)] with its parameters, or the Core
    expression [select * from table limit 1] of [_get_fields]. *)
Inductive statement :=
| Text (sql : string) (p : params)
| SelectAllLimit1 (table : string).

(** The part of a result the backend reads: [rowcount], the rows, and the
    cursor description as (column name, type name) with the type code
    already resolved by [_get_type]. *)
Record cursor_result := {
  rowcount : Z;
  rows : list (list value);
  description : list (string * string)
}.

(** The DB-API exception classes of SQLAlchemy; every class but
    [InterfaceError] derives from [DatabaseError]. *)
Inductive error_class :=
| InterfaceError | DatabaseError | DataError | IntegrityError
| ProgrammingError | OperationalError | InternalError | NotSupportedError.

(** An exception [e] with its class, [e.orig.pgcode], [str(e)],
    [str(e.orig)], [e.statement] and [e.params]. *)
Record dbapi_error := {
  cls : error_class;
  pgcode : option string;
  message : string;
  orig : string;
  statement_of : string;
  params_of : value
}.

Definition isinstance_DatabaseError (e : dbapi_error) : bool :=
  match cls e with InterfaceError => false | _ => true end.

(** What can be raised: the two errors of the toolkit, a DB-API error, or
    another Python exception, given by the name of its class. *)
Inductive exn :=
| ValidationError (error_dict : dict value)
| NotAuthorized (msg : string)
| DBAPIError (e : dbapi_error)
| PyError (class_name : string).

(** [ValidationError({key: [message]})] *)
Definition error1 (key message : string) : exn :=
  ValidationError [(key, VList [VStr message])].

Section Connection.
(** The engine: a state and its answer to a statement, an error or the new
    state with a result. *)
Variable DB : Type.
Variable engine_execute : DB → statement → dbapi_error + DB * cursor_result.

(** A connection: the committed state, the state the open transaction
    sees, and the statements executed so far. *)
Record connection := {
  committed : DB;
  current : DB;
  in_transaction : bool;
  closed : bool;
  executed : list statement
}.

Definition M (A : Type) : Type := connection → (exn + A) * connection.

Definition ret {A : Type} (x : A) : M A := λ c, (inr x, c).
Definition raise {A : Type} (e : exn) : M A := λ c, (inl e, c).
Definition bind {A B : Type} (m : M A) (k : A → M B) : M B :=
  λ c, match m c with
       | (inr x, c') => k x c'
       | (inl e, c') => (inl e, c')
       end.

(** [try: m except ...: handler(e)] *)
Definition try_except {A : Type} (m : M A) (handler : exn → M A) : M A :=
  λ c, match m c with
       | (inr x, c') => (inr x, c')
       | (inl e, c') => handler e c'
       end.

(** [try: m finally: f] *)
Definition try_finally {A : Type} (m : M A) (f : connection → connection)
  : M A :=
  λ c, let '(r, c') := m c in (r, f c').

Definition execute (stmt : statement) : M cursor_result :=
  λ c,
    let c' := {| committed := committed c; current := current c;
                 in_transaction := in_transaction c; closed := closed c;
                 executed := executed c ++ [stmt] |} in
    match engine_execute (current c) stmt with
    | inl e => (inl (DBAPIError e), c')
    | inr (db, r) =>
        (inr r, {| committed := committed c; current := db;
                   in_transaction := in_transaction c; closed := closed c;
                   executed := executed c ++ [stmt] |})
    end.

(** [connection.begin()], [trans.commit()], [trans.rollback()] and
    [connection.close()], which discards a transaction still open. *)
Definition begin (c : connection) : connection :=
  {| committed := committed c; current := current c; in_transaction := true;
     closed := closed c; executed := executed c |}.
Definition commit (c : connection) : connection :=
  {| committed := current c; current := current c; in_transaction := false;
     closed := closed c; executed := executed c |}.
Definition rollback (c : connection) : connection :=
  {| committed := committed c; current := committed c;
     in_transaction := false; closed := closed c; executed := executed c |}.
Definition close (c : connection) : connection :=
  let c := if in_transaction c then rollback c else c in
  {| committed := committed c; current := current c;
     in_transaction := false; closed := true; executed := executed c |}.

(** [engine.connect()]: a fresh connection on a database. *)
Definition connect (db : DB) : connection :=
  {| committed := db; current := db; in_transaction := false;
     closed := false; executed := [] |}.

(** [for num, x in enumerate(l): body(num, x)], counting from [num]. *)
Fixpoint for_each {A : Type} (body : nat → A → M unit) (num : nat)
    (l : list A) : M unit :=
  match l with
  | [] => ret tt
  | x :: l' => bind (body num x) (λ _, for_each body (S num) l')
  end.

(** A computation that neither commits nor rolls back. *)
Definition keeps_transaction {A : Type} (m : M A) : Prop :=
  ∀ c, committed (m c).2 = committed c
       ∧ in_transaction (m c).2 = in_transaction c
       ∧ closed (m c).2 = closed c.

End Connection.

Arguments ret {DB A} x.
Arguments raise {DB A} e.
Arguments bind {DB A B} m k.
Arguments try_except {DB A} m handler.
Arguments try_finally {DB A} m f.
Arguments for_each {DB A} body num l.
Arguments begin {DB} c.
Arguments commit {DB} c.
Arguments rollback {DB} c.
Arguments close {DB} c.
Arguments connect {DB} db.
Arguments committed {DB} c.
Arguments current {DB} c.
Arguments in_transaction {DB} c.
Arguments closed {DB} c.
Arguments executed {DB} c.

#[export] Instance M_ret {DB : Type} : MRet (M DB) := λ A, ret.
#[export] Instance M_bind {DB : Type} : MBind (M DB) := λ A B k m, bind m k.

End Db.

(** * Write engine *)

Module Write.
Import Py Quoting Db.

Definition _INSERT : string := "insert".
Definition _UPSERT : string := "upsert".
Definition _UPDATE : string := "update".
Definition _TIMEOUT : N := 60000.

Definition unique_violation : string := "23505".
Definition query_canceled : string := "57014".

(** A column as [_get_fields] reports it. *)
Record field := { id : string; type : string }.

Definition record : Type := dict value.

(** The entries of [data_dict] the write path reads; [records] is [None]
    when the key is absent or holds [None], [method] when it is absent. *)
Record request := {
  resource_id : string;
  records : option (list record);
  method : option string;
  dry_run : bool
}.

Definition quoted (s : string) : string := str1 dquote +:+ s +:+ str1 dquote.
Definition newline : string := str1 "010"%char.

(** The catalog query of [_get_unique_key], with the layout of the
    source. *)
Definition sql_get_unique_key : string :=
  newline +:+ "    SELECT"
  +:+ newline +:+ "        a.attname AS column_names"
  +:+ newline +:+ "    FROM"
  +:+ newline +:+ "        pg_class t,"
  +:+ newline +:+ "        pg_index idx,"
  +:+ newline +:+ "        pg_attribute a"
  +:+ newline +:+ "    WHERE"
  +:+ newline +:+ "        t.oid = idx.indrelid"
  +:+ newline +:+ "        AND a.attrelid = t.oid"
  +:+ newline +:+ "        AND a.attnum = ANY(idx.indkey)"
  +:+ newline +:+ "        AND t.relkind = 'r'"
  +:+ newline +:+ "        AND idx.indisunique = true"
  +:+ newline +:+ "        AND idx.indisprimary = false"
  +:+ newline +:+ "        AND t.relname = :relname"
  +:+ newline +:+ "    ".

(** [x[0]] of a result row holding a name. *)
Definition column0 (row : list value) : option string :=
  match row with
  | VStr s :: _ => Some s
  | _ => None
  end.

(** [f"val_{n}"] *)
Definition val_placeholder (n : nat) : string := "val_" +:+ fmt_nat n.

(** [method in [_UPDATE, _UPSERT]], [method] being [_UPSERT] when absent. *)
Definition is_update_or_upsert (data_dict : request) : Prop :=
  default _UPSERT (method data_dict) = _UPDATE
  ∨ default _UPSERT (method data_dict) = _UPSERT.

Section WithEngine.
Variable DB : Type.
Variable engine_execute : DB → statement → dbapi_error + DB * cursor_result.
(** [json.dumps], [str] and [_programming_error_summary], and the order of
    the sets. *)
Variable json_dumps : value → string.
Variable str : value → string.
Variable _programming_error_summary : dbapi_error → string.
Context `{SetOrder}.

Local Abbreviation M := (Db.M DB).
Local Abbreviation execute := (Db.execute DB engine_execute).

Definition lift (f : connection DB → connection DB) : M unit :=
  λ c, (inr tt, f c).

Definition _get_fields (resource_id : string) : M (list field) :=
  all_fields ← execute (SelectAllLimit1 resource_id);
  mret (omap (λ col, if String.prefix "_" col.1 then None
                     else Some {| id := col.1; type := col.2 |})
             (description all_fields)).

Definition _get_unique_key (resource_id : string) : M (list string) :=
  key_parts ← execute (Text sql_get_unique_key
                            (One [("relname", VStr resource_id)]));
  mret (omap column0 (rows key_parts)).

(** [record.get(k)] *)
Definition get (k : string) (r : record) : value :=
  default VNone (dict_get k r).

Definition is_nested (f : field) : bool :=
  String.eqb (str_lower (type f)) "nested".

(** The value sent for a column: a nested value becomes the pair of its
    JSON text and the empty string, an empty string on a column that is not
    text becomes [None]. *)
Definition marshal (f : field) (v : value) : value :=
  if negb (is_none v) && is_nested f then VTuple [VStr (json_dumps v); VStr ""]
  else if is_empty_string v && negb (String.eqb (type f) "text") then VNone
  else v.

(** [_validate_record]; records are JSON objects.  [extra_keys] is the
    set difference [set(record.keys()) - set(field_names)], which walks the
    first set and keeps the members that are not in the second; the error
    lists it in the order the set yields. *)
Definition _validate_record (r : record) (num : nat)
    (field_names : list string) : option exn :=
  let extra_keys :=
    List.filter (λ k, negb (bool_decide (k ∈ field_names)))
                (list_of_set (dict_keys r)) in
  match extra_keys with
  | [] => None
  | _ => Some (error1 "records"
           ("row " +:+ quoted (fmt_nat (num + 1)) +:+ " has extra keys "
            +:+ quoted (join ", " (list_of_set extra_keys))))
  end.

Fixpoint insert_rows (fields : list field) (field_names : list string)
    (num : nat) (rs : list record) : exn + list (dict value) :=
  match rs with
  | [] => inr []
  | r :: rs' =>
      match _validate_record r num field_names with
      | Some e => inl e
      | None =>
          let row := dict_of_pairs
            (imap (λ idx f, (val_placeholder idx, marshal f (get (id f) r)))
                  fields) in
          match insert_rows fields field_names (S num) rs' with
          | inl e => inl e
          | inr rows => inr (row :: rows)
          end
      end
  end.

(** [except DatabaseError as err: raise ValidationError(...)] around the
    execution of the statements of record [num]. *)
Definition records_error (num : Z) (e : exn) : M cursor_result :=
  match e with
  | DBAPIError err =>
      if isinstance_DatabaseError err then
        raise (ValidationError
                 [("records", VList [VStr (_programming_error_summary err)]);
                  ("records_row", VInt num)])
      else raise e
  | _ => raise e
  end.

(** The loop that rewrites the record in place before an update. *)
Definition marshal_record (fields : list field) (r : record) : record :=
  foldl (λ r f,
           let v := get (id f) r in
           if negb (is_none v) && is_nested f
           then dict_set (id f) (VTuple [VStr (json_dumps v); VStr ""]) r
           else if is_empty_string v && negb (String.eqb (type f) "text")
           then dict_set (id f) VNone r
           else r)
        r fields.

(** The two key checks at the head of the loop body. *)
Definition check_key (unique_keys : list string) (r : record) : option exn :=
  if bool_decide (unique_keys = []) && negb (dict_has "_id" r) then
    Some (error1 "table" "unique key must be passed for update/upsert")
  else if negb (dict_has "_id" r) then
    let missing_fields :=
      List.filter (λ f, negb (dict_has f r)) unique_keys in
    match missing_fields with
    | [] => None
    | _ => Some (error1 "key"
             ("fields " +:+ quoted (join ", " missing_fields)
              +:+ " are missing" +:+ newline
              +:+ "                            but needed as key"))
    end
  else None.

(** What the loop body works out for a record once it passed the checks:
    the columns it sets, the bound values, and the key it is matched on. *)
Record plan := {
  used_fields : list field;
  value_placeholders : list string;
  used_values : dict value;
  unique_values : dict value;
  pk_sql : string;
  pk_values_sql : string
}.

Definition make_plan (fields : list field) (unique_keys : list string)
    (r : record) : plan :=
  let used_fields := List.filter (λ f, dict_has (id f) r) fields in
  let used_field_names := id <$> used_fields in
  let n := length used_field_names in
  let value_placeholders := val_placeholder <$> seq 0 n in
  let used_values :=
    dict_of_pairs (zip value_placeholders
                       ((λ f, get f r) <$> used_field_names)) in
  if dict_has "_id" r then
    let placeholder := val_placeholder n in
    {| used_fields := used_fields; value_placeholders := value_placeholders;
       used_values := used_values;
       unique_values := [(placeholder, get "_id" r)];
       pk_sql := quoted "_id";
       pk_values_sql := ":" +:+ placeholder |}
  else
    let placeholders := val_placeholder <$> seq n (length unique_keys) in
    {| used_fields := used_fields; value_placeholders := value_placeholders;
       used_values := used_values;
       unique_values :=
         dict_of_pairs (zip placeholders ((λ k, get k r) <$> unique_keys));
       pk_sql := join "," (identifier <$> unique_keys);
       pk_values_sql := join "," ((λ p, ":" +:+ p) <$> placeholders) |}.

Definition columns_sql (p : plan) : string :=
  join ", " ((λ f, identifier (id f)) <$> used_fields p).

(** The UPDATE of the update method, with the layout of the source. *)
Definition update_sql (res_id : string) (p : plan) : string :=
  newline +:+ "                    UPDATE " +:+ identifier res_id
  +:+ newline +:+ "                    SET (" +:+ columns_sql p +:+ ", "
  +:+ quoted "_full_text" +:+ ") = ("
  +:+ join ", " ((λ x, ":" +:+ x) <$> value_placeholders p) +:+ ", NULL)"
  +:+ newline +:+ "                    WHERE (" +:+ pk_sql p +:+ ") = ("
  +:+ pk_values_sql p +:+ ");"
  +:+ newline +:+ "                ".

Definition upsert_values_sql (p : plan) : string :=
  join ", " ((λ pf, if String.eqb (type pf.2) "nested"
                    then "cast(:" +:+ pf.1 +:+ " as nested)"
                    else ":" +:+ pf.1)
             <$> zip (value_placeholders p) (used_fields p)).

(** [update_string] and [insert_string] of the upsert method. *)
Definition upsert_update_sql (res_id : string) (p : plan) : string :=
  newline +:+ "                    UPDATE " +:+ identifier res_id
  +:+ newline +:+ "                    SET (" +:+ columns_sql p +:+ ", "
  +:+ quoted "_full_text" +:+ ") = (" +:+ upsert_values_sql p +:+ ", NULL)"
  +:+ newline +:+ "                    WHERE (" +:+ pk_sql p +:+ ") = ("
  +:+ pk_values_sql p +:+ ")"
  +:+ newline +:+ "                ".

Definition upsert_insert_sql (res_id : string) (p : plan) : string :=
  newline +:+ "                    INSERT INTO " +:+ identifier res_id
  +:+ " (" +:+ columns_sql p +:+ ")"
  +:+ newline +:+ "                           SELECT " +:+ upsert_values_sql p
  +:+ newline +:+ "                           WHERE NOT EXISTS (SELECT 1 FROM "
  +:+ identifier res_id
  +:+ newline +:+ "                                    WHERE (" +:+ pk_sql p
  +:+ ") = (" +:+ pk_values_sql p +:+ "))"
  +:+ newline +:+ "                ".

Definition key_not_found (p : plan) : exn :=
  error1 "key" ("key " +:+ quoted (str (VDict (unique_values p)))
                +:+ " not found").

Definition all_values (p : plan) : dict value :=
  dict_merge (used_values p) (unique_values p).

(** The first part of the loop body of update and upsert, which executes
    nothing: the key checks, the rewriting of the record, the check for
    unknown fields, and the plan. *)
Definition prepare (fields : list field) (unique_keys : list string)
    (r : record) : exn + plan :=
  match check_key unique_keys r with
  | Some e => inl e
  | None =>
      let r := marshal_record fields r in
      let field_names := id <$> fields in
      let non_existing_field_names :=
        List.filter (λ f, negb (bool_decide (f ∈ field_names))
                          && negb (String.eqb f "_id"))
                    (dict_keys r) in
      match non_existing_field_names with
      | _ :: _ =>
          inl (error1 "fields"
                 ("fields " +:+ quoted (join ", " non_existing_field_names)
                  +:+ " do not exist"))
      | [] => inr (make_plan fields unique_keys r)
      end
  end.

(** The body of the loop over [enumerate(records)] of update and upsert. *)
Definition write_record (res_id meth : string) (fields : list field)
    (unique_keys : list string) (num : nat) (r : record) : M unit :=
  match prepare fields unique_keys r with
  | inl e => raise e
  | inr p =>
      if String.eqb meth _UPDATE then
        results ← try_except
          (execute (Text (update_sql res_id p) (One (all_values p))))
          (records_error (Z.of_nat num));
        (* validate that exactly one row has been updated *)
        if bool_decide (rowcount results = 1%Z) then mret tt
        else raise (key_not_found p)
      else if String.eqb meth _UPSERT then
        _ ← try_except
          (_ ← execute (Text (upsert_update_sql res_id p)
                             (One (all_values p)));
           execute (Text (upsert_insert_sql res_id p)
                         (One (all_values p))))
          (records_error (Z.of_nat num));
        mret tt
      else mret tt
  end.

(** The INSERT of the insert method, with the layout of the source. *)
Definition insert_sql (res_id : string) (field_names : list string)
  : string :=
  "INSERT INTO " +:+ identifier res_id
  +:+ " (" +:+ join ", " (identifier <$> field_names) +:+ ")"
  +:+ newline +:+ "            VALUES ("
  +:+ join ", " ((λ idx, ":" +:+ val_placeholder idx)
                 <$> seq 0 (length field_names)) +:+ ");".

(** [data_dict] with other records. *)
Definition with_records (data_dict : request) (rs : list record) : request :=
  {| resource_id := resource_id data_dict; records := Some rs;
     method := method data_dict; dry_run := dry_run data_dict |}.

(** The body of [upsert_data(context, data_dict)].  The loop of update and
    upsert rewrites every record it gets to in place, so that the caller
    finds other records in its [data_dict] when the call returns: the body
    returns the request as it leaves it. *)
Definition upsert_data_in_place (data_dict : request) : M request :=
  match records data_dict with
  | None | Some [] => mret data_dict
  | Some rs =>
      let meth := default _UPSERT (method data_dict) in
      fields ← _get_fields (resource_id data_dict);
      let field_names := id <$> fields in
      let sql_columns := join ", " (identifier <$> field_names) in
      if String.eqb sql_columns "" then mret data_dict
      else if String.eqb meth _INSERT then
        match insert_rows fields field_names 0 rs with
        | inl e => raise e
        | inr rows =>
            _ ← try_except
              (execute (Text (insert_sql (resource_id data_dict) field_names)
                             (Many rows)))
              (records_error (Z.of_nat (length rs) - 1));
            mret data_dict
        end
      else if String.eqb meth _UPDATE || String.eqb meth _UPSERT then
        unique_keys ← _get_unique_key (resource_id data_dict);
        _ ← for_each (write_record (resource_id data_dict) meth fields
                                   unique_keys) 0 rs;
        mret (with_records data_dict (marshal_record fields <$> rs))
      else mret data_dict
  end.

(** [upsert_data(context, data_dict)], which returns nothing. *)
Definition upsert_data (data_dict : request) : M unit :=
  _ ← upsert_data_in_place data_dict;
  mret tt.

(** The [except] clauses of [upsert], in their order. *)
Definition upsert_handler (e : exn) : M request :=
  match e with
  | DBAPIError err =>
      match cls err with
      | IntegrityError =>
          if bool_decide (pgcode err = Some unique_violation) then
            raise (ValidationError
              [("constraints",
                VList [VStr ("Cannot insert records or create index because"
                             +:+ " of uniqueness constraint")]);
               ("info", VDict [("orig", VStr (orig err));
                               ("pgcode", VStr unique_violation)])])
          else raise e
      | DataError =>
          raise (ValidationError
            [("data", VStr (message err));
             ("info", VDict [("orig", VList [VStr (orig err)])])])
      | _ =>
          if bool_decide (pgcode err = Some query_canceled) then
            raise (error1 "query" "Query took too long")
          else raise e
      end
  | _ => _ ← lift rollback; raise e
  end.

(** [upsert(context, data_dict)], run on the connection it has opened.  It
    returns [_unrename_json_field(data_dict)]: the request that [upsert_data]
    has rewritten, since [_unrename_json_field] changes the [fields] entry
    only and a request of the write path has none. *)
Definition upsert (timeout : N) (data_dict : request) : M request :=
  _ ← lift begin;
  try_finally
    (try_except
       (_ ← execute (Text ("SET LOCAL statement_timeout TO "
                           +:+ pretty timeout) NoParams);
        data_dict ← upsert_data_in_place data_dict;
        _ ← lift (if dry_run data_dict then rollback else commit);
        mret data_dict)
       upsert_handler)
    close.

(** The call has set its timeout, found the resource to have columns, read
    the unique key, and its loop has gone through the records [pre] without
    an error, which leaves the connection as [c]. *)
Definition reaches (timeout : N) (data_dict : request) (c0 : connection DB)
    (fields : list field) (unique_keys : list string) (pre : list record)
    (c : connection DB) : Prop :=
  ∃ r0 c1 c2 c3,
    execute (Text ("SET LOCAL statement_timeout TO " +:+ pretty timeout)
                  NoParams) (begin c0) = (inr r0, c1)
    ∧ _get_fields (resource_id data_dict) c1 = (inr fields, c2)
    ∧ fields ≠ []
    ∧ _get_unique_key (resource_id data_dict) c2 = (inr unique_keys, c3)
    ∧ for_each (write_record (resource_id data_dict)
                  (default _UPSERT (method data_dict)) fields unique_keys)
               0 pre c3 = (inr tt, c).

(** Nothing of the call persists: the connection is closed on the state it
    was opened on. *)
Definition discarded (db : DB) (c : connection DB) : Prop :=
  committed c = db ∧ current c = db ∧ in_transaction c = false
  ∧ closed c = true.

End WithEngine.
End Write.

(** * A small engine to run the write path on *)

Module Toy.
Import Py Db Write.

(** A table reduced to what the write path observes: its columns, its
    unique key, the number of rows every write statement matches, and how
    many writes have changed it. *)
Record table := {
  cols : list (string * string);
  unique : list string;
  hits : Z;
  version : nat
}.

Definition answer (n : Z) (rs : list (list value))
    (d : list (string * string)) : cursor_result :=
  {| rowcount := n; rows := rs; description := d |}.

Definition engine_execute (t : table) (stmt : statement)
  : dbapi_error + table * cursor_result :=
  match stmt with
  | SelectAllLimit1 _ => inr (t, answer 1 [] (cols t))
  | Text sql _ =>
      if String.eqb sql sql_get_unique_key then
        inr (t, answer (Z.of_nat (length (unique t)))
                       ((λ k, [VStr k]) <$> unique t)
                       [("column_names", "name")])
      else if String.prefix "SET " sql then inr (t, answer (-1) [] [])
      else if (hits t =? 0)%Z then inr (t, answer 0 [] [])
      else inr ({| cols := cols t; unique := unique t; hits := hits t;
                   version := S (version t) |}, answer (hits t) [] [])
  end.

(** Renderings of scalars, and of flat lists and dicts, for [str] and
    [json.dumps]. *)
Definition scalar (v : value) : string :=
  match v with
  | VNone => "None"
  | VBool b => if b then "True" else "False"
  | VInt n => pretty n
  | VStr s => "'" +:+ s +:+ "'"
  | _ => "..."
  end.

Definition str (v : value) : string :=
  match v with
  | VStr s => s
  | VList l => "[" +:+ join ", " (scalar <$> l) +:+ "]"
  | VDict d =>
      "{" +:+ join ", " ((λ kv, "'" +:+ kv.1 +:+ "': " +:+ scalar kv.2) <$> d)
      +:+ "}"
  | _ => scalar v
  end.

Definition summary (e : dbapi_error) : string := message e.

(** A set that yields its members in the order they were added. *)
#[export] Instance insertion_order : SetOrder :=
  {| list_of_set l := l; list_of_set_permutation l := reflexivity l |}.

Definition upsert_data := Write.upsert_data table engine_execute str str summary.
Definition upsert := Write.upsert table engine_execute str str summary.

(** A resource with the system columns and one text column [a], no unique
    key, on which no write matches a row. *)
Definition empty_resource : table :=
  {| cols := [("_id", "int4"); ("_full_text", "tsvector"); ("a", "text")];
     unique := []; hits := 0; version := 0 |}.

(** A resource with the system columns only. *)
Definition no_columns : table :=
  {| cols := [("_id", "int4"); ("_full_text", "tsvector")];
     unique := []; hits := 1; version := 0 |}.

(** A resource whose unique key is the pair of columns [a] and [b]. *)
Definition keyed_resource : table :=
  {| cols := [("_id", "int4"); ("_full_text", "tsvector");
              ("a", "text"); ("b", "text")];
     unique := ["a"; "b"]; hits := 1; version := 0 |}.

Definition request_of (meth : string) (rs : list record) : request :=
  {| resource_id := "res"; records := Some rs; method := Some meth;
     dry_run := false |}.

End Toy.

(** * Query compiler: totals, and SQL passthrough *)

Module Search.
Import Py Quoting Db Where.

Definition permission_denied : string := "42501".
Definition query_canceled : string := "57014".

(** The entries of [data_dict] and of [query_dict] that the total of
    [search_data] depends on. *)
Record request := {
  resource_id : string;
  records_format : string;
  include_total : bool;
  total_estimation_threshold : option Z
}.

Record query := {
  select : list string;
  ts_query : string;
  where_ : list clause;
  distinct : value
}.

(** The two statements of the total, with the layout of the source. *)
Definition analyze_count_sql : string :=
  Write.newline
  +:+ "            SELECT reltuples::BIGINT AS approximate_row_count"
  +:+ Write.newline +:+ "            FROM pg_class"
  +:+ Write.newline +:+ "            WHERE relname=:resource;"
  +:+ Write.newline +:+ "            ".

Definition count_sql_string (distinct select_columns resource ts_query
    where_clause : string) : string :=
  "SELECT count(*) FROM ("
  +:+ Write.newline +:+ "                SELECT " +:+ distinct +:+ " "
  +:+ select_columns
  +:+ Write.newline +:+ "                FROM " +:+ str1 dquote +:+ resource
  +:+ str1 dquote +:+ " " +:+ ts_query +:+ " " +:+ where_clause +:+ ") as t;".

Definition nonempty (s : string) : bool := negb (String.eqb s "").

(** [estimated_total >= total_estimation_threshold]; the estimate is the
    cell of a BIGINT column, an [int] when it is not [None]. *)
Definition at_least (estimated_total : value) (threshold : Z) : bool :=
  match estimated_total with
  | VInt n => (threshold <=? n)%Z
  | _ => false
  end.

(** [s.replace(old, new)] for any [old]; the fuel bounds the scan. *)
Fixpoint replace_fuel (fuel : nat) (old new s : string) : string :=
  match fuel with
  | O => s
  | S fuel' =>
      if nonempty old && String.prefix old s then
        new +:+ replace_fuel fuel' old new
                  (String.substring (String.length old) (String.length s) s)
      else
        match s with
        | EmptyString => EmptyString
        | String c s' => String c (replace_fuel fuel' old new s')
        end
  end.
Definition replace (old new s : string) : string :=
  replace_fuel (S (String.length s)) old new s.

Definition _remove_explain (msg : string) : string :=
  replace "EXPLAIN " ""
    (replace "EXPLAIN (VERBOSE, FORMAT JSON) " "" msg).

(** [data[0]] *)
Definition index0 (data : value) : value :=
  match data with
  | VTuple (x :: _) | VList (x :: _) => x
  | _ => VNone
  end.

Section WithEngine.
Variable DB : Type.
Variable engine_execute : DB → statement → dbapi_error + DB * cursor_result.
(** The helper [is_single_statement]. *)
Variable is_single_statement : string → bool.

Local Abbreviation M := (Db.M DB).
Local Abbreviation execute := (Db.execute DB engine_execute).

Definition _execute_single_statement (sql_string : string)
    (where_values : list (dict value)) : M cursor_result :=
  if negb (is_single_statement sql_string) then
    raise (error1 "query" "Query is not a single statement.")
  else
    let params := foldl dict_merge [] where_values in
    execute (Text sql_string (One params)).

(** [result.fetchall()[0][0]] *)
Definition first_cell (result : cursor_result) : M value :=
  match rows result with
  | (v :: _) :: _ => mret v
  | _ => raise (PyError "IndexError")
  end.

(** The last block of [search_data]: the total and whether it was
    estimated, or nothing when no total is asked for. *)
Definition search_total (data_dict : request) (query_dict : query)
  : M (option (value * bool)) :=
  let '(where_clause, where_values) := _where (where_ query_dict) in
  let select_columns :=
    if String.eqb (records_format data_dict) "lists"
    then join " || ',' || " (select query_dict)
    else join ", " (select query_dict) in
  let distinct := if truthy (distinct query_dict) then "DISTINCT" else "" in
  if include_total data_dict then
    estimated_total ←
      match total_estimation_threshold data_dict with
      | Some _ =>
          if negb (nonempty where_clause || nonempty distinct) then
            count_result ← execute
              (Text analyze_count_sql
                    (One [("resource", VStr (resource_id data_dict))]));
            first_cell count_result
          else mret VNone
      | None => mret VNone
      end;
    if negb (is_none estimated_total)
       && at_least estimated_total
            (default 0%Z (total_estimation_threshold data_dict))
    then mret (Some (estimated_total, true))
    else
      count_result ← _execute_single_statement
        (count_sql_string distinct select_columns (resource_id data_dict)
           (ts_query query_dict) where_clause)
        where_values;
      total ← first_cell count_result;
      mret (Some (total, false))
  else mret None.

(** ** SQL passthrough *)

(** [json.loads], [str], the configured [ckan.datastore.search.rows_max],
    the helper that extracts table and function names, the access check of
    the caller, and the allowed SQL functions. *)
Variable json_loads : value → value.
Variable str : value → string.
Variable rows_max : nat.
Variable get_names : string → M (list string * list string).
Variable check_access : list string → M unit.
Variable allowed_sql_functions : list string.

(** [convert(data, type_name)], on the values of this model (no datetime). *)
Fixpoint convert (type_name : string) : value → value :=
  λ data,
    if is_none data then VNone
    else if String.eqb type_name "nested" then json_loads (index0 data)
    else
      match type_name with
      | String "_" sub_type =>
          match data with
          | VList items | VTuple items => VList (convert sub_type <$> items)
          | _ => VList []
          end
      | _ =>
          if String.eqb type_name "tsvector" then VStr (str data)
          else if is_int data || is_float data then data
          else VStr (str data)
      end.

Definition field_dict (col : string * string) : value :=
  VDict [("id", VStr col.1); ("type", VStr col.2)].

(** ['type' in field and field['type'] == term] for an entry of the list
    under [fields].  A dict answers.  On a str and on a list the test [in]
    is a search, and the entry that holds ['type'] is then indexed by it,
    which raises [TypeError]; so does the test on a value that is no
    container. *)
Definition has_term (term : string) (field : value) : exn + bool :=
  match field with
  | VDict d =>
      inr match dict_get "type" d with
          | Some t => is_str term t
          | None => false
          end
  | VStr s =>
      if contains "type" s then inl (PyError "TypeError") else inr false
  | VList l | VTuple l =>
      if existsb (is_str "type") l then inl (PyError "TypeError")
      else inr false
  | VNone | VBool _ | VInt _ | VFloat _ => inl (PyError "TypeError")
  end.

(** [data_dict['fields'][i]['type'] = replace] *)
Definition set_type (replace : string) (field : value) : value :=
  match field with
  | VDict d => VDict (dict_set "type" (VStr replace) d)
  | _ => field
  end.

(** The loop of [_rename_field] over the entries. *)
Fixpoint rename_loop (term replace : string) (fields : list value)
  : exn + list value :=
  match fields with
  | [] => inr []
  | field :: fields' =>
      match has_term term field with
      | inl e => inl e
      | inr is_term =>
          match rename_loop term replace fields' with
          | inl e => inl e
          | inr renamed =>
              inr ((if is_term then set_type replace field else field)
                   :: renamed)
          end
      end
  end.

(** [_rename_field(data_dict, term, replace)].  The loop walks the value
    under [fields]: the entries of a list or of a tuple, the keys of a
    dict, the characters of a str (no character holds ['type']); a number
    and [None] cannot be walked.  When the loop raises, the entries before
    the one it raises on are already rewritten in the dict of the caller,
    which no caller reads after the error. *)
Definition _rename_field (data_dict : dict value) (term replace : string)
  : exn + dict value :=
  match dict_get "fields" data_dict with
  | None => inr data_dict
  | Some (VList fields) =>
      match rename_loop term replace fields with
      | inl e => inl e
      | inr renamed => inr (dict_set "fields" (VList renamed) data_dict)
      end
  | Some (VTuple fields) =>
      match rename_loop term replace fields with
      | inl e => inl e
      | inr renamed => inr (dict_set "fields" (VTuple renamed) data_dict)
      end
  | Some (VDict d) =>
      match rename_loop term replace (VStr <$> dict_keys d) with
      | inl e => inl e
      | inr _ => inr data_dict
      end
  | Some (VStr _) => inr data_dict
  | Some (VNone | VBool _ | VInt _ | VFloat _) => inl (PyError "TypeError")
  end.

Definition _unrename_json_field (data_dict : dict value)
  : exn + dict value :=
  _rename_field data_dict "nested" "json".

(** The record [format_results] makes of a row. *)
Definition format_row (result_fields : list (string * string))
    (row : list value) : value :=
  VDict (foldl (λ converted_row col,
                  dict_set col.1
                    (convert col.2
                       (default VNone
                          (dict_get col.1 (zip result_fields.*1 row))))
                    converted_row)
               [] result_fields).

(** [format_results(context, results, data_dict)] *)
Definition format_results (results : cursor_result) (data_dict : dict value)
  : M (dict value) :=
  let result_fields := description results in
  let records := format_row result_fields <$> rows results in
  let data_dict := dict_set "records" (VList records) data_dict in
  data_dict ←
    (if truthy (default (VBool false) (dict_get "records_truncated" data_dict))
     then
       match records with
       | [] => raise (PyError "IndexError")
       | _ => mret (dict_set "records" (VList (removelast records)) data_dict)
       end
     else mret data_dict);
  let data_dict :=
    dict_set "fields" (VList (field_dict <$> result_fields)) data_dict in
  match _unrename_json_field data_dict with
  | inl e => raise e
  | inr data_dict => mret data_dict
  end.

(** The statement [search_sql] executes for the caller's [sql]. *)
Definition wrapped_sql (sql : string) : string :=
  "SELECT * FROM (" +:+ sql +:+ ") AS blah LIMIT "
  +:+ fmt_nat (rows_max + 1) +:+ " ;".

Definition function_allowed (f : string) : bool :=
  existsb (λ name_variant, bool_decide (name_variant ∈ allowed_sql_functions))
          [str_lower f; str1 dquote +:+ f +:+ str1 dquote].

Fixpoint check_functions (function_names : list string) : M unit :=
  match function_names with
  | [] => mret tt
  | f :: fs =>
      if function_allowed f then check_functions fs
      else raise (NotAuthorized ("Not authorized to call function " +:+ f))
  end.

(** The [except] clauses of [search_sql]. *)
Definition search_sql_handler (e : exn) : M (dict value) :=
  match e with
  | DBAPIError err =>
      match cls err with
      | ProgrammingError =>
          if bool_decide (pgcode err = Some permission_denied) then
            raise (NotAuthorized "Not authorized to read resource.")
          else
            raise (ValidationError
              [("query", VList [VStr (_remove_explain (message err))]);
               ("info",
                VDict [("statement",
                        VList [VStr (_remove_explain (statement_of err))]);
                       ("params", VList [params_of err]);
                       ("orig",
                        VList [VStr (_remove_explain (orig err))])])])
      | _ =>
          if bool_decide (pgcode err = Some query_canceled) then
            raise (error1 "query" "Query took too long")
          else raise e
      end
  | _ => raise e
  end.

(** [search_sql(context, data_dict)], run on the connection it has opened;
    [sql] is [data_dict['sql']]. *)
Definition search_sql (timeout : N) (sql : string) (data_dict : dict value)
  : M (dict value) :=
  let sql := wrapped_sql sql in
  try_finally
    (try_except
       (_ ← execute (Text ("SET LOCAL statement_timeout TO "
                           +:+ pretty timeout) NoParams);
        names ← get_names sql;
        let '(table_names, function_names) := names in
        if existsb (String.prefix "pg_") table_names then
          raise (NotAuthorized "Not authorized to access system tables")
        else
          _ ← check_access table_names;
          _ ← check_functions function_names;
          results ← execute (Text sql NoParams);
          let data_dict :=
            if bool_decide (rowcount results = Z.of_nat (rows_max + 1))
            then dict_set "records_truncated" (VBool true) data_dict
            else data_dict in
          format_results results data_dict)
       search_sql_handler)
    close.

End WithEngine.
End Search.

(** * Small engines to run the read path on *)

Module ToyRead.
Import Py Db Search.

(** An engine for totals: the planner statistics hold [estimate], the
    table [exact] rows; queries leave the state alone. *)
Definition stats_engine (estimate : value) (exact : Z) (db : unit)
    (stmt : statement) : dbapi_error + unit * cursor_result :=
  match stmt with
  | Text sql _ =>
      if String.eqb sql analyze_count_sql then
        inr (db, {| rowcount := 1; rows := [[estimate]];
                    description := [("approximate_row_count", "int8")] |})
      else if String.prefix "SELECT count(*)" sql then
        inr (db, {| rowcount := 1; rows := [[VInt exact]];
                    description := [("count", "int8")] |})
      else inr (db, {| rowcount := -1; rows := []; description := [] |})
  | SelectAllLimit1 _ =>
      inr (db, {| rowcount := 0; rows := []; description := [] |})
  end.

(** An engine for the passthrough: the state is the list of one-column
    rows the caller's query yields, and a wrapped query is answered with
    its first [limit] rows. *)
Definition rows_engine (limit : nat) (db : list Z) (stmt : statement)
  : dbapi_error + list Z * cursor_result :=
  match stmt with
  | Text sql _ =>
      if String.prefix "SELECT * FROM (" sql then
        let answer := (λ n, [VInt n]) <$> take limit db in
        inr (db, {| rowcount := Z.of_nat (length answer); rows := answer;
                    description := [("n", "int4")] |})
      else inr (db, {| rowcount := -1; rows := []; description := [] |})
  | SelectAllLimit1 _ =>
      inr (db, {| rowcount := 0; rows := []; description := [] |})
  end.

Definition str (v : value) : string :=
  match v with VStr s => s | VInt n => pretty n | _ => "" end.

(** [search_sql] with a maximum of two rows, no table or function in the
    query, and every access granted. *)
Definition search_sql : N → string → dict value → M (list Z) (dict value) :=
  Search.search_sql (list Z) (rows_engine 3) (λ v, v) str 2
    (λ _, mret ([], [])) (λ _, mret ()) [].

End ToyRead.

(** * Schema manager: indexes *)

Module Index.
Import Py Quoting Db.

(** [c in s], as the index manager uses it on the names of indexes. *)
Abbreviation contains := Py.contains (only parsing).

(** An index of the resource's table as the catalog queries of the
    backend see it: its name, the two flags, and the plain columns among
    its keys (an expression key is no column). *)
Record index := {
  name : string;
  unique : bool;
  primary : bool;
  columns : list string
}.

(** The resource in the engine: its columns (name and type, system columns
    included) and its indexes. *)
Record catalog := {
  table_columns : list (string * string);
  indexes : list index
}.

(** The catalog and the CREATE INDEX and DROP INDEX statements issued. *)
Record state := {
  cat : catalog;
  issued : list string
}.

Definition IM (A : Type) : Type := state → (exn + A) * state.

#[export] Instance IM_ret : MRet IM := λ A x s, (inr x, s).
#[export] Instance IM_bind : MBind IM := λ A B k m s,
  match m s with
  | (inr x, s') => k x s'
  | (inl e, s') => (inl e, s')
  end.

Definition fail {A : Type} (e : exn) : IM A := λ s, (inl e, s).
Definition read {A : Type} (f : catalog → A) : IM A := λ s, (inr (f (cat s)), s).

(** An element of [indexes]: a string or a list of field names. *)
Inductive index_decl :=
| IStr (s : string)
| IList (l : list string).

(** [not index] *)
Definition is_empty (i : index_decl) : bool :=
  match i with
  | IStr s => String.eqb s ""
  | IList l => match l with [] => true | _ => false end
  end.

(** [index == primary_key], the latter a list. *)
Definition is_primary_key (i : index_decl) (primary_key : option (list string))
  : bool :=
  match i, primary_key with
  | IList l, Some pk => bool_decide (l = pk)
  | _, _ => false
  end.

(** The entries of [data_dict] that [create_indexes] reads, [indexes] and
    [primary_key] as [get_list] returns them. *)
Record request := {
  resource_id : string;
  indexes_decl : option (list index_decl);
  primary_key : option (list string);
  language : option string
}.

(** A CREATE INDEX statement and the index it stands for. *)
Record planned := {
  sql : string;
  entry : index
}.

(** [sorted(l)] on strings. *)
Definition sorted (l : list string) : list string := merge_sort String.le l.

Definition quoted (s : string) : string := str1 dquote +:+ s +:+ str1 dquote.

(** ** The engine's side *)

Definition index_names (c : catalog) : list string := name <$> indexes c.

(** The query of [_drop_indexes]: the indexes that are not primary, unique
    or not as asked. *)
Definition droppable (uniq : bool) (c : catalog) : list string :=
  name <$> List.filter (λ i, negb (primary i) && Bool.eqb (unique i) uniq)
                       (indexes c).

(** The query of [_get_unique_key]: for every unique index that is not
    primary, the columns of the table that are among its keys. *)
Definition is_unique_key (i : index) : bool := unique i && negb (primary i).
Definition unique_key_columns (c : catalog) : list string :=
  i ← List.filter is_unique_key (indexes c);
  List.filter (λ col, bool_decide (col ∈ columns i)) (table_columns c).*1.

(** DROP INDEX removes the index of that name; CREATE INDEX adds the index,
    and fails when the name is taken. *)
Definition exec_drop (statement n : string) : IM unit := λ s,
  (inr (),
   {| cat := {| table_columns := table_columns (cat s);
                indexes := List.filter (λ i, negb (String.eqb (name i) n))
                                       (indexes (cat s)) |};
      issued := issued s ++ [statement] |}).

Definition duplicate_table : dbapi_error :=
  {| cls := ProgrammingError; pgcode := Some "42P07";
     message := "relation already exists"; orig := "relation already exists";
     statement_of := ""; params_of := VNone |}.

Definition exec_create (p : planned) : IM unit := λ s,
  let s' := {| cat := cat s; issued := issued s ++ [sql p] |} in
  if bool_decide (name (entry p) ∈ index_names (cat s)) then
    (inl (DBAPIError duplicate_table), s')
  else
    (inr (),
     {| cat := {| table_columns := table_columns (cat s);
                  indexes := indexes (cat s) ++ [entry p] |};
        issued := issued s ++ [sql p] |}).

Fixpoint for_each {A : Type} (body : A → IM unit) (l : list A) : IM unit :=
  match l with
  | [] => mret ()
  | x :: l' => _ ← body x; for_each body l'
  end.

(** A computation that only adds to the statements issued. *)
Definition issues_more {A : Type} (m : IM A) : Prop :=
  ∀ s, ∃ rest, issued (m s).2 = issued s ++ rest.

Section WithEnvironment.
(** [hashlib.sha1(text.encode('utf-8')).hexdigest()], [str(sa.column(n))],
    the helper [should_fts_index_field_type], the two configured defaults,
    the helper [get_list] on an index declaration, and [str] of one. *)
Variable sha1_hexdigest : string → string.
Variable sa_column : string → string.
Variable should_fts_index_field_type : string → bool.
Variable default_fts_lang : string.
Variable fts_index_method : string.
Variable get_list : index_decl → list string.
Variable str_decl : index_decl → string.

Definition _generate_index_name (resource_id field : string) : string :=
  sha1_hexdigest (resource_id +:+ field).

(** [_get_fields]: the columns without the system columns. *)
Definition _get_fields (c : catalog) : list Write.field :=
  omap (λ col, if String.prefix "_" col.1 then None
               else Some {| Write.id := col.1; Write.type := col.2 |})
       (table_columns c).

(** [field_ids] and [json_fields] of [create_indexes]. *)
Definition field_ids_of (c : catalog) : list string :=
  Write.id <$> _get_fields c.
Definition json_fields_of (c : catalog) : list string :=
  Write.id <$> List.filter (λ f, String.eqb (Write.type f) "nested")
                           (_get_fields c).

(** [sql_index_tmpl] followed by the USING form, or by the plain form. *)
Definition sql_index_tmpl (uniq nm res_id : string) : string :=
  "CREATE " +:+ uniq +:+ " INDEX " +:+ quoted nm +:+ " ON " +:+ quoted res_id.
Definition sql_index_string_method (res_id uniq nm meth fields : string)
  : string :=
  sql_index_tmpl uniq nm res_id +:+ " USING " +:+ meth
  +:+ "(" +:+ fields +:+ ")".
Definition sql_index_string (res_id uniq nm fields : string) : string :=
  sql_index_tmpl uniq nm res_id +:+ " (" +:+ fields +:+ ")".

Definition is_text_or_tsvector (t : string) : bool :=
  String.eqb t "text" || String.eqb t "tsvector".

(** The expression [_build_fts_indexes] indexes for a field. *)
Definition fts_field_str (fts_lang : string) (f : Write.field) : string :=
  let field_str :=
    if is_text_or_tsvector (Write.type f) then quoted (Write.id f)
    else "cast(" +:+ quoted (Write.id f) +:+ " AS text)" in
  if String.eqb (Write.type f) "tsvector" then field_str
  else "to_tsvector('" +:+ fts_lang +:+ "', " +:+ field_str +:+ ")".

Definition fts_skipped (f : Write.field) : bool :=
  negb (String.eqb (Write.id f) "_full_text")
  && negb (should_fts_index_field_type (Write.type f)).

Definition full_text_field : Write.field :=
  {| Write.id := "_full_text"; Write.type := "tsvector" |}.

(** [_build_fts_indexes]: the statements for the fields to index, and the
    index names of the fields not to. *)
Definition _build_fts_indexes (data_dict : request)
    (fields : list Write.field) : list planned * list string :=
  let fts_lang := default default_fts_lang (language data_dict) in
  let all := full_text_field :: fields in
  let index_name f :=
    _generate_index_name (resource_id data_dict) (fts_field_str fts_lang f) in
  ((λ f,
      {| sql := sql_index_string_method (resource_id data_dict) ""
                  (index_name f) fts_index_method (fts_field_str fts_lang f);
         entry := {| name := index_name f; unique := false; primary := false;
                     columns := if String.eqb (Write.type f) "tsvector"
                                then [Write.id f] else [] |} |})
     <$> List.filter (λ f, negb (fts_skipped f)) all,
   index_name <$> List.filter fts_skipped all).

(** [_drop_indexes(context, data_dict, unique)] *)
Definition _drop_indexes (uniq : bool) : IM unit :=
  indexes_to_drop ← read (droppable uniq);
  for_each (λ n, exec_drop ("DROP INDEX " +:+ sa_column n +:+ " CASCADE") n)
           indexes_to_drop.

(** The body of the loop over the declared indexes: nothing for an empty
    declaration, an error for an unknown field, else the statement. *)
Definition plan_index (data_dict : request) (field_ids json_fields : list string)
    (i : index_decl) : exn + list planned :=
  if is_empty i then inr []
  else
    let index_fields := get_list i in
    if forallb (λ f, bool_decide (f ∈ field_ids)) index_fields then
      let fields_string :=
        join ", " ((λ f, if bool_decide (f ∈ json_fields)
                         then "((" +:+ identifier f +:+ ").json::text)"
                         else identifier f) <$> index_fields) in
      let uniq := is_primary_key i (primary_key data_dict) in
      let nm := _generate_index_name (resource_id data_dict) fields_string in
      inr [{| sql := sql_index_string (resource_id data_dict)
                       (if uniq then "unique" else "") nm fields_string;
              entry := {| name := nm; unique := uniq; primary := false;
                          columns :=
                            List.filter
                              (λ f, negb (bool_decide (f ∈ json_fields)))
                              index_fields |} |}]
    else
      inl (error1 "index"
             ("The field " +:+ quoted (str_decl i)
              +:+ " is not a valid column name."))
  .

Fixpoint plan_indexes (data_dict : request) (field_ids json_fields : list string)
    (l : list index_decl) : exn + list planned :=
  match l with
  | [] => inr []
  | i :: l' =>
      match plan_index data_dict field_ids json_fields i with
      | inl e => inl e
      | inr ps =>
          match plan_indexes data_dict field_ids json_fields l' with
          | inl e => inl e
          | inr ps' => inr (ps ++ ps')
          end
      end
  end.

(** The [sql_index_string] is skipped when the name of an index that
    exists occurs in it. *)
Definition exists_already (current_indexes : list string) (p : planned)
  : bool :=
  existsb (λ c, contains c (sql p)) current_indexes.

(** The end of [create_indexes], from the loop over the declared indexes
    on: the statements are planned, the indexes of the fields not to index
    are dropped, and the statements that name no existing index are
    executed. *)
Definition finish_indexes (data_dict : request) (fields : list Write.field)
    (indexes : list index_decl) : IM unit :=
  let field_ids := Write.id <$> fields in
  let json_fields :=
    Write.id <$> List.filter (λ f, String.eqb (Write.type f) "nested") fields in
  let '(fts_indexes, fts_noindexes) := _build_fts_indexes data_dict fields in
  match plan_indexes data_dict field_ids json_fields indexes with
  | inl e => fail e
  | inr declared =>
      let sql_index_strings := fts_indexes ++ declared in
      current_indexes ← read index_names;
      _ ← for_each
            (λ fts_idx,
               if bool_decide (fts_idx ∈ fts_noindexes) then
                 exec_drop ("DROP INDEX " +:+ sa_column fts_idx +:+ " CASCADE")
                           fts_idx
               else mret ())
            current_indexes;
      for_each
        (λ p, if exists_already current_indexes p then mret ()
              else exec_create p)
        sql_index_strings
  end.

(** [create_indexes(context, data_dict)] *)
Definition create_indexes (data_dict : request) : IM unit :=
  fields ← read _get_fields;
  indexes ←
    match indexes_decl data_dict with
    | Some l => _ ← _drop_indexes false; mret l
    | None => mret []
    end;
  indexes ←
    match primary_key data_dict with
    | Some pk =>
        unique_keys ← read unique_key_columns;
        if bool_decide (sorted unique_keys ≠ sorted pk) then
          _ ← _drop_indexes true; mret (indexes ++ [IList pk])
        else mret indexes
    | None => mret indexes
    end;
  finish_indexes data_dict fields indexes.

(** No name of an index that is to go occurs in a statement the
    declarations lead to, and no unique index carries such a name. *)
Definition no_collision (data_dict : request) (c : catalog) : Prop :=
  ∀ n, n ∈ (_build_fts_indexes data_dict (_get_fields c)).2 →
    (∀ p, p ∈ (_build_fts_indexes data_dict (_get_fields c)).1 →
          contains n (sql p) = false)
    ∧ (∀ pk ps p, primary_key data_dict = Some pk →
         plan_index data_dict (field_ids_of c) (json_fields_of c) (IList pk)
         = inr ps →
         p ∈ ps → contains n (sql p) = false)
    ∧ (∀ i, i ∈ indexes c → unique i = true → name i ≠ n).

(** The primary key lists distinct columns, none of them nested, in the
    form [get_list] leaves it in. *)
Definition plain_primary_key (data_dict : request) (c : catalog) : Prop :=
  ∀ pk, primary_key data_dict = Some pk →
    NoDup pk ∧ get_list (IList pk) = pk
    ∧ ∀ f t, f ∈ pk → (f, t) ∈ table_columns c → t ≠ "nested".

End WithEnvironment.
End Index.

(** * A resource to run the index manager on *)

Module ToyIndex.
Import Py Index.

(** Text is indexed for full-text search, other types are not; the digest
    is the text itself, so that the names can be read. *)
Definition should_fts_index_field_type (t : string) : bool :=
  String.eqb t "text".

Definition str_decl (i : index_decl) : string :=
  match i with
  | IStr s => s
  | IList l => "[" +:+ join ", " l +:+ "]"
  end.

Definition get_list (i : index_decl) : list string :=
  match i with
  | IStr s => [s]
  | IList l => l
  end.

Definition create_indexes : request → IM unit :=
  Index.create_indexes (λ s, s) (λ n, n) should_fts_index_field_type
    "english" "gist" get_list str_decl.

(** A new resource with a text column and an integer column. *)
Definition new_resource : state :=
  {| cat := {| table_columns :=
                 [("_id", "int4"); ("_full_text", "tsvector");
                  ("a", "text"); ("n", "int4")];
               indexes :=
                 [{| name := "res_pkey"; unique := true; primary := true;
                     columns := ["_id"] |}] |};
     issued := [] |}.

Definition declare (ixs : option (list index_decl))
    (pk : option (list string)) : request :=
  {| resource_id := "res"; indexes_decl := ixs; primary_key := pk;
     language := None |}.

(** The same resource with a nested column. *)
Definition nested_resource : state :=
  {| cat := {| table_columns :=
                 [("_id", "int4"); ("_full_text", "tsvector");
                  ("a", "text"); ("j", "nested")];
               indexes :=
                 [{| name := "res_pkey"; unique := true; primary := true;
                     columns := ["_id"] |}] |};
     issued := [] |}.

(** The state a call leaves, with the list of issued statements emptied
    for the next call. *)
Definition after (d : request) (s : state) : state :=
  {| cat := cat (create_indexes d s).2; issued := [] |}.

End ToyIndex.

(** * Error summaries *)

Module Summary.
Import Py Quoting.

Definition LF : ascii := "010"%char.

(** [s.split(LF)[0]]: the text before the first line feed. *)
Fixpoint first_line (s : string) : string :=
  match s with
  | EmptyString => EmptyString
  | String c s' =>
      if Ascii.eqb c LF then EmptyString else String c (first_line s')
  end.

(** [s[n:]] *)
Fixpoint skip (n : nat) (s : string) : string :=
  match n, s with
  | S n', String _ s' => skip n' s'
  | _, _ => s
  end.

(** The text after the first occurrence of [sep], when there is one. *)
Fixpoint after_first (sep s : string) : option string :=
  if String.prefix sep s then Some (skip (String.length sep) s)
  else
    match s with
    | EmptyString => None
    | String _ s' => after_first sep s'
    end.

(** [s.split(sep, 1)[-1]] *)
Definition split1_last (sep s : string) : string :=
  default s (after_first sep s).

(** [_programming_error_summary(pe)], on the text [pe.args[0]]. *)
Definition _programming_error_summary (args0 : string) : string :=
  let message := first_line args0 in
  split1_last ") " message.

End Summary.

(** * Field lists of a request and of an answer *)

Module Fields.
Import Py Db.

(** [_rename_json_field(data_dict)] *)
Definition _rename_json_field (data_dict : dict value)
  : exn + dict value :=
  Search._rename_field data_dict "json" "nested".

(** The entries of the list or tuple under [fields], and whether an entry
    is a dict that carries the type [t]. *)
Definition fields_of (data_dict : dict value) : list value :=
  match dict_get "fields" data_dict with
  | Some (VList fields) | Some (VTuple fields) => fields
  | _ => []
  end.

(** The usual shape of a request: no [fields] entry, or a list of dicts
    under it. *)
Definition is_dict (v : value) : bool :=
  match v with VDict _ => true | _ => false end.
Definition fields_are_dicts (data_dict : dict value) : bool :=
  match dict_get "fields" data_dict with
  | None => true
  | Some (VList fields) => forallb is_dict fields
  | Some _ => false
  end.

Definition has_type (t : string) (f : value) : bool :=
  match f with
  | VDict d =>
      match dict_get "type" d with
      | Some (VStr t') => String.eqb t' t
      | _ => false
      end
  | _ => false
  end.

(** [_pluck(field, arr)]: [x[field]] raises [KeyError] on a dict without
    the key. *)
Fixpoint _pluck (field : string) (arr : list (dict value))
  : exn + list value :=
  match arr with
  | [] => inr []
  | x :: arr' =>
      match dict_get field x with
      | None => inl (PyError "KeyError")
      | Some v =>
          match _pluck field arr' with
          | inl e => inl e
          | inr vs => inr (v :: vs)
          end
      end
  end.

(** [_result_fields(fields_types, field_info, fields)]; [fields_types] is
    an [OrderedDict], [fields] is [None] for all the fields. *)
Fixpoint result_fields_loop (fields_types : dict string)
    (field_info : dict value) (fields : list string)
  : exn + list (dict value) :=
  match fields with
  | [] => inr []
  | field_id :: fields' =>
      match dict_get field_id fields_types with
      | None => inl (PyError "KeyError")
      | Some t =>
          let f := [("id", VStr field_id); ("type", VStr t)] in
          let f :=
            match dict_get field_id field_info with
            | Some info => dict_set "info" info f
            | None => f
            end in
          match result_fields_loop fields_types field_info fields' with
          | inl e => inl e
          | inr result_fields => inr (f :: result_fields)
          end
      end
  end.

Definition _result_fields (fields_types : dict string)
    (field_info : dict value) (fields : option (list string))
  : exn + list (dict value) :=
  let fields := default (dict_keys fields_types) fields in
  result_fields_loop fields_types field_info fields.

Section WithEngine.
Variable DB : Type.
Variable engine_execute : DB → statement → dbapi_error + DB * cursor_result.

(** [_get_fields_types(connection, resource_id)] *)
Definition _get_fields_types (resource_id : string) : M DB (dict string) :=
  all_fields ← Write._get_fields DB engine_execute resource_id;
  let all_fields :=
    {| Write.id := "_id"; Write.type := "int" |} :: all_fields in
  mret (dict_of_pairs ((λ f, (Write.id f, Write.type f)) <$> all_fields)).

End WithEngine.

(** The mapping as [_where_clauses] looks fields up in it. *)
Definition lookup_table (fields_types : dict string) : gmap string string :=
  list_to_map fields_types.

End Fields.

(** * Query compiler: full-text search *)

Module TextSearch.
Import Py Quoting Db Where.

(** The statements and the rank columns built so far. *)
Definition acc : Type := list string * dict string.

(** [_build_query_and_rank_statements(lang, query, plain, field)]; the
    query is a value of the request, and [literal_string] needs a [str]. *)
Definition _build_query_and_rank_statements (lang : string) (query : value)
    (plain : bool) (field : option string) : exn + string * string :=
  let query_alias := _ts_query_alias field in
  let lang_literal := literal_string lang in
  match query with
  | VStr query =>
      let query_literal := literal_string query in
      let statement :=
        (if plain then "plainto_tsquery(" else "to_tsquery(")
        +:+ lang_literal +:+ ", " +:+ query_literal +:+ ") " +:+ query_alias in
      let rank_field :=
        match field with
        | None => "_full_text"
        | Some f => "to_tsvector(" +:+ lang_literal +:+ ", cast("
                    +:+ identifier f +:+ " as text))"
        end in
      inr (statement,
           "ts_rank(" +:+ rank_field +:+ ", " +:+ query_alias +:+ ", 32)")
  | _ => inl (PyError "AttributeError")
  end.

(** [_update_rank_statements_and_columns] *)
Definition _update_rank_statements_and_columns (a : acc) (lang : string)
    (query : value) (plain : bool) (field : option string) : exn + acc :=
  match _build_query_and_rank_statements lang query plain field with
  | inl e => inl e
  | inr (query, rank) =>
      let key :=
        match field with
        | Some f => if String.eqb f "" then "rank" else "rank " +:+ f
        | None => "rank"
        end in
      inr (a.1 ++ [query], dict_set key rank a.2)
  end.

(** The loop over [q.items()] when there is no [full_text]. *)
Fixpoint q_only_loop (lang : string) (plain : bool) (qs : dict value)
    (a : acc) : exn + acc :=
  match qs with
  | [] => inr a
  | (field, v) :: qs' =>
      match _build_query_and_rank_statements lang v plain (Some field) with
      | inl e => inl e
      | inr (query, rank) =>
          q_only_loop lang plain qs'
            (a.1 ++ [query], dict_set ("rank " +:+ field) rank a.2)
      end
  end.

(** The loop over [q.items()] next to a [full_text]. *)
Fixpoint q_update_loop (lang : string) (plain : bool) (qs : dict value)
    (a : acc) : exn + acc :=
  match qs with
  | [] => inr a
  | (field, v) :: qs' =>
      match _update_rank_statements_and_columns a lang v plain (Some field)
      with
      | inl e => inl e
      | inr a' => q_update_loop lang plain qs' a'
      end
  end.

(** The statements and rank columns of [_textsearch_query], when [q] or
    [full_text] is given. *)
Definition statements_and_ranks (lang : string) (q : value) (plain : bool)
    (full_text : value) : exn + acc :=
  let start : acc := ([], []) in
  if truthy q && negb (truthy full_text) then
    match q with
    | VStr _ =>
        match _build_query_and_rank_statements lang q plain None with
        | inl e => inl e
        | inr (query, rank) => inr ([query], [("rank", rank)])
        end
    | VDict qs => q_only_loop lang plain qs start
    | _ => inr start
    end
  else if truthy full_text && negb (truthy q) then
    _update_rank_statements_and_columns start lang full_text plain None
  else
    match q with
    | VDict qs =>
        if truthy full_text then
          match _update_rank_statements_and_columns start lang full_text
                  plain None with
          | inl e => inl e
          | inr a => q_update_loop lang plain qs a
          end
        else inr start
    | VStr _ =>
        if truthy full_text then
          _update_rank_statements_and_columns start lang full_text plain None
        else inr start
    | _ => inr start
    end.

(** [_textsearch_query(lang, q, plain, full_text)] *)
Definition _textsearch_query (lang : string) (q : value) (plain : bool)
    (full_text : value) : exn + string * dict string :=
  if negb (truthy q || truthy full_text) then inr ("", [])
  else
    match statements_and_ranks lang q plain full_text with
    | inl e => inl e
    | inr (statements, rank_columns) =>
        inr (", " +:+ join ", " statements, rank_columns)
    end.

(** A statement of the FROM list declares the alias it ends with, and a
    WHERE clause matches a column against an alias. *)
Definition declares (alias statement : string) : Prop :=
  ∃ call, statement = call +:+ ") " +:+ alias.
Definition matches (alias : string) (c : clause) : Prop :=
  ∃ lhs, c = Bare (lhs +:+ " @@ " +:+ alias).

End TextSearch.

(** * Write engine: the insert method *)

Module Insert.
Import Py Quoting Db Write.

(** The keys of a record that name no column. *)
Definition extra_keys (field_names : list string) (r : record) : list string :=
  List.filter (λ k, negb (bool_decide (k ∈ field_names))) (dict_keys r).

Section WithEngine.
Variable DB : Type.
Variable engine_execute : DB → statement → dbapi_error + DB * cursor_result.
Variable json_dumps : value → string.
Variable str : value → string.
Variable _programming_error_summary : dbapi_error → string.
Context `{SetOrder}.

(** [insert_data(context, data_dict)]: [data_dict['method'] = _INSERT],
    then [upsert_data]. *)
Definition insert_data (data_dict : request) : M DB unit :=
  let data_dict :=
    {| resource_id := resource_id data_dict; records := records data_dict;
       method := Some _INSERT; dry_run := dry_run data_dict |} in
  upsert_data DB engine_execute json_dumps str _programming_error_summary
    data_dict.

(** The extra keys of a record in the order the error lists them. *)
Definition listed_extra_keys (field_names : list string) (r : record)
  : list string :=
  list_of_set
    (List.filter (λ k, negb (bool_decide (k ∈ field_names)))
                 (list_of_set (dict_keys r))).

(** The mapping bound for a record: one value per column, under the
    placeholders of the statement. *)
Definition row_of (fields : list field) (r : record) : dict value :=
  imap (λ idx f, (val_placeholder idx, marshal json_dumps f (get (id f) r)))
       fields.

End WithEngine.
End Insert.

(** * An engine that refuses every INSERT *)

Module ToyUnique.
Import Py Db.

Definition duplicate_key : dbapi_error :=
  {| cls := IntegrityError; pgcode := Some Write.unique_violation;
     message := "(IntegrityError) duplicate key value";
     orig := "duplicate key value";
     statement_of := ""; params_of := VNone |}.

(** The engine of [Toy], on which an INSERT violates a unique constraint. *)
Definition engine_execute (t : Toy.table) (stmt : statement)
  : dbapi_error + Toy.table * cursor_result :=
  match stmt with
  | Text sql _ =>
      if String.prefix "INSERT" sql then inl duplicate_key
      else Toy.engine_execute t stmt
  | _ => Toy.engine_execute t stmt
  end.

Definition upsert :=
  Write.upsert Toy.table engine_execute Toy.str Toy.str Toy.summary
    (H:=Toy.insertion_order).

End ToyUnique.

(** * Configuration: the allowed SQL functions *)

Module Config.
Import Py Quoting.

(** [line.strip()] on ASCII text. *)
Definition strip (line : string) : string :=
  string_of_list_ascii (CPython.strip (list_ascii_of_string line)).

(** [format_entry(line)] of [configure]: the entry is lowercased unless it
    is enclosed in double quotes. *)
Definition format_entry (line : string) : string :=
  let entry := strip line in
  if negb (String.prefix (str1 dquote) entry) then str_lower entry
  else entry.

(** [set(format_entry(line) for line in f)], as a list. *)
Definition allowed_sql_functions (lines : list string) : list string :=
  format_entry <$> lines.

End Config.

(** * Requests: validation, deletion, and the entry point of search *)

Module Requests.
Import Py Quoting Db Where.

(** [d.pop(k, None)] *)
Definition dict_pop {A : Type} (k : string) (d : dict A) : dict A :=
  List.filter (λ kv, negb (String.eqb kv.1 k)) d.

(** An implementation of the IDatastore interface, as far as [validate] and
    [delete_data] call it: [datastore_validate] returns the request with the
    entries it accepts removed, [datastore_delete] the WHERE clauses with its
    own added. *)
Record plugin := {
  datastore_validate : dict value → dict string → dict value;
  datastore_delete : dict value → dict string → list clause → list clause
}.

(** [datastore_delete] of the backend, on the entries [_where_clauses]
    reads. *)
Definition backend_datastore_delete (sa_column : string → string)
    (str : value → string) (should_fts_index_field_type : string → bool)
    (default_fts_lang : string) (data_dict : request)
    (fields_types : gmap string string) (where_ : list clause)
  : list clause :=
  where_ ++ _where_clauses sa_column str should_fts_index_field_type
              default_fts_lang data_dict fields_types.

(** The entries that [validate] drops before it looks at what is left. *)
Definition default_elements : list string :=
  ["connection_url"; "resource_id"; "id"; "include_total";
   "total_estimation_threshold"; "records_format";
   "calculate_record_count"].

(** The value an error shows for a leftover entry. *)
Definition shown (values : value) : value :=
  match values with
  | VStr _ => values
  | VList (v :: _) | VTuple (v :: _) => v
  | VDict ((k, _) :: _) => VStr k
  | _ => values
  end.

Definition query_canceled : string := "57014".

Section WithEngine.
Variable DB : Type.
Variable engine_execute : DB → statement → dbapi_error + DB * cursor_result.
(** The helpers [get_list] and [is_single_statement], [str], the text
    [pe.args[0]] of an error, and the plugins in their order. *)
Variable get_list : value → bool → value.
Variable is_single_statement : string → bool.
Variable str : value → string.
Variable args0 : dbapi_error → string.
Variable plugins : list plugin.

Local Abbreviation M := (Db.M DB).
Local Abbreviation execute := (Db.execute DB engine_execute).
Local Abbreviation _get_fields_types :=
  (Fields._get_fields_types DB engine_execute).

(** The loop over what is left of the request. *)
Fixpoint leftover_loop (items : dict value) : option exn :=
  match items with
  | [] => None
  | (key, values) :: items' =>
      if negb (truthy values) then leftover_loop items'
      else Some (error1 key ("invalid value "
                             +:+ Write.quoted (str (shown values))))
  end.

(** What the plugins and the removal of the default elements leave of the
    request. *)
Definition leftover (data_dict : dict value) (fields_types : dict string)
  : dict value :=
  let data_dict_copy := data_dict in
  let data_dict_copy :=
    match dict_get "fields" data_dict_copy with
    | Some fields => dict_set "fields" (get_list fields true) data_dict_copy
    | None => data_dict_copy
    end in
  let data_dict_copy :=
    match dict_get "sort" data_dict_copy with
    | Some sort => dict_set "sort" (get_list sort false) data_dict_copy
    | None => data_dict_copy
    end in
  let data_dict_copy :=
    foldl (λ d p, datastore_validate p d fields_types) data_dict_copy
          plugins in
  foldl (λ d k, dict_pop k d) data_dict_copy default_elements.

(** [validate(context, data_dict)]; [resource_id] is
    [data_dict['resource_id']]. *)
Definition validate (resource_id : string) (data_dict : dict value)
  : M bool :=
  fields_types ← _get_fields_types resource_id;
  match leftover_loop (leftover data_dict fields_types) with
  | Some e => raise e
  | None => mret true
  end.

(** [except ProgrammingError as pe] of [delete_data]. *)
Definition delete_handler (e : exn) : M cursor_result :=
  match e with
  | DBAPIError pe =>
      match cls pe with
      | ProgrammingError =>
          raise (error1 "filters"
                   (Summary._programming_error_summary (args0 pe)))
      | _ => raise e
      end
  | _ => raise e
  end.

Definition delete_sql (resource_id where_clause : string) : string :=
  "DELETE FROM " +:+ Write.quoted resource_id +:+ " " +:+ where_clause.

(** [delete_data(context, data_dict)] *)
Definition delete_data (resource_id : string) (data_dict : dict value)
  : M unit :=
  _ ← validate resource_id data_dict;
  fields_types ← _get_fields_types resource_id;
  let where_ :=
    foldl (λ w p, datastore_delete p data_dict fields_types w) [] plugins in
  let '(where_clause, where_values) := _where where_ in
  let sql_string := delete_sql resource_id where_clause in
  _ ← try_except
        (Search._execute_single_statement DB engine_execute
           is_single_statement sql_string where_values)
        delete_handler;
  mret tt.

(** [with engine.begin() as conn: m]: the transaction is committed when [m]
    returns and rolled back when it raises, and the connection is closed. *)
Definition with_begin {A : Type} (m : M A) : M A :=
  λ c, match m (begin c) with
       | (inr x, c') => (inr x, close (commit c'))
       | (inl e, c') => (inl e, close (rollback c'))
       end.

Definition drop_table_sql (resource_id : string) : string :=
  "DROP TABLE " +:+ identifier resource_id +:+ " CASCADE".

(** [DatastorePostgresqlBackend.delete(context, data_dict)], run on the
    connection of the write engine. *)
Definition delete (resource_id : string) (data_dict : dict value)
  : M (dict value) :=
  with_begin
    (_ ← (if negb (dict_has "filters" data_dict) then
            _ ← execute (Text (drop_table_sql resource_id) NoParams);
            mret tt
          else delete_data resource_id data_dict);
     match Search._unrename_json_field data_dict with
     | inl e => raise e
     | inr data_dict => mret data_dict
     end).

(** The [except] clause of [search]. *)
Definition search_handler {A : Type} (e : exn) : M A :=
  match e with
  | DBAPIError err =>
      if bool_decide (pgcode err = Some query_canceled) then
        raise (error1 "query" "Search took too long")
      else
        raise (ValidationError
          [("query", VList [VStr "Invalid query"]);
           ("info", VDict [("statement", VList [VStr (statement_of err)]);
                           ("params", VList [params_of err]);
                           ("orig", VList [VStr (orig err)])])])
  | _ => raise e
  end.

(** [search(context, data_dict)], run on the connection it has opened;
    [search_data] stands for the call [search_data(context, data_dict)]. *)
Definition search {A : Type} (search_data : M A) (timeout : N) : M A :=
  try_finally
    (try_except
       (_ ← execute (Text ("SET LOCAL statement_timeout TO "
                           +:+ pretty timeout) NoParams);
        search_data)
       search_handler)
    close.

(** A computation adds to the statements executed so far, and only
    statements that are [allowed]. *)
Definition adds {A : Type} (m : M A) (allowed : statement → Prop) : Prop :=
  ∀ c, ∃ new, executed (m c).2 = executed c ++ new ∧ Forall allowed new.

End WithEngine.

(** The statements of [delete_data]: the query for the columns, and a
    DELETE on the resource with bound parameters. *)
Definition delete_statement (resource_id : string) (stmt : statement)
  : Prop :=
  stmt = SelectAllLimit1 resource_id
  ∨ ∃ where_clause params,
      stmt = Text (delete_sql resource_id where_clause) (One params).

End Requests.

(** * Aliases *)

Module Alias.
Import Py Quoting Db.

Definition duplicate_table : string := "42P07".
Definition duplicate_alias : string := "42712".

Definition table_metadata : string := Write.quoted "_table_metadata".

Definition alias_sql : string :=
  "SELECT name FROM " +:+ table_metadata +:+ " WHERE alias_of = :id".

Definition resources_sql : string :=
  "SELECT alias_of FROM " +:+ table_metadata +:+ Write.newline
  +:+ "        WHERE name = :alias AND alias_of IS NOT NULL".

Definition drop_view_sql (alias : string) : string :=
  "DROP VIEW " +:+ Write.quoted alias.

Definition create_view_sql (alias main : string) : string :=
  "CREATE VIEW " +:+ Write.quoted alias +:+ Write.newline
  +:+ "                    AS SELECT * FROM " +:+ Write.quoted main.

Section WithEngine.
Variable DB : Type.
Variable engine_execute : DB → statement → dbapi_error + DB * cursor_result.

Local Abbreviation M := (Db.M DB).
Local Abbreviation execute := (Db.execute DB engine_execute).

(** [_get_aliases(context, data_dict)] *)
Definition _get_aliases (res_id : string) : M (list string) :=
  result ← execute (Text alias_sql (One [("id", VStr res_id)]));
  mret (omap Write.column0 (rows result)).

(** [_get_resources(context, alias)] *)
Definition _get_resources (alias : string) : M (list (list value)) :=
  result ← execute (Text resources_sql (One [("alias", VStr alias)]));
  mret (rows result).

(** The body of the loop over the new aliases. *)
Definition alias_body (res_id alias : string) : M unit :=
  res_ids ← _get_resources alias;
  match res_ids with
  | _ :: _ =>
      raise (error1 "alias" ("The alias " +:+ Write.quoted alias
                             +:+ " already exists."))
  | [] =>
      _ ← execute (Text (create_view_sql alias res_id) NoParams);
      mret tt
  end.

(** [except DBAPIError as e], [alias] being the loop variable: an error
    with another code is not raised again. *)
Definition alias_handler (alias : string) (e : exn) : M unit :=
  match e with
  | DBAPIError err =>
      if bool_decide (pgcode err = Some duplicate_table)
         || bool_decide (pgcode err = Some duplicate_alias)
      then raise (error1 "alias" (Write.quoted alias +:+ " already exists"))
      else mret tt
  | _ => raise e
  end.

(** [try: for alias in aliases: ... except DBAPIError as e: ...]: the
    first error ends the loop and is handled with the alias it occurred
    at. *)
Fixpoint alias_loop (res_id : string) (aliases : list string) : M unit :=
  match aliases with
  | [] => mret tt
  | alias :: rest =>
      λ c, match alias_body res_id alias c with
           | (inr _, c') => alias_loop res_id rest c'
           | (inl e, c') => alias_handler alias e c'
           end
  end.

(** [create_alias(context, data_dict)]; [aliases] is what [get_list] makes
    of [data_dict.get('aliases')]. *)
Definition create_alias (res_id : string) (aliases : option (list string))
  : M unit :=
  match aliases with
  | None => mret tt
  | Some aliases =>
      previous_aliases ← _get_aliases res_id;
      _ ← for_each (λ _ alias,
                      _ ← execute (Text (drop_view_sql alias) NoParams);
                      mret tt)
                   0 previous_aliases;
      alias_loop res_id aliases
  end.

(** The previous aliases have been dropped, which leaves the connection as
    [c2]; the views of the aliases [pre] have been created, from [c2] to
    [c3]. *)
Definition previous_dropped (res_id : string) (c c2 : connection DB) : Prop :=
  (previous_aliases ← _get_aliases res_id;
   for_each (λ _ alias,
               _ ← execute (Text (drop_view_sql alias) NoParams); mret tt)
            0 previous_aliases) c = (inr tt, c2).

Definition created (res_id : string) (pre : list string)
    (c2 c3 : connection DB) : Prop :=
  for_each (λ _ alias, alias_body res_id alias) 0 pre c2 = (inr tt, c3).

End WithEngine.
End Alias.

(** * An engine with the metadata of the aliases *)

Module ToyAlias.
Import Py Db Alias.

Definition permission_denied : dbapi_error :=
  {| cls := ProgrammingError; pgcode := Some "42501";
     message := "(ProgrammingError) permission denied for schema public";
     orig := "permission denied for schema public";
     statement_of := ""; params_of := VNone |}.

(** The state lists the aliases as pairs of a name and the resource it
    stands for; the two metadata queries are answered from it, and no view
    can be created. *)
Definition engine_execute (db : list (string * string)) (stmt : statement)
  : dbapi_error + list (string * string) * cursor_result :=
  let answer names :=
    {| rowcount := Z.of_nat (length names);
       rows := (λ n, [VStr n]) <$> names;
       description := [("name", "name")] |} in
  match stmt with
  | Text sql (One [(_, VStr x)]) =>
      if String.eqb sql alias_sql then
        inr (db, answer (List.filter (λ a, String.eqb a.2 x) db).*1)
      else if String.eqb sql resources_sql then
        inr (db, answer (List.filter (λ a, String.eqb a.1 x) db).*2)
      else inr (db, answer [])
  | Text sql NoParams =>
      if String.prefix "CREATE VIEW" sql then inl permission_denied
      else inr (db, answer [])
  | _ => inr (db, answer [])
  end.

Definition create_alias :=
  Alias.create_alias (list (string * string)) engine_execute.

End ToyAlias.

(** * An engine that fails on every DELETE, and a plugin *)

Module ToyDelete.
Import Py Db Requests.

Definition undefined_column : dbapi_error :=
  {| cls := ProgrammingError; pgcode := Some "42703";
     message := "(ProgrammingError) column does not exist";
     orig := "column does not exist";
     statement_of := ""; params_of := VNone |}.

Definition engine_execute (t : Toy.table) (stmt : statement)
  : dbapi_error + Toy.table * cursor_result :=
  match stmt with
  | Text sql _ =>
      if String.prefix "DELETE" sql then inl undefined_column
      else Toy.engine_execute t stmt
  | _ => Toy.engine_execute t stmt
  end.

(** A plugin that accepts the [filters] of a request and adds no clause. *)
Definition accepts_filters : plugin :=
  {| datastore_validate := λ d _, dict_pop "filters" d;
     datastore_delete := λ _ _ where_, where_ |}.

Definition get_list (v : value) (strip_values : bool) : value := v.

End ToyDelete.

(** * Schema manager: creating the table *)

Module Schema.
Import Py Quoting Db.

Definition undefined_object : string := "42704".
Definition syntax_error : string := "42601".

(** A field of the request: its [id], and its [type] and [info] when the
    dict has these keys. *)
Record supplied_field := {
  id : string;
  type : option string;
  info : option value
}.

(** The entries of [data_dict] that [create_table] reads: [fields] is empty
    when the key is absent, [records] is [None] when it is. *)
Record request := {
  resource_id : string;
  fields : list supplied_field;
  records : option (list value)
}.

(** The two system columns. *)
Definition datastore_fields : list (string * string) :=
  [("_id", "serial primary key"); ("_full_text", "tsvector")].

(** [k in r0] and [r0[k]] for a [str] [k], whatever the first record is. *)
Definition contains_key (k : string) (r0 : value) : exn + bool :=
  match r0 with
  | VDict d => inr (dict_has k d)
  | VStr s => inr (Py.contains k s)
  | VList l | VTuple l => inr (existsb (is_str k) l)
  | _ => inl (PyError "TypeError")
  end.

Definition getitem (k : string) (r0 : value) : exn + value :=
  match r0 with
  | VDict d =>
      match dict_get k d with
      | Some v => inr v
      | None => inl (PyError "KeyError")
      end
  | _ => inl (PyError "TypeError")
  end.

(** [len(field_id) > 63]: the length is that of the text, in code
    points. *)
Definition too_long (field_id : string) : bool :=
  63 <? len field_id.

Definition too_long_message (field_id : string) : string :=
  "Column heading " +:+ Write.quoted field_id
  +:+ " exceeds limit of 63 characters.".

Definition not_guessable (field_id : string) : exn :=
  error1 "fields" (Write.quoted field_id +:+ " type not guessable").

Definition column_sql (column : string * string) : string :=
  identifier column.1 +:+ " " +:+ column.2.

Definition create_table_sql (resource_id : string)
    (columns : list (string * string)) : string :=
  "CREATE TABLE " +:+ identifier resource_id +:+ " ("
  +:+ join ", " (column_sql <$> columns) +:+ ");".

(** The column a field stands for. *)
Definition column_of (f : supplied_field) : string * string :=
  (id f, default "" (type f)).

Section WithEngine.
Variable DB : Type.
Variable engine_execute : DB → statement → dbapi_error + DB * cursor_result.
(** The builtins and the set order of [_guess_type], the cached
    [_type_names], the helper [is_valid_field_name], and [json.dumps] with
    the separators of the column comments. *)
Context `{Builtins}.
Variable int_first : bool.
Variable _type_names : list string.
Variable is_valid_field_name : string → bool.
Variable json_dumps : value → string.

Local Abbreviation M := (Db.M DB).
Local Abbreviation execute := (Db.execute DB engine_execute).

Definition _guess_type (field : value) : string :=
  GuessType._guess_type (GuessType.iteration_order int_first) field.

(** [except ProgrammingError as e] of [_is_valid_pg_type]. *)
Definition pg_type_handler (e : exn) : M bool :=
  match e with
  | DBAPIError err =>
      match cls err with
      | ProgrammingError =>
          if bool_decide (pgcode err = Some undefined_object)
             || bool_decide (pgcode err = Some syntax_error)
          then mret false
          else raise e
      | _ => raise e
      end
  | _ => raise e
  end.

(** [_is_valid_pg_type(context, type_name)] *)
Definition _is_valid_pg_type (type_name : string) : M bool :=
  if bool_decide (type_name ∈ _type_names) then mret true
  else
    try_except
      (_ ← execute (Text "SELECT cast(:type as regtype)"
                         (One [("type", VStr type_name)]));
       mret true)
      pg_type_handler.

(** [check_fields(context, fields)] *)
Fixpoint check_fields (fields : list supplied_field) : M unit :=
  match fields with
  | [] => mret tt
  | field :: fields' =>
      invalid_type ←
        match type field with
        | Some t =>
            if String.eqb t "" then mret false
            else valid ← _is_valid_pg_type t; mret (negb valid)
        | None => mret false
        end;
      if (invalid_type : bool) then
        raise (error1 "fields"
                 (Write.quoted (default "" (type field))
                  +:+ " is not a valid field type"))
      else if negb (is_valid_field_name (id field)) then
        raise (error1 "fields"
                 (Write.quoted (id field) +:+ " is not a valid field name"))
      else check_fields fields'
  end.

(** The loop that gives a type to the fields that come without one, from
    the first record. *)
Definition guess_field (records : option (list value))
    (field : supplied_field) : exn + supplied_field :=
  match type field with
  | Some _ => inr field
  | None =>
      match records with
      | Some (r0 :: _) =>
          match contains_key (id field) r0 with
          | inl e => inl e
          | inr false => inl (not_guessable (id field))
          | inr true =>
              match getitem (id field) r0 with
              | inl e => inl e
              | inr v =>
                  inr {| id := id field; type := Some (_guess_type v);
                         info := info field |}
              end
          end
      | _ => inl (not_guessable (id field))
      end
  end.

Fixpoint guess_types (records : option (list value))
    (fields : list supplied_field) : exn + list supplied_field :=
  match fields with
  | [] => inr []
  | field :: fields' =>
      match guess_field records field with
      | inl e => inl e
      | inr field' =>
          match guess_types records fields' with
          | inl e => inl e
          | inr fields'' => inr (field' :: fields'')
          end
      end
  end.

(** The columns for the keys of the first record that no field names. *)
Definition extra_fields (field_ids : list string)
    (records : option (list value)) : exn + list (string * string) :=
  match records with
  | Some (r0 :: _) =>
      match r0 with
      | VDict d =>
          inr ((λ kv, (kv.1, _guess_type kv.2))
               <$> List.filter (λ kv, negb (bool_decide (kv.1 ∈ field_ids))) d)
      | _ => inl (error1 "records" "The first row is not a json object")
      end
  | _ => inr []
  end.

(** The comment statement of the field at index [i], if it has one. *)
Definition comment_sql (resource_id : string)
    (plugin_data : gmap nat (dict value)) (i : nat) (f : supplied_field)
  : list string :=
  let column_comment := default [] (plugin_data !! i) in
  let column_comment :=
    match info f with
    | Some (VDict d) => dict_set "_info" (VDict d) column_comment
    | _ => column_comment
    end in
  match column_comment with
  | [] => []
  | _ =>
      ["COMMENT ON COLUMN " +:+ identifier resource_id +:+ "."
       +:+ identifier (id f) +:+ " is "
       +:+ literal_string (" " +:+ json_dumps (VDict column_comment))]
  end.

Definition info_sql (resource_id : string)
    (plugin_data : gmap nat (dict value)) (fields : list supplied_field)
  : list string :=
  mjoin (imap (comment_sql resource_id plugin_data) fields).

(** [create_table(context, data_dict, plugin_data)]; the answer is the list
    of fields of the request as the call leaves it, with the guessed
    types. *)
Definition create_table (data_dict : request)
    (plugin_data : gmap nat (dict value)) : M (list supplied_field) :=
  let supplied_fields := fields data_dict in
  _ ← check_fields supplied_fields;
  let field_ids := id <$> supplied_fields in
  let fields_errors := too_long_message <$> List.filter too_long field_ids in
  match fields_errors with
  | _ :: _ =>
      raise (ValidationError [("fields", VList (VStr <$> fields_errors))])
  | [] =>
      match guess_types (records data_dict) supplied_fields with
      | inl e => raise e
      | inr supplied_fields =>
          if negb (bool_decide (NoDup field_ids)) then
            raise (error1 "field" "Duplicate column names are not supported")
          else
            match extra_fields field_ids (records data_dict) with
            | inl e => raise e
            | inr extra =>
                let columns :=
                  datastore_fields ++ (column_of <$> supplied_fields)
                  ++ extra in
                let sql_string :=
                  create_table_sql (resource_id data_dict) columns in
                let comments :=
                  info_sql (resource_id data_dict) plugin_data
                           supplied_fields in
                _ ← execute
                      (Text (sql_string
                             +:+ replace_char ":" "\:" (join ";" comments))
                            NoParams);
                mret supplied_fields
            end
      end
  end.

(** What the loop over the fields makes of a field: a type that is given
    is kept, one that is missing is guessed from the first record. *)
Definition typed_as (records : option (list value))
    (f f' : supplied_field) : Prop :=
  id f' = id f ∧ info f' = info f
  ∧ match type f with
    | Some t => type f' = Some t
    | None =>
        ∃ d rest v, records = Some (VDict d :: rest)
                    ∧ dict_get (id f) d = Some v
                    ∧ type f' = Some (_guess_type v)
    end.

(** The type of a field is not given, is empty, or is among the cached
    type names: [check_fields] does not ask the engine about it. *)
Definition cached (f : supplied_field) : Prop :=
  match type f with
  | Some t => t = "" ∨ t ∈ _type_names
  | None => True
  end.

End WithEngine.

(** The keys of the first record, when it is a JSON object. *)
Definition first_keys (records : option (list value)) : list string :=
  match records with
  | Some (VDict d :: _) => dict_keys d
  | _ => []
  end.

End Schema.

(** * The schema manager on the engine of [Toy] *)

Module ToySchema.
Import Py Db Schema.

(** The types [text] and [int4] are cached, every name is valid, and the
    builtins are those of the reference instance. *)
Definition create_table
  : request → gmap nat (dict value) → M Toy.table (list supplied_field) :=
  Schema.create_table Toy.table Toy.engine_execute (H:=CPython.builtins)
    true ["text"; "int4"] (λ _, true) Toy.str.

Definition field (name : string) (t : option string) : supplied_field :=
  {| id := name; type := t; info := None |}.

(** A name of 64 characters. *)
Definition long_name : string :=
  "a234567890123456789012345678901234567890123456789012345678901234".

(** A name of 32 letters e with an acute accent: 32 characters, in 64
    bytes. *)
Definition e_acute : string :=
  String (ascii_of_nat 195) (String (ascii_of_nat 169) EmptyString).
Definition accented_name : string :=
  Eval cbv in String.concat EmptyString (replicate 32 e_acute).

End ToySchema.

(** * Links to the neighbouring pages *)

Module Links.
Import Py.

Section WithRequest.
(** [toolkit.request.environ['CKAN_CURRENT_URL']], [None] when the lookup
    raises ([KeyError], [TypeError] or [RuntimeError]: a local action), and
    the functions of [urllib.parse]; [urlparse] returns the six components
    of a URL. *)
Variable current_url : option string.
Variable urlparse : string → list string.
Variable parse_qsl : string → list (string * string).
Variable urlencode : dict value → string.
Variable urlunparse : list string → string.

(** [_insert_links(data_dict, limit, offset)], with [int(limit)] and
    [int(offset)] for the two numbers. *)
Definition _insert_links (data_dict : dict value) (limit offset : Z)
  : dict value :=
  let data_dict := dict_set "_links" (VDict []) data_dict in
  match current_url with
  | None => data_dict
  | Some urlstring =>
      let parsed := urlparse urlstring in
      let query := default "" (parsed !! 4) in
      let arguments :=
        dict_of_pairs ((λ kv, (kv.1, VStr kv.2)) <$> parse_qsl query) in
      let arguments_start := Requests.dict_pop "offset" arguments in
      let arguments_next :=
        dict_set "offset" (VInt (offset + limit)) arguments in
      let arguments_prev :=
        dict_set "offset" (VInt (offset - limit)) arguments in
      let parsed_start := <[4 := urlencode arguments_start]> parsed in
      let parsed_next := <[4 := urlencode arguments_next]> parsed in
      let parsed_prev := <[4 := urlencode arguments_prev]> parsed in
      let links := [("start", VStr (urlunparse parsed_start))] in
      let links := dict_set "next" (VStr (urlunparse parsed_next)) links in
      let links :=
        if (0 <? offset - limit)%Z
        then dict_set "prev" (VStr (urlunparse parsed_prev)) links
        else links in
      dict_set "_links" (VDict links) data_dict
  end.

End WithRequest.
End Links.

(** * Properties *)

(** ** Strings *)

Lemma str_app_nil_l (s : string) : "" +:+ s = s.
Proof. reflexivity. Qed.

Lemma str_app_cons (c : ascii) (s t : string) :
  String c s +:+ t = String c (s +:+ t).
Proof. reflexivity. Qed.

Lemma str_app_nil_r (s : string) : s +:+ "" = s.
Proof. induction s as [|c s IH]; [done|]. by rewrite str_app_cons, IH. Qed.

Lemma str_app_assoc (s t u : string) : (s +:+ t) +:+ u = s +:+ t +:+ u.
Proof.
  induction s as [|c s IH]; [done|]. by rewrite !str_app_cons, IH.
Qed.

Section QuotingFacts.
Import Quoting.

Lemma replace_char_app (old : ascii) (new a b : string) :
  replace_char old new (a +:+ b)
  = replace_char old new a +:+ replace_char old new b.
Proof.
  induction a as [|c a IH]; [done|]. rewrite str_app_cons. simpl.
  destruct (Ascii.eqb c old); rewrite IH; [|done].
  by rewrite str_app_assoc.
Qed.

Lemma replace_then_strip (q : ascii) (s : string) :
  q ≠ NUL →
  replace_char NUL "" (replace_char q (str1 q +:+ str1 q) s) = escape_spec q s.
Proof.
  intros Hq. remember (str1 q +:+ str1 q) as qq eqn:Hqq.
  induction s as [|c s IH]; [done|]. simpl.
  destruct (Ascii.eqb_spec c q) as [->|Hc].
  - rewrite replace_char_app, IH, Hqq. unfold str1.
    rewrite str_app_cons, str_app_nil_l. simpl.
    destruct (Ascii.eqb_spec q NUL) as [|_]; done.
  - simpl. destruct (Ascii.eqb_spec c NUL); by rewrite IH.
Qed.

Lemma escape_spec_no_nul (q : ascii) (s : string) :
  q ≠ NUL → occurs NUL (escape_spec q s) = false.
Proof.
  intros Hq. induction s as [|c s IH]; [done|]. simpl.
  destruct (Ascii.eqb_spec c NUL) as [|Hc]; [done|].
  destruct (Ascii.eqb_spec c q) as [->|Hcq]; simpl.
  - destruct (Ascii.eqb_spec q NUL); [done|]. by simpl.
  - destruct (Ascii.eqb_spec c NUL); [done|]. by simpl.
Qed.

Lemma occurs_app (c : ascii) (s t : string) :
  occurs c (s +:+ t) = occurs c s || occurs c t.
Proof. induction s as [|a s IH]; simpl; [done|]. by rewrite IH, orb_assoc. Qed.

Lemma collapse_escape_spec (q : ascii) (s : string) :
  collapse q (escape_spec q s) = Some (remove_nul s).
Proof.
  induction s as [|c s IH]; [done|]. simpl.
  destruct (Ascii.eqb_spec c NUL) as [|Hc]; [done|].
  destruct (Ascii.eqb_spec c q) as [->|Hcq]; simpl.
  - rewrite Ascii.eqb_refl, IH. done.
  - destruct (Ascii.eqb_spec c q); [done|]. by rewrite IH.
Qed.

Lemma strip_last_snoc (q : ascii) (s : string) :
  strip_last q (s +:+ str1 q) = Some s.
Proof.
  induction s as [|c s IH]; simpl.
  - by rewrite Ascii.eqb_refl.
  - destruct s as [|c' s']; simpl in *.
    + by rewrite Ascii.eqb_refl.
    + by rewrite IH.
Qed.

Lemma decode_wrap_spec (q : ascii) (s : string) :
  decode q (wrap_spec q s) = Some (remove_nul s).
Proof.
  unfold decode, wrap_spec, strip_outer. rewrite Ascii.eqb_refl, strip_last_snoc.
  simpl. apply collapse_escape_spec.
Qed.

Lemma wrap_spec_no_nul (q : ascii) (s : string) :
  q ≠ NUL → occurs NUL (wrap_spec q s) = false.
Proof.
  intros Hq. unfold wrap_spec. simpl. rewrite occurs_app, escape_spec_no_nul by done.
  simpl. destruct (Ascii.eqb_spec q NUL); done.
Qed.

(** C1. [identifier] and [literal_string] return their argument wrapped in
    the double, respectively single, quote, with every embedded quote
    doubled and every NUL removed; the result holds no NUL, its body has no
    unescaped quote (it decodes), and decoding recovers the argument without
    its NULs. *)
Theorem C1_identifier_literal_string_safe (s : string) :
  (identifier s = wrap_spec dquote s ∧ literal_string s = wrap_spec squote s)
  ∧ (occurs NUL (identifier s) = false ∧ occurs NUL (literal_string s) = false)
  ∧ (decode dquote (identifier s) = Some (remove_nul s)
     ∧ decode squote (literal_string s) = Some (remove_nul s)).
Proof.
  assert (Hi : identifier s = wrap_spec dquote s).
  { unfold identifier, wrap_spec. by rewrite replace_then_strip. }
  assert (Hl : literal_string s = wrap_spec squote s).
  { unfold literal_string, wrap_spec. by rewrite replace_then_strip. }
  rewrite Hi, Hl. repeat split.
  - by apply wrap_spec_no_nul.
  - by apply wrap_spec_no_nul.
  - apply decode_wrap_spec.
  - apply decode_wrap_spec.
Qed.

(** A name with a double quote and a NUL in it. *)
Example identifier_example :
  identifier ("a" +:+ str1 dquote +:+ str1 NUL +:+ "b")
  = str1 dquote +:+ "a" +:+ str1 dquote +:+ str1 dquote +:+ "b"
    +:+ str1 dquote.
Proof. reflexivity. Qed.

Example literal_string_example : literal_string "it's" = "'it''s'".
Proof. reflexivity. Qed.

End QuotingFacts.

(** ** Type inference *)

Section GuessTypeFacts.
Import Py GuessType.

Lemma date_loop_existsb `{Builtins} (formats : list string) (field : value) :
  date_loop formats field = existsb (strptime_returns field) formats.
Proof.
  induction formats as [|f formats IH]; [done|]. simpl.
  by destruct (strptime_returns field f).
Qed.

(** What is left of the set after the loop, whatever the order. *)
Lemma coercion_loop_members `{Builtins} (int_first : bool) (field : value) :
  let data_types :=
    coercion_loop (iteration_order int_first) (iteration_order int_first) field
  in
  member TInt data_types = int_returns field
  ∧ member TFloat data_types = float_returns field.
Proof.
  destruct int_first; simpl;
    destruct (int_returns field), (float_returns field); by simpl.
Qed.

(** C2. [_guess_type] depends on its argument and the eight date formats
    only, and decides in this order: dict or list, nested; int, int; float,
    float; coercible to int, integer; coercible to float, numeric; parsed by
    one of the date formats, timestamp; otherwise text.  With the reference
    builtins, 5 is int, 5.0 float, the text 5 integer, the text 2020-01-01
    timestamp and the text abc text. *)
Theorem C2_guess_type_decision_order
    (B : Builtins) (int_first : bool) (field : value) :
  length _DATE_FORMATS = 8
  ∧ _guess_type (iteration_order int_first) field = guess_type_spec field
  ∧ (let guess :=
       @_guess_type CPython.builtins (iteration_order int_first) in
     guess (VInt 5) = "int"
     ∧ guess (VFloat 5%float) = "float"
     ∧ guess (VStr "5") = "integer"
     ∧ guess (VStr "2020-01-01") = "timestamp"
     ∧ guess (VStr "abc") = "text").
Proof.
  split; [done|]. split.
  - unfold _guess_type.
    destruct (coercion_loop_members int_first field) as [-> ->].
    rewrite date_loop_existsb. by destruct field.
  - by destruct int_first; vm_compute.
Qed.

End GuessTypeFacts.

(** ** WHERE clauses *)

Section WhereFacts.
Import Py Quoting Where.

Lemma dict_set_fresh {A : Type} (k : string) (v : A) (d : dict A) :
  k ∉ dict_keys d → dict_set k v d = d ++ [(k, v)].
Proof.
  induction d as [|[k' v'] d IH]; simpl; [done|]. intros Hk.
  destruct (String.eqb_spec k' k) as [->|Hne].
  - exfalso. apply Hk. left.
  - rewrite IH; [done|]. intros Hin. apply Hk. by right.
Qed.

Lemma dict_of_pairs_app {A : Type} (pairs acc : list (string * A)) :
  NoDup ((acc ++ pairs).*1) →
  foldl (λ d p, dict_set p.1 p.2 d) acc pairs = acc ++ pairs.
Proof.
  revert acc. induction pairs as [|[k v] pairs IH]; intros acc Hnd; simpl.
  - by rewrite app_nil_r.
  - rewrite dict_set_fresh.
    + rewrite IH; rewrite <- app_assoc; done.
    + rewrite fmap_app in Hnd. apply NoDup_app in Hnd as (_ & Hd & _).
      intros Hin. apply (Hd k Hin). left.
Qed.

Lemma dict_of_pairs_nodup {A : Type} (pairs : list (string * A)) :
  NoDup (pairs.*1) → dict_of_pairs pairs = pairs.
Proof.
  intros Hnd. unfold dict_of_pairs, dict_merge. by rewrite dict_of_pairs_app.
Qed.

#[local] Instance value_placeholder_inj : Inj (=) (=) value_placeholder.
Proof.
  intros m n Hmn. unfold value_placeholder, fmt_nat in Hmn.
  apply (inj (String.app "value_")) in Hmn. by apply (inj pretty) in Hmn.
Qed.

Lemma value_placeholders_nodup (idx n : nat) :
  NoDup (value_placeholder <$> seq idx n).
Proof.
  apply (NoDup_fmap_2 value_placeholder), NoDup_seq.
Qed.

Section WithEnvironment.
Variable sa_column : string → string.
Variable str : value → string.
Variable should_fts_index_field_type : string → bool.
Variable default_fts_lang : string.

Local Abbreviation filter_clause := (filter_clause sa_column str).
Local Abbreviation filter_loop := (filter_loop sa_column str).
Local Abbreviation filter_clause_spec := (filter_clause_spec sa_column str).
Local Abbreviation q_loop := (q_loop should_fts_index_field_type).
Local Abbreviation _where_clauses :=
  (_where_clauses sa_column str should_fts_index_field_type default_fts_lang).

Lemma zip_fst_same_length {A B : Type} (ks : list A) (vs : list B) :
  length ks = length vs → (zip ks vs).*1 = ks.
Proof. intros Hl. apply fst_zip. lia. Qed.

Lemma is_array_type_spec (field_type : string) :
  _is_array_type field_type = array_type field_type.
Proof.
  unfold _is_array_type. destruct field_type as [|c t]; [done|].
  cbn [String.prefix array_type].
  destruct (Ascii.ascii_dec "_" c) as [<-|Hne].
  - by destruct t.
  - symmetry. apply Ascii.eqb_neq. congruence.
Qed.

Lemma filter_clause_correct (fields_types : gmap string string)
    (field field_type : string) (v : value) (idx : nat) :
  fields_types !! field = Some field_type →
  let '(c, drawn) := filter_clause field field_type v idx in
  filter_clause_spec fields_types (field, v) idx c
  ∧ placeholders_of c = value_placeholder <$> seq idx drawn.
Proof.
  intros Hft. unfold Where.filter_clause.
  destruct (is_list v && negb (_is_array_type field_type)) eqn:Hb.
  - apply andb_prop in Hb as [Hl Ha]. destruct v as [| | | | |items| |]; try done.
    simpl in *. apply negb_true_iff in Ha.
    set (ks := value_placeholder <$> seq idx (length items)).
    set (vs := if String.eqb field_type "text"
               then (λ x, VStr (str x)) <$> items else items).
    assert (Hlen : length ks = length vs).
    { unfold ks, vs. destruct (String.eqb field_type "text");
        by rewrite ?length_fmap, ?length_seq. }
    rewrite dict_of_pairs_nodup
      by (rewrite zip_fst_same_length by done; apply value_placeholders_nodup).
    split.
    + exists field_type. split; [done|]. simpl.
      rewrite <- is_array_type_spec, Ha.
      unfold in_clause, compared, vs.
      destruct (String.eqb field_type "text"); [done|].
      by rewrite (list_fmap_id items : (λ v, v) <$> items = items).
    + simpl. unfold dict_keys. by rewrite zip_fst_same_length.
  - split; [|done]. exists field_type. split; [done|]. simpl.
    destruct v; try done. simpl in Hb. apply negb_false_iff in Hb.
    by rewrite <- is_array_type_spec, Hb.
Qed.

(** The placeholders of the filter clauses are the counter values drawn, in
    order and without a gap. *)
Lemma filter_loop_placeholders (fields_types : gmap string string)
    (fs : dict value) (idx : nat) :
  ∃ n, filter_loop fs fields_types idx ≫= placeholders_of
       = value_placeholder <$> seq idx n.
Proof.
  revert idx. induction fs as [|[field v] fs IH]; intros idx;
    cbn [Where.filter_loop].
  - by exists 0.
  - destruct (fields_types !! field) as [field_type|] eqn:Hft; [|apply IH].
    pose proof (filter_clause_correct fields_types field field_type v idx Hft) as Hc.
    destruct (filter_clause field field_type v idx) as [c drawn].
    destruct Hc as [_ Hp]. destruct (IH (idx + drawn)) as [n Hn].
    exists (drawn + n). by rewrite bind_cons, Hp, Hn, seq_app, fmap_app.
Qed.

Lemma filter_loop_spec (fields_types : gmap string string)
    (fs : dict value) (idx : nat) :
  Forall2 (λ pair c, ∃ i, filter_clause_spec fields_types pair i c)
          (List.filter (known fields_types) fs)
          (filter_loop fs fields_types idx).
Proof.
  revert idx. induction fs as [|[field v] fs IH]; intros idx; simpl; [done|].
  unfold known at 1. simpl.
  destruct (fields_types !! field) as [field_type|] eqn:Hft.
  - rewrite bool_decide_eq_true_2 by done.
    pose proof (filter_clause_correct fields_types field field_type v idx Hft) as Hc.
    destruct (filter_clause field field_type v idx) as [c drawn].
    constructor; [|apply IH]. exists idx. apply Hc.
  - rewrite bool_decide_eq_false_2 by (by intros [? ?]). apply IH.
Qed.

Lemma q_loop_bare (fields_types : gmap string string) (qs : dict value)
    (lang : string) :
  q_loop qs fields_types lang ≫= placeholders_of = [].
Proof.
  induction qs as [|[field v] qs IH]; cbn [Where.q_loop]; [done|].
  destruct (fields_types !! field); [|done].
  rewrite bind_app, bind_cons, IH.
  by destruct (should_fts_index_field_type _).
Qed.

Lemma fts_clauses_bare (data_dict : request) (fields_types : gmap string string) :
  (q_clauses should_fts_index_field_type default_fts_lang data_dict fields_types
   ++ full_text_clauses data_dict) ≫= placeholders_of = [].
Proof.
  rewrite bind_app. unfold q_clauses, full_text_clauses.
  destruct (truthy (full_text data_dict)), (truthy (q data_dict));
    simpl; try done; destruct (q data_dict); simpl; try done;
    by rewrite q_loop_bare.
Qed.

Lemma filter_loop_skips_unknown (fields_types : gmap string string)
    (fs : dict value) (idx : nat) :
  filter_loop (List.filter (known fields_types) fs) fields_types idx
  = filter_loop fs fields_types idx.
Proof.
  revert idx. induction fs as [|[field v] fs IH]; intros idx; simpl; [done|].
  unfold known at 1. simpl.
  destruct (fields_types !! field) as [field_type|] eqn:Hft.
  - rewrite bool_decide_eq_true_2 by done. simpl. rewrite Hft.
    destruct (filter_clause field field_type v idx). by rewrite IH.
  - rewrite bool_decide_eq_false_2 by (by intros [? ?]). apply IH.
Qed.

Lemma q_loop_skips_unknown (fields_types : gmap string string)
    (qs : dict value) (lang : string) :
  q_loop (List.filter (known fields_types) qs) fields_types lang
  = q_loop qs fields_types lang.
Proof.
  induction qs as [|[field v] qs IH]; simpl; [done|].
  unfold known at 1. simpl.
  destruct (fields_types !! field) as [ftyp|] eqn:Hft.
  - rewrite bool_decide_eq_true_2 by done. simpl. by rewrite Hft, IH.
  - rewrite bool_decide_eq_false_2 by (by intros [? ?]). apply IH.
Qed.

Lemma q_loop_nil_empty (fields_types : gmap string string)
    (qs : dict value) (lang : string) :
  List.filter (known fields_types) qs = [] → q_loop qs fields_types lang = [].
Proof. intros Hq. by rewrite <- q_loop_skips_unknown, Hq. Qed.

(** C3. For each filter pair on a known field, in order, [_where_clauses]
    emits a [field in (...)] clause when the value is a list and the column
    is not an array (its type name does not start with an underscore), and a
    [field = value] clause otherwise; on a text column the compared values
    are converted with [str] first; every value is bound under its own
    placeholder, and no placeholder name occurs twice among all the clauses
    of the call. *)
Theorem C3_where_clauses_filters
    (data_dict : request) (fields_types : gmap string string) :
  ∃ filter_part,
    _where_clauses data_dict fields_types
    = filter_part
      ++ q_clauses should_fts_index_field_type default_fts_lang
           data_dict fields_types
      ++ full_text_clauses data_dict
    ∧ Forall2 (λ pair c, ∃ idx, filter_clause_spec fields_types pair idx c)
        (List.filter (known fields_types) (filters data_dict)) filter_part
    ∧ NoDup (_where_clauses data_dict fields_types ≫= placeholders_of).
Proof.
  exists (filter_loop (filters data_dict) fields_types 0).
  split; [done|]. split; [apply filter_loop_spec|].
  unfold Where._where_clauses. rewrite bind_app, fts_clauses_bare, app_nil_r.
  destruct (filter_loop_placeholders fields_types (filters data_dict) 0)
    as [n ->].
  apply value_placeholders_nodup.
Qed.

(** C9. Filter pairs and per-field [q] entries that name an unknown field
    are skipped: [_where_clauses] returns (it is a total function, no error)
    exactly what it returns for the request without them, so the WHERE text
    and the bound values are those of the request without them. *)
Theorem C9_unknown_fields_skipped
    (data_dict : request) (fields_types : gmap string string) :
  _where_clauses data_dict fields_types
  = _where_clauses (without_unknown fields_types data_dict) fields_types
  ∧ _where (_where_clauses data_dict fields_types)
    = _where (_where_clauses (without_unknown fields_types data_dict)
                fields_types).
Proof.
  assert (He : _where_clauses data_dict fields_types
    = _where_clauses (without_unknown fields_types data_dict) fields_types);
    [|by rewrite <- He].
  unfold Where._where_clauses, q_clauses, full_text_clauses, without_unknown.
  cbn [filters q full_text language]. rewrite filter_loop_skips_unknown.
  do 2 f_equal. destruct (q data_dict) as [| | | | | |qs|]; try done.
  destruct (truthy (VDict (List.filter (known fields_types) qs))) eqn:Ht.
  - rewrite q_loop_skips_unknown. by destruct qs.
  - assert (Hnil : List.filter (known fields_types) qs = []).
    { by destruct (List.filter (known fields_types) qs). }
    rewrite (q_loop_nil_empty _ _ _ Hnil). by destruct (truthy (VDict qs)).
Qed.

End WithEnvironment.

(** A list on a text column, an unknown field, a scalar on an integer
    column, and a list on an array column, which is compared as a whole. *)
Example where_clauses_example :
  _where_clauses (λ field, field)
    (λ v, match v with VInt n => pretty n | VStr s => s | _ => "" end)
    (λ _, true) "english"
    {| filters := [("a", VList [VInt 1; VInt 2]); ("zz", VInt 5);
                   ("n", VInt 3); ("tags", VList [VStr "x"; VStr "y"])];
       q := VNone; full_text := VNone; language := None |}
    (list_to_map [("a", "text"); ("n", "int4"); ("tags", "_text")])
  = [Bound "a in (:value_0,:value_1)"
       [("value_0", VStr "1"); ("value_1", VStr "2")];
     Bound "n = :value_2" [("value_2", VInt 3)];
     Bound "tags = :value_3" [("value_3", VList [VStr "x"; VStr "y"])]].
Proof. vm_compute. reflexivity. Qed.

End WhereFacts.

(** ** Write engine *)

Section WriteFacts.
Import Py Quoting Db Write.

Variable DB : Type.
Variable engine_execute : DB → statement → dbapi_error + DB * cursor_result.
Variable json_dumps : value → string.
Variable str : value → string.
Variable _programming_error_summary : dbapi_error → string.
Context `{SetOrder}.

Local Abbreviation M := (Db.M DB).
Local Abbreviation execute := (Db.execute DB engine_execute).
Local Abbreviation keeps := (keeps_transaction DB).
Local Abbreviation _get_fields := (Write._get_fields DB engine_execute).
Local Abbreviation _get_unique_key := (Write._get_unique_key DB engine_execute).
Local Abbreviation write_record :=
  (Write.write_record DB engine_execute json_dumps str
     _programming_error_summary).
Local Abbreviation prepare := (Write.prepare json_dumps).
Local Abbreviation upsert_data :=
  (Write.upsert_data DB engine_execute json_dumps str
     _programming_error_summary).
Local Abbreviation upsert_data_in_place :=
  (Write.upsert_data_in_place DB engine_execute json_dumps str
     _programming_error_summary).
Local Abbreviation upsert :=
  (Write.upsert DB engine_execute json_dumps str _programming_error_summary).
Local Abbreviation reaches :=
  (Write.reaches DB engine_execute json_dumps str _programming_error_summary).

Lemma keeps_ret {A : Type} (x : A) : keeps (mret x).
Proof. by intros c. Qed.

Lemma keeps_raise {A : Type} (e : exn) : keeps (@raise DB A e).
Proof. by intros c. Qed.

Lemma keeps_bind {A B : Type} (m : M A) (k : A → M B) :
  keeps m → (∀ x, keeps (k x)) → keeps (m ≫= k).
Proof.
  intros Hm Hk c. unfold mbind, M_bind, bind.
  destruct (Hm c) as (H1 & H2 & H3). destruct (m c) as [[e|x] c']; [done|].
  destruct (Hk x c') as (H4 & H5 & H6). simpl in *.
  by rewrite H4, H5, H6.
Qed.

Lemma keeps_try_except {A : Type} (m : M A) (h : exn → M A) :
  keeps m → (∀ e, keeps (h e)) → keeps (try_except m h).
Proof.
  intros Hm Hh c. unfold try_except.
  destruct (Hm c) as (H1 & H2 & H3). destruct (m c) as [[e|x] c']; [|done].
  destruct (Hh e c') as (H4 & H5 & H6). simpl in *.
  by rewrite H4, H5, H6.
Qed.

Lemma keeps_execute (stmt : statement) : keeps (execute stmt).
Proof.
  intros c. unfold Db.execute.
  by destruct (engine_execute (current c) stmt) as [e|[db r]].
Qed.

Lemma keeps_for_each {A : Type} (body : nat → A → M unit) (num : nat)
    (l : list A) :
  (∀ n x, keeps (body n x)) → keeps (for_each body num l).
Proof.
  intros Hb. revert num. induction l as [|x l IH]; intros num; simpl.
  - apply (keeps_ret tt).
  - apply (keeps_bind (body num x)); [apply Hb | intros _; apply IH].
Qed.

Lemma keeps_records_error (num : Z) (e : exn) :
  keeps (records_error DB _programming_error_summary num e).
Proof.
  destruct e as [ed|msg|err|name]; simpl; try apply keeps_raise.
  destruct (isinstance_DatabaseError err); apply keeps_raise.
Qed.

Lemma keeps_get_fields (res_id : string) : keeps (_get_fields res_id).
Proof.
  apply keeps_bind; [apply keeps_execute | intros; apply keeps_ret].
Qed.

Lemma keeps_get_unique_key (res_id : string) : keeps (_get_unique_key res_id).
Proof.
  apply keeps_bind; [apply keeps_execute | intros; apply keeps_ret].
Qed.

Lemma keeps_write_record (res_id meth : string) (fields : list field)
    (unique_keys : list string) (num : nat) (r : record) :
  keeps (write_record res_id meth fields unique_keys num r).
Proof.
  unfold Write.write_record.
  destruct (prepare fields unique_keys r) as [e|p]; [apply keeps_raise|].
  destruct (String.eqb meth _UPDATE).
  - apply keeps_bind.
    + apply keeps_try_except; [apply keeps_execute|apply keeps_records_error].
    + intros res. case_bool_decide; [apply keeps_ret | apply keeps_raise].
  - destruct (String.eqb meth _UPSERT); [|apply keeps_ret].
    apply keeps_bind; [|intros; apply keeps_ret].
    apply keeps_try_except; [|apply keeps_records_error].
    apply keeps_bind; [apply keeps_execute | intros; apply keeps_execute].
Qed.

Lemma keeps_upsert_data_in_place (data_dict : request) :
  keeps (upsert_data_in_place data_dict).
Proof.
  unfold Write.upsert_data_in_place.
  destruct (records data_dict) as [[|r rs]|]; try apply keeps_ret.
  apply keeps_bind; [apply keeps_get_fields|]. intros fields.
  destruct (String.eqb _ ""); [apply keeps_ret|].
  destruct (String.eqb _ _INSERT).
  - destruct (insert_rows _ _ _ _ _) as [e|rows]; [apply keeps_raise|].
    apply keeps_bind; [|intros; apply keeps_ret].
    apply keeps_try_except; [apply keeps_execute|apply keeps_records_error].
  - destruct (_ || _); [|apply keeps_ret].
    apply keeps_bind; [apply keeps_get_unique_key|]. intros uks.
    apply keeps_bind; [|intros; apply keeps_ret].
    apply keeps_for_each. intros. apply keeps_write_record.
Qed.

Lemma keeps_upsert_data (data_dict : request) : keeps (upsert_data data_dict).
Proof.
  apply keeps_bind; [apply keeps_upsert_data_in_place|].
  intros; apply keeps_ret.
Qed.

(** [upsert_data] is its body, less what the body returns. *)
Lemma upsert_data_result (data_dict : request) (c : connection DB) :
  upsert_data data_dict c
  = match upsert_data_in_place data_dict c with
    | (inr _, c') => (inr tt, c')
    | (inl e, c') => (inl e, c')
    end.
Proof.
  unfold Write.upsert_data, mbind, M_bind, bind.
  by destruct (upsert_data_in_place data_dict c) as [[e|d] c'].
Qed.

(** The loop stops at the first record whose body raises. *)
Lemma for_each_app {A : Type} (body : nat → A → M unit) (num : nat)
    (pre post : list A) (x : A) (c c' : connection DB) :
  for_each body num pre c = (inr tt, c') →
  for_each body num (pre ++ x :: post) c
  = (body (num + length pre) x
       ≫= λ _, for_each body (S (num + length pre)) post) c'.
Proof.
  revert num c. induction pre as [|y pre IH]; intros num c Hpre; simpl in *.
  - injection Hpre as <-. by rewrite Nat.add_0_r.
  - unfold bind in *. destruct (body num y c) as [[e|[]] c1]; [done|].
    rewrite (IH _ _ Hpre). by replace (S num + length pre) with
      (num + S (length pre)) by lia.
Qed.

Lemma identifier_nonempty (s : string) : identifier s ≠ "".
Proof. done. Qed.

Lemma sql_columns_nonempty (names : list string) :
  names ≠ [] → String.eqb (join ", " (identifier <$> names)) "" = false.
Proof.
  intros Hn. apply String.eqb_neq. destruct names as [|a [|b names]]; done.
Qed.

(** Where the loop of [upsert_data] stands once it has gone through [pre]. *)
Lemma upsert_data_in_place_at (data_dict : request) (fields : list field)
    (unique_keys : list string) (pre post : list record) (r : record)
    (c1 c2 c3 c4 : connection DB) :
  is_update_or_upsert data_dict →
  records data_dict = Some (pre ++ r :: post) →
  fields ≠ [] →
  _get_fields (resource_id data_dict) c1 = (inr fields, c2) →
  _get_unique_key (resource_id data_dict) c2 = (inr unique_keys, c3) →
  for_each (write_record (resource_id data_dict)
              (default _UPSERT (method data_dict)) fields unique_keys)
           0 pre c3 = (inr tt, c4) →
  upsert_data_in_place data_dict c1
  = ((write_record (resource_id data_dict)
        (default _UPSERT (method data_dict)) fields unique_keys (length pre) r
      ≫= λ _, for_each (write_record (resource_id data_dict)
                   (default _UPSERT (method data_dict)) fields unique_keys)
                (S (length pre)) post)
     ≫= λ _, mret (with_records data_dict
                     (marshal_record json_dumps fields
                      <$> pre ++ r :: post))) c4.
Proof.
  intros Hm Hrs Hf Hgf Hgu Hpre. unfold Write.upsert_data_in_place.
  remember (pre ++ r :: post) as rs eqn:Heq.
  rewrite Hrs. destruct rs as [|r' rs']; [by destruct pre|].
  unfold mbind at 1, M_bind at 1, bind at 1. rewrite Hgf.
  rewrite sql_columns_nonempty by (by destruct fields).
  assert (Hins : String.eqb (default _UPSERT (method data_dict)) _INSERT = false).
  { apply String.eqb_neq. by destruct Hm as [-> | ->]. }
  assert (Hupd : String.eqb (default _UPSERT (method data_dict)) _UPDATE
                 || String.eqb (default _UPSERT (method data_dict)) _UPSERT
                 = true).
  { by destruct Hm as [-> | ->]. }
  rewrite Hins, Hupd.
  unfold mbind at 1, M_bind at 1, bind at 1. rewrite Hgu.
  unfold mbind at 1, M_bind at 1, bind at 1.
  rewrite Heq at 1. rewrite (for_each_app _ _ _ _ _ _ _ Hpre).
  by unfold mbind, M_bind, bind.
Qed.

Lemma upsert_data_at (data_dict : request) (fields : list field)
    (unique_keys : list string) (pre post : list record) (r : record)
    (c1 c2 c3 c4 : connection DB) :
  is_update_or_upsert data_dict →
  records data_dict = Some (pre ++ r :: post) →
  fields ≠ [] →
  _get_fields (resource_id data_dict) c1 = (inr fields, c2) →
  _get_unique_key (resource_id data_dict) c2 = (inr unique_keys, c3) →
  for_each (write_record (resource_id data_dict)
              (default _UPSERT (method data_dict)) fields unique_keys)
           0 pre c3 = (inr tt, c4) →
  upsert_data data_dict c1
  = (write_record (resource_id data_dict)
       (default _UPSERT (method data_dict)) fields unique_keys (length pre) r
     ≫= λ _, for_each (write_record (resource_id data_dict)
                  (default _UPSERT (method data_dict)) fields unique_keys)
               (S (length pre)) post) c4.
Proof.
  intros Hm Hrs Hf Hgf Hgu Hpre.
  rewrite upsert_data_result,
    (upsert_data_in_place_at _ _ _ _ _ _ _ _ _ _ Hm Hrs Hf Hgf Hgu Hpre).
  unfold mbind, M_bind, bind.
  destruct (write_record _ _ _ _ _ _ c4) as [[e|[]] c5]; [done|].
  by destruct (for_each _ _ _ c5) as [[e|[]] c6].
Qed.

(** A validation error raised by the body of the loop leaves [upsert] with
    that error, after a rollback. *)
Lemma upsert_rejects (timeout : N) (data_dict : request) (db : DB)
    (fields : list field) (unique_keys : list string)
    (pre post : list record) (r : record) (c4 c5 : connection DB)
    (error_dict : dict value) :
  is_update_or_upsert data_dict →
  records data_dict = Some (pre ++ r :: post) →
  reaches timeout data_dict (connect db) fields unique_keys pre c4 →
  write_record (resource_id data_dict) (default _UPSERT (method data_dict))
    fields unique_keys (length pre) r c4
  = (inl (ValidationError error_dict), c5) →
  ∃ c', upsert timeout data_dict (connect db)
        = (inl (ValidationError error_dict), c')
        ∧ discarded DB db c'.
Proof.
  intros Hm Hrs (r0 & c1 & c2 & c3 & Hset & Hgf & Hf & Hgu & Hpre) Hbody.
  pose proof (upsert_data_at _ _ _ _ _ _ _ _ _ _ Hm Hrs Hf Hgf Hgu Hpre) as Hud.
  unfold mbind at 1, M_bind at 1, bind at 1 in Hud. rewrite Hbody in Hud.
  destruct (keeps_execute
    (Text ("SET LOCAL statement_timeout TO " +:+ pretty timeout) NoParams)
    (begin (connect db))) as (Hc1 & Ht1 & Hx1).
  rewrite Hset in Hc1, Ht1, Hx1. simpl in Hc1, Ht1, Hx1.
  destruct (keeps_upsert_data data_dict c1) as (Hc5 & Ht5 & Hx5).
  rewrite Hud in Hc5, Ht5, Hx5. simpl in Hc5, Ht5, Hx5.
  pose proof (upsert_data_in_place_at _ _ _ _ _ _ _ _ _ _
                Hm Hrs Hf Hgf Hgu Hpre) as Hip.
  unfold mbind at 1 2, M_bind at 1 2, bind at 1 2 in Hip.
  rewrite Hbody in Hip.
  eexists. split.
  - unfold Write.upsert, try_finally, try_except, lift.
    unfold mbind, M_bind, bind. rewrite Hset, Hip. simpl. reflexivity.
  - unfold discarded, close, rollback. simpl. by rewrite Hc5, Hc1.
Qed.

Lemma prepare_plan (fields : list field) (unique_keys : list string)
    (r : record) (p : plan) :
  prepare fields unique_keys r = inr p →
  p = make_plan fields unique_keys (marshal_record json_dumps fields r).
Proof.
  unfold Write.prepare. destruct (check_key unique_keys r); [done|].
  destruct (List.filter _ _); [|done]. by intros [= <-].
Qed.

(** The loop body of the update method, once the record is prepared and the
    engine has answered its UPDATE. *)
Lemma write_record_update (res_id : string) (fields : list field)
    (unique_keys : list string) (num : nat) (r : record) (p : plan)
    (c : connection DB) (db' : DB) (res : cursor_result) :
  prepare fields unique_keys r = inr p →
  engine_execute (current c)
    (Text (update_sql res_id p) (One (all_values p))) = inr (db', res) →
  ∃ c', write_record res_id _UPDATE fields unique_keys num r c
        = (if bool_decide (rowcount res = 1%Z) then inr tt
           else inl (key_not_found str p), c').
Proof.
  intros Hp Hex. unfold Write.write_record. rewrite Hp. simpl.
  unfold mbind, M_bind, bind, try_except, Db.execute. rewrite Hex.
  case_bool_decide; by eexists.
Qed.

(** C4. In an update call, when the UPDATE of a record (matched on its
    resolved key, the explicit _id or the values of the unique-key columns)
    reports a row count other than one, zero in particular, the call raises
    the validation error that names that key and nothing of the call
    persists: the transaction is rolled back.  A row count of exactly one
    lets the record pass.  A row count above one has no check of its own: it
    meets the same test and the same error as zero. *)
Theorem C4_update_miss_rolls_back (timeout : N) (data_dict : request)
    (db : DB) (fields : list field) (unique_keys : list string)
    (pre post : list record) (r : record) (c4 : connection DB) (p : plan)
    (db' : DB) (res : cursor_result) :
  method data_dict = Some _UPDATE →
  records data_dict = Some (pre ++ r :: post) →
  reaches timeout data_dict (connect db) fields unique_keys pre c4 →
  prepare fields unique_keys r = inr p →
  engine_execute (current c4)
    (Text (update_sql (resource_id data_dict) p) (One (all_values p)))
  = inr (db', res) →
  (rowcount res = 1%Z →
     (write_record (resource_id data_dict) _UPDATE fields unique_keys
        (length pre) r c4).1 = inr tt)
  ∧ (rowcount res ≠ 1%Z →
     ∃ c', upsert timeout data_dict (connect db)
           = (inl (error1 "key"
                     ("key " +:+ quoted (str (VDict (unique_values p)))
                      +:+ " not found")), c')
           ∧ discarded DB db c')
  ∧ (unique_values p).*2
    = (let r' := marshal_record json_dumps fields r in
       if dict_has "_id" r' then [get "_id" r']
       else (λ k, get k r') <$> unique_keys).
Proof.
  intros Hm Hrs Hreach Hp Hex.
  destruct (write_record_update (resource_id data_dict) fields unique_keys
              (length pre) r p c4 db' res Hp Hex) as [c5 Hw].
  split; [|split].
  - intros H1. rewrite Hw. by rewrite bool_decide_eq_true_2.
  - intros H1. rewrite bool_decide_eq_false_2 in Hw by done.
    assert (Hmeth : default _UPSERT (method data_dict) = _UPDATE)
      by (by rewrite Hm).
    apply (upsert_rejects timeout data_dict db fields unique_keys pre post r
             c4 c5); try done.
    + by left.
    + by rewrite Hmeth.
  - rewrite (prepare_plan _ _ _ _ Hp). unfold make_plan.
    destruct (dict_has "_id" _); [done|]. simpl.
    rewrite dict_of_pairs_nodup.
    + apply snd_zip. by rewrite !length_fmap, length_seq.
    + rewrite fst_zip by (by rewrite !length_fmap, length_seq).
      apply (NoDup_fmap_2 val_placeholder), NoDup_seq.
Qed.

(** C5, as the code has it.  In an update or upsert call on a resource that
    has columns, a record without an _id that the loop gets to is rejected
    with a validation error, and the call with it (nothing persists): when
    the resource has no unique key, the error asks for a unique key; when
    the record omits columns of the unique key, the error names them. *)
Theorem C5_key_required (timeout : N) (data_dict : request)
    (db : DB) (fields : list field) (unique_keys : list string)
    (pre post : list record) (r : record) (c4 : connection DB) :
  is_update_or_upsert data_dict →
  records data_dict = Some (pre ++ r :: post) →
  reaches timeout data_dict (connect db) fields unique_keys pre c4 →
  dict_has "_id" r = false →
  (unique_keys = [] →
     ∃ c', upsert timeout data_dict (connect db)
           = (inl (error1 "table"
                     "unique key must be passed for update/upsert"), c')
           ∧ discarded DB db c')
  ∧ (∀ missing_fields,
       missing_fields = List.filter (λ f, negb (dict_has f r)) unique_keys →
       missing_fields ≠ [] →
       ∃ c', upsert timeout data_dict (connect db)
             = (inl (error1 "key"
                       ("fields " +:+ quoted (join ", " missing_fields)
                        +:+ " are missing" +:+ newline
                        +:+ "                            but needed as key")),
                c')
             ∧ discarded DB db c').
Proof.
  intros Hm Hrs Hreach Hid. split.
  - intros ->.
    apply (upsert_rejects timeout data_dict db fields [] pre post r c4 c4);
      try done.
    unfold Write.write_record, Write.prepare, check_key. by rewrite Hid.
  - intros missing -> Hmiss.
    apply (upsert_rejects timeout data_dict db fields unique_keys pre post r
             c4 c4); try done.
    unfold Write.write_record, Write.prepare, check_key. rewrite Hid.
    destruct unique_keys as [|k ks]; [done|].
    rewrite bool_decide_eq_false_2 by done. simpl andb. cbv iota.
    by destruct (List.filter _ (k :: ks)).
Qed.

(** C10, as the code has it.  A call whose records are missing or empty
    returns at once: no statement is executed, the connection is left as it
    was, no error.  A call on a resource without columns executes one
    statement, the column lookup of [_get_fields], and then returns without
    an INSERT or UPDATE and without an error. *)
Theorem C10_early_returns (data_dict : request) (c : connection DB)
    (r : record) (rs : list record) (db' : DB) (res : cursor_result) :
  ((records data_dict = None ∨ records data_dict = Some []) →
     upsert_data data_dict c = (inr tt, c))
  ∧ (records data_dict = Some (r :: rs) →
     engine_execute (current c) (SelectAllLimit1 (resource_id data_dict))
     = inr (db', res) →
     Forall (λ col, String.prefix "_" col.1 = true) (description res) →
     ∃ c', upsert_data data_dict c = (inr tt, c')
           ∧ executed c' = executed c ++ [SelectAllLimit1 (resource_id data_dict)]
           ∧ committed c' = committed c
           ∧ current c' = db').
Proof.
  split.
  - unfold Write.upsert_data, Write.upsert_data_in_place.
    by intros [-> | ->].
  - intros Hrs Hex Hcols.
    unfold Write.upsert_data, Write.upsert_data_in_place. rewrite Hrs.
    unfold Write._get_fields, mbind, M_bind, bind, Db.execute. rewrite Hex.
    assert (Hnone : omap (λ col : string * string,
                            if String.prefix "_" col.1 then None
                            else Some {| id := col.1; type := col.2 |})
                         (description res) = []).
    { induction Hcols as [|col cols Hc _ IH]; [done|]. simpl.
      by rewrite Hc. }
    simpl. rewrite Hnone. simpl. by eexists.
Qed.

End WriteFacts.

(** ** The write path on the small engine *)

Section WriteExamples.
Import Py Quoting Db Write.
#[local] Existing Instance Toy.insertion_order.

(** An update of the row with _id 1 on a resource where nothing matches. *)
Lemma C4_update_miss_witness :
  ∃ c', Toy.upsert 60000
          (Toy.request_of "update" [[("_id", VInt 1); ("a", VStr "x")]])
          (connect Toy.empty_resource)
        = (inl (error1 "key" ("key " +:+ quoted "{'val_1': 1}"
                              +:+ " not found")), c')
        ∧ discarded Toy.table Toy.empty_resource c'.
Proof.
  edestruct (C4_update_miss_rolls_back Toy.table Toy.engine_execute
               Toy.str Toy.str Toy.summary 60000
               (Toy.request_of "update" [[("_id", VInt 1); ("a", VStr "x")]])
               Toy.empty_resource [{| id := "a"; type := "text" |}] []
               [] [] [("_id", VInt 1); ("a", VStr "x")])
    as (_ & Hmiss & _).
  - reflexivity.
  - reflexivity.
  - do 4 eexists. split; [reflexivity|]. split; [reflexivity|].
    split; [discriminate|]. split; reflexivity.
  - reflexivity.
  - reflexivity.
  - apply Hmiss. discriminate.
Defined.

(** An upsert of a record without _id on a resource without unique key. *)
Lemma C5_key_required_witness :
  ∃ c', Toy.upsert 60000 (Toy.request_of "upsert" [[("a", VStr "x")]])
          (connect Toy.empty_resource)
        = (inl (error1 "table"
                  "unique key must be passed for update/upsert"), c')
        ∧ discarded Toy.table Toy.empty_resource c'.
Proof.
  edestruct (C5_key_required Toy.table Toy.engine_execute
               Toy.str Toy.str Toy.summary 60000
               (Toy.request_of "upsert" [[("a", VStr "x")]])
               Toy.empty_resource [{| id := "a"; type := "text" |}] []
               [] [] [("a", VStr "x")])
    as (Hnokey & _).
  - by right.
  - reflexivity.
  - do 4 eexists. split; [reflexivity|]. split; [reflexivity|].
    split; [discriminate|]. split; reflexivity.
  - reflexivity.
  - by apply Hnokey.
Defined.

(** C5 as stated fails on a resource without columns: the record has no
    _id, the resource no unique key, and the call returns without an
    error. *)
Lemma C5_no_columns_accepts_record :
  let r := [("a", VStr "x")] in
  let call := Toy.upsert 60000 (Toy.request_of "upsert" [r])
                (connect Toy.no_columns) in
  dict_has "_id" r = false
  ∧ Toy.unique Toy.no_columns = []
  ∧ call.1 = inr (Toy.request_of "upsert" [r])
  ∧ ¬ (∃ error_dict, call.1 = inl (ValidationError error_dict)).
Proof. repeat split. by intros [error_dict Herr]. Qed.

(** An upsert that gives one of the two columns of the unique key. *)
Example upsert_missing_key_column :
  (Toy.upsert 60000 (Toy.request_of "upsert" [[("a", VStr "x")]])
     (connect Toy.keyed_resource)).1
  = inl (error1 "key" ("fields " +:+ quoted "b" +:+ " are missing"
                       +:+ newline
                       +:+ "                            but needed as key")).
Proof. reflexivity. Qed.

(** An update that matches one row is committed. *)
Example update_hit_commits :
  let c' := (Toy.upsert 60000
               (Toy.request_of "update" [[("_id", VInt 1); ("a", VStr "x")]])
               (connect Toy.keyed_resource)).2 in
  Toy.version (committed c') = 1 ∧ in_transaction c' = false.
Proof. split; reflexivity. Qed.

(** An insert on a resource that has the system columns only. *)
Lemma C10_early_returns_witness :
  ∃ c', Toy.upsert_data (Toy.request_of "insert" [[("a", VStr "x")]])
          (connect Toy.no_columns) = (inr (), c')
        ∧ executed c' = [SelectAllLimit1 "res"]
        ∧ committed c' = Toy.no_columns
        ∧ current c' = Toy.no_columns.
Proof.
  edestruct (C10_early_returns Toy.table Toy.engine_execute
               Toy.str Toy.str Toy.summary
               (Toy.request_of "insert" [[("a", VStr "x")]])
               (connect Toy.no_columns) [("a", VStr "x")] [])
    as [_ Hcols].
  apply Hcols.
  - reflexivity.
  - reflexivity.
  - repeat constructor.
Defined.

(** C10 as stated fails for a resource without columns: the call has
    executed a statement when it returns. *)
Lemma C10_no_columns_executes_a_statement :
  let c := connect Toy.no_columns in
  let run := Toy.upsert_data (Toy.request_of "insert" [[("a", VStr "x")]]) c in
  run.1 = inr ()
  ∧ executed run.2 = [SelectAllLimit1 "res"]
  ∧ ¬ (executed run.2 = executed c).
Proof. repeat split; [reflexivity..|discriminate]. Qed.

End WriteExamples.

(** ** Totals *)

Section SearchFacts.
Import Py Quoting Db Where Search.

Variable DB : Type.
Variable engine_execute : DB → statement → dbapi_error + DB * cursor_result.
Variable is_single_statement : string → bool.

Local Abbreviation execute := (Db.execute DB engine_execute).
Local Abbreviation search_total :=
  (Search.search_total DB engine_execute is_single_statement).

Lemma join_cons_nonempty (sep x : string) (l : list string) :
  x ≠ "" → join sep (x :: l) ≠ "".
Proof. destruct x; [done|]. by destruct l. Qed.

(** The WHERE text is empty exactly when there is no clause. *)
Lemma where_clause_nonempty (clauses : list clause) :
  nonempty (_where clauses).1 = negb (bool_decide (clauses = [])).
Proof.
  destruct clauses as [|c clauses]; [done|].
  unfold _where. cbn [fst]. rewrite fmap_cons.
  destruct (String.eqb_spec
              (join " AND "
                 (("(" +:+ match c with Bound s _ | Bare s => s end +:+ ")")
                  :: ((λ c0, "(" +:+ match c0 with
                                     | Bound s _ | Bare s => s
                                     end +:+ ")") <$> clauses))) "")
    as [He|Hne].
  - by apply join_cons_nonempty in He.
  - done.
Qed.

(** C7. When a total is asked for, the planner estimate (the [reltuples]
    of the resource in [pg_class]) is the total, and the total is flagged
    as estimated, only if a threshold is given, there is no clause and no
    distinct, and the estimate is greater than or equal to the threshold;
    the COUNT is then not executed.  In every other case, an estimate below
    the threshold included, the total is the exact count, by the SELECT of
    the count over the filtered query that is written out here, and the flag
    is false.  The estimate is asked for only when a threshold is
    given and there is no clause and no distinct. *)
Theorem C7_total_estimation_gating (data_dict : request) (query_dict : query)
    (c : connection DB) (estimate exact : value)
    (estimate_result count_result : cursor_result)
    (more1 more2 : list value) (more3 more4 : list (list value)) :
  let analyze_stmt :=
    Text (Write.newline
          +:+ "            SELECT reltuples::BIGINT AS approximate_row_count"
          +:+ Write.newline +:+ "            FROM pg_class"
          +:+ Write.newline +:+ "            WHERE relname=:resource;"
          +:+ Write.newline +:+ "            ")
         (One [("resource", VStr (resource_id data_dict))]) in
  let count_sql :=
    "SELECT count(*) FROM ("
    +:+ Write.newline +:+ "                SELECT "
    +:+ (if truthy (distinct query_dict) then "DISTINCT" else "") +:+ " "
    +:+ (if String.eqb (records_format data_dict) "lists"
         then join " || ',' || " (select query_dict)
         else join ", " (select query_dict))
    +:+ Write.newline +:+ "                FROM " +:+ str1 dquote
    +:+ resource_id data_dict +:+ str1 dquote +:+ " "
    +:+ ts_query query_dict +:+ " " +:+ (_where (where_ query_dict)).1
    +:+ ") as t;" in
  let count_stmt :=
    Text count_sql
         (One (foldl dict_merge [] (_where (where_ query_dict)).2)) in
  include_total data_dict = true →
  engine_execute (current c) analyze_stmt = inr (current c, estimate_result) →
  rows estimate_result = (estimate :: more1) :: more3 →
  estimate = VNone ∨ (∃ n, estimate = VInt n) →
  is_single_statement count_sql = true →
  engine_execute (current c) count_stmt = inr (current c, count_result) →
  rows count_result = (exact :: more2) :: more4 →
  let result := search_total data_dict query_dict c in
  match total_estimation_threshold data_dict with
  | Some threshold =>
      if bool_decide (where_ query_dict = [])
         && negb (truthy (distinct query_dict))
      then
        match estimate with
        | VInt n =>
            if (threshold <=? n)%Z
            then result.1 = inr (Some (VInt n, true))
                 ∧ executed result.2 = executed c ++ [analyze_stmt]
            else result.1 = inr (Some (exact, false))
                 ∧ executed result.2
                   = executed c ++ [analyze_stmt; count_stmt]
        | _ => result.1 = inr (Some (exact, false))
               ∧ executed result.2
                 = executed c ++ [analyze_stmt; count_stmt]
        end
      else result.1 = inr (Some (exact, false))
           ∧ executed result.2 = executed c ++ [count_stmt]
  | None => result.1 = inr (Some (exact, false))
            ∧ executed result.2 = executed c ++ [count_stmt]
  end.
Proof.
  intros analyze_stmt count_sql count_stmt Hinc Hest Hrows1 Hshape Hsingle
    Hcount Hrows2 result.
  subst result. unfold Search.search_total.
  pose proof (where_clause_nonempty (where_ query_dict)) as Hw.
  subst count_stmt count_sql.
  destruct (_where (where_ query_dict)) as [where_clause where_values].
  cbn [fst snd] in *. rewrite Hinc. unfold count_sql_string.
  set (count_sql := "SELECT count(*) FROM (" +:+ _) in *.
  set (count_stmt := Text count_sql (One (foldl dict_merge [] where_values)))
    in *.
  assert (Hexact : ∀ c0 : connection DB, current c0 = current c →
    let run :=
      (count_result0 ← Search._execute_single_statement DB engine_execute
         is_single_statement count_sql where_values;
       total ← first_cell DB count_result0;
       mret (Some (total, false))) c0 in
    run.1 = inr (Some (exact, false))
    ∧ executed run.2 = executed c0 ++ [count_stmt]).
  { intros c0 Hc0 run. subst run. unfold Search._execute_single_statement.
    rewrite Hsingle. simpl negb. cbv iota.
    unfold mbind, M_bind, bind, Db.execute, first_cell.
    fold count_stmt. rewrite Hc0, Hcount. simpl. by rewrite Hrows2. }
  assert (Hret : ∀ (k : value → Db.M DB (option (value * bool))) c0,
             (mret VNone ≫= k) c0 = k VNone c0) by done.
  destruct (total_estimation_threshold data_dict) as [threshold|].
  - rewrite Hw. destruct (bool_decide (where_ query_dict = [])).
    + destruct (truthy (distinct query_dict)) eqn:Hd.
      * cbn [negb orb andb nonempty String.eqb]. rewrite Hret.
        by apply Hexact.
      * cbn [negb orb andb nonempty String.eqb].
        assert (Hq : ∃ c1, current c1 = current c
          ∧ executed c1 = executed c ++ [analyze_stmt]
          ∧ (execute (Text analyze_count_sql
                        (One [("resource", VStr (resource_id data_dict))]))
             ≫= λ count_result0, first_cell DB count_result0) c
            = (inr estimate, c1)).
        { unfold mbind, M_bind, bind, Db.execute, first_cell.
          change (Text analyze_count_sql _) with analyze_stmt.
          rewrite Hest. cbn [rows]. rewrite Hrows1. eexists.
          split; [|split; [|reflexivity]]; done. }
        destruct Hq as (c1 & Hc1 & Hx1 & Hq).
        assert (Hbind : ∀ k : value → Db.M DB (option (value * bool)),
          ((execute (Text analyze_count_sql
                       (One [("resource", VStr (resource_id data_dict))]))
            ≫= λ count_result0, first_cell DB count_result0) ≫= k) c
          = k estimate c1).
        { intros k. unfold mbind at 1, M_bind at 1, bind at 1.
          by rewrite Hq. }
        rewrite Hbind.
        change (default 0%Z (Some threshold)) with threshold.
        destruct Hshape as [-> | [n ->]].
        -- cbn [is_none negb andb].
           destruct (Hexact c1 Hc1) as [Hres Hex]. split; [done|].
           by rewrite Hex, Hx1, <- app_assoc.
        -- cbn [is_none negb andb at_least].
           destruct (threshold <=? n)%Z; [done|].
           destruct (Hexact c1 Hc1) as [Hres Hex]. split; [done|].
           by rewrite Hex, Hx1, <- app_assoc.
    + cbn [negb orb andb]. rewrite Hret. by apply Hexact.
  - rewrite Hret. by apply Hexact.
Qed.

(** ** SQL passthrough *)

Lemma dict_get_set_eq {A : Type} (k : string) (v : A) (d : dict A) :
  dict_get k (dict_set k v d) = Some v.
Proof.
  induction d as [|[k' v'] d IH]; simpl.
  - by rewrite String.eqb_refl.
  - destruct (String.eqb_spec k' k) as [->|Hne]; simpl.
    + by rewrite String.eqb_refl.
    + by destruct (String.eqb_spec k' k).
Qed.

Lemma dict_get_set_ne {A : Type} (k k' : string) (v : A) (d : dict A) :
  k ≠ k' → dict_get k' (dict_set k v d) = dict_get k' d.
Proof.
  intros Hne. induction d as [|[k0 v0] d IH]; simpl.
  - by destruct (String.eqb_spec k k').
  - destruct (String.eqb_spec k0 k) as [->|Hne0]; simpl.
    + by destruct (String.eqb_spec k k').
    + by rewrite IH.
Qed.

Variable json_loads : value → value.
Variable str : value → string.
Variable rows_max : nat.
Variable get_names : string → Db.M DB (list string * list string).
Variable check_access : list string → Db.M DB unit.
Variable allowed_sql_functions : list string.

Local Abbreviation format_results :=
  (Search.format_results DB json_loads str).
Local Abbreviation format_row := (Search.format_row json_loads str).
Local Abbreviation search_sql :=
  (Search.search_sql DB engine_execute json_loads str rows_max get_names
     check_access allowed_sql_functions).
Local Abbreviation wrapped_sql := (Search.wrapped_sql rows_max).
Local Abbreviation function_allowed :=
  (Search.function_allowed allowed_sql_functions).

Lemma unrename_keeps (data_dict d' : dict value) (k : string) :
  _unrename_json_field data_dict = inr d' →
  k ≠ "fields" → dict_get k d' = dict_get k data_dict.
Proof.
  unfold _unrename_json_field, _rename_field. intros Hd Hk.
  destruct (dict_get "fields" data_dict) as [[| | | | |fs|d|fs]|];
    try destruct (rename_loop _ _ _); try done;
    injection Hd as <-; try done; by apply dict_get_set_ne.
Qed.






Lemma search_sql_handler_raises (e : exn) (c : connection DB) :
  ∃ e', search_sql_handler DB e c = (inl e', c).
Proof.
  destruct e as [ed|msg|err|name]; simpl; try by eexists.
  destruct (cls err); repeat case_bool_decide; by eexists.
Qed.



End SearchFacts.

(** ** The read path on the small engines *)

Section SearchExamples.
Import Py Quoting Db Where Search.

(** A table of 7 rows with a planner estimate of 10: with a threshold of
    1000 the total is the exact count, with a threshold of 5 it is the
    estimate. *)
Lemma C7_total_estimation_gating_witness :
  let total threshold :=
    (search_total unit (ToyRead.stats_engine (VInt 10) 7) (λ _, true)
       {| resource_id := "res"; records_format := "objects";
          include_total := true;
          total_estimation_threshold := Some threshold |}
       {| select := [identifier "a"]; ts_query := ""; where_ := [];
          distinct := VBool false |}
       (connect ())).1 in
  total 1000%Z = inr (Some (VInt 7, false))
  ∧ total 5%Z = inr (Some (VInt 10, true)).
Proof.
  intros total. split.
  - exact (proj1
      (C7_total_estimation_gating unit (ToyRead.stats_engine (VInt 10) 7)
         (λ _, true)
         {| resource_id := "res"; records_format := "objects";
            include_total := true;
            total_estimation_threshold := Some 1000%Z |}
         {| select := [identifier "a"]; ts_query := ""; where_ := [];
            distinct := VBool false |}
         (connect ()) (VInt 10) (VInt 7)
         {| rowcount := 1; rows := [[VInt 10]];
            description := [("approximate_row_count", "int8")] |}
         {| rowcount := 1; rows := [[VInt 7]];
            description := [("count", "int8")] |}
         [] [] [] [] eq_refl eq_refl eq_refl
         (or_intror (ex_intro _ 10%Z eq_refl)) eq_refl eq_refl eq_refl)).
  - exact (proj1
      (C7_total_estimation_gating unit (ToyRead.stats_engine (VInt 10) 7)
         (λ _, true)
         {| resource_id := "res"; records_format := "objects";
            include_total := true;
            total_estimation_threshold := Some 5%Z |}
         {| select := [identifier "a"]; ts_query := ""; where_ := [];
            distinct := VBool false |}
         (connect ()) (VInt 10) (VInt 7)
         {| rowcount := 1; rows := [[VInt 10]];
            description := [("approximate_row_count", "int8")] |}
         {| rowcount := 1; rows := [[VInt 7]];
            description := [("count", "int8")] |}
         [] [] [] [] eq_refl eq_refl eq_refl
         (or_intror (ex_intro _ 10%Z eq_refl)) eq_refl eq_refl eq_refl)).
Defined.

(** With a filter the estimate is not asked for, whatever the threshold:
    the one statement executed is the count. *)
Example total_exact_with_filter :
  let result :=
    search_total unit (ToyRead.stats_engine (VInt 10) 7) (λ _, true)
      {| resource_id := "res"; records_format := "objects";
         include_total := true; total_estimation_threshold := Some 5%Z |}
      {| select := [identifier "a"]; ts_query := "";
         where_ := [Bound "a = :value_0" [("value_0", VInt 1)]];
         distinct := VBool false |}
      (connect ()) in
  result.1 = inr (Some (VInt 7, false))
  ∧ length (executed result.2) = 1.
Proof. split; reflexivity. Qed.



(** The same query for a request without the entry. *)
Example search_sql_one_row :
  match (ToyRead.search_sql 60000 "q" [] (connect [7]%Z)).1 with
  | inr d => dict_get "records" d = Some (VList [VDict [("n", VInt 7)]])
             ∧ dict_get "records_truncated" d = None
  | inl _ => False
  end.
Proof. split; reflexivity. Qed.

End SearchExamples.

(** ** Indexes *)

Section IndexFacts.
Import Py Quoting Db Index.

Lemma prefix_app (c s : string) : String.prefix c (c +:+ s) = true.
Proof.
  induction c as [|a c IH]; simpl.
  - by destruct s.
  - rewrite ?str_app_cons. simpl. by destruct (Ascii.ascii_dec a a).
Qed.

Lemma contains_app_r (c a s : string) :
  contains c s = true → contains c (a +:+ s) = true.
Proof.
  intros Hc. induction a as [|x a IH]; [done|].
  rewrite str_app_cons. simpl. rewrite IH. apply orb_true_r.
Qed.

Lemma contains_middle (c a b : string) : contains c (a +:+ c +:+ b) = true.
Proof.
  apply contains_app_r. destruct c as [|x c].
  - by destruct b.
  - change (String.prefix (String x c) (String x c +:+ b)
            || contains (String x c) (c +:+ b) = true).
    by rewrite prefix_app.
Qed.

Lemma filter_all {A : Type} (f : A → bool) (l : list A) :
  (∀ x, x ∈ l → f x = true) → List.filter f l = l.
Proof.
  intros Hf. induction l as [|x l IH]; [done|]. simpl.
  rewrite Hf by set_solver. f_equal. apply IH. intros. apply Hf. set_solver.
Qed.

Lemma filter_none {A : Type} (f : A → bool) (l : list A) :
  (∀ x, x ∈ l → f x = false) → List.filter f l = [].
Proof.
  intros Hf. induction l as [|x l IH]; [done|]. simpl.
  rewrite Hf by set_solver. apply IH. intros. apply Hf. set_solver.
Qed.

Lemma filter_filter_bool {A : Type} (f g : A → bool) (l : list A) :
  List.filter f (List.filter g l) = List.filter (λ x, g x && f x) l.
Proof.
  induction l as [|x l IH]; [done|]. simpl.
  destruct (g x); simpl; [|done]. by rewrite IH.
Qed.

Lemma elem_of_filter_bool {A : Type} (f : A → bool) (l : list A) (x : A) :
  x ∈ List.filter f l ↔ x ∈ l ∧ f x = true.
Proof. rewrite !list_elem_of_In. apply filter_In. Qed.

(** A loop of drops: every name selected is dropped, once. *)
Lemma drop_loop_run (sel : string → bool) (stmt : string → string)
    (body : string → IM unit) (ns : list string) (s : state) :
  (∀ n s, body n s = if sel n then exec_drop (stmt n) n s else (inr (), s)) →
  ∃ s', for_each body ns s = (inr (), s')
        ∧ table_columns (cat s') = table_columns (cat s)
        ∧ indexes (cat s')
          = List.filter (λ i, negb (bool_decide (name i ∈ ns) && sel (name i)))
                        (indexes (cat s))
        ∧ issued s' = issued s ++ (stmt <$> List.filter sel ns).
Proof.
  intros Hbody. revert s. induction ns as [|n ns IH]; intros s.
  - exists s. repeat split.
    + symmetry. apply filter_all. intros i _.
      by rewrite bool_decide_eq_false_2 by set_solver.
    + simpl. by rewrite app_nil_r.
  - cbn [for_each]. unfold mbind at 1, IM_bind at 1. rewrite Hbody.
    destruct (sel n) eqn:Hn.
    + unfold exec_drop at 1.
      destruct (IH {| cat := {| table_columns := table_columns (cat s);
                                indexes := List.filter
                                  (λ i, negb (String.eqb (name i) n))
                                  (indexes (cat s)) |};
                      issued := issued s ++ [stmt n] |})
        as (s' & Hrun & Hcols & Hixs & Hiss).
      exists s'. split; [done|]. split; [done|]. split.
      * rewrite Hixs. cbn [cat indexes]. rewrite filter_filter_bool.
        apply List.filter_ext. intros i.
        destruct (String.eqb_spec (name i) n) as [->|Hne]; simpl.
        -- rewrite bool_decide_eq_true_2 by set_solver. by rewrite Hn.
        -- f_equal. f_equal. apply bool_decide_ext. rewrite elem_of_cons.
           split; [by right | by intros [?|?]].
      * rewrite Hiss. simpl. rewrite Hn. simpl. by rewrite <- app_assoc.
    + destruct (IH s) as (s' & Hrun & Hcols & Hixs & Hiss).
      exists s'. split; [done|]. split; [done|]. split.
      * rewrite Hixs. apply List.filter_ext. intros i.
        destruct (sel (name i)) eqn:Hs; [|by rewrite !andb_false_r].
        rewrite !andb_true_r. f_equal. apply bool_decide_ext.
        split; [set_solver|].
        intros [Heq|?]%elem_of_cons; [rewrite Heq in Hs; congruence|done].
      * rewrite Hiss. simpl. by rewrite Hn.
Qed.

(** A loop of drops that selects nothing does nothing. *)
Lemma drop_loop_nothing (sel : string → bool) (stmt : string → string)
    (body : string → IM unit) (ns : list string) (s : state) :
  (∀ n s, body n s = if sel n then exec_drop (stmt n) n s else (inr (), s)) →
  (∀ n, n ∈ ns → sel n = false) →
  for_each body ns s = (inr (), s).
Proof.
  intros Hbody Hsel. induction ns as [|n ns IH]; [done|].
  cbn [for_each]. unfold mbind, IM_bind. rewrite Hbody, Hsel by set_solver.
  apply IH. intros. apply Hsel. set_solver.
Qed.

(** A loop of creations that succeeds has added the indexes of the
    statements it did not skip. *)
Lemma create_loop_run (skip : planned → bool) (ps : list planned)
    (s s' : state) :
  for_each (λ p, if skip p then mret () else exec_create p) ps s
  = (inr (), s') →
  table_columns (cat s') = table_columns (cat s)
  ∧ indexes (cat s')
    = indexes (cat s) ++ (entry <$> List.filter (λ p, negb (skip p)) ps)
  ∧ issued s' = issued s ++ (sql <$> List.filter (λ p, negb (skip p)) ps).
Proof.
  revert s. induction ps as [|p ps IH]; intros s.
  - intros [= <-]. simpl. by rewrite !app_nil_r.
  - cbn [for_each]. unfold mbind at 1, IM_bind at 1. simpl.
    destruct (skip p) eqn:Hp; simpl.
    + apply IH.
    + unfold exec_create at 1. case_bool_decide; [done|].
      intros (Hc & Hi & Hs)%IH. simpl in *.
      rewrite Hc, Hi, Hs. by rewrite <- !app_assoc.
Qed.

Lemma create_loop_nothing (skip : planned → bool) (ps : list planned)
    (s : state) :
  (∀ p, p ∈ ps → skip p = true) →
  for_each (λ p, if skip p then mret () else exec_create p) ps s = (inr (), s).
Proof.
  intros Hskip. induction ps as [|p ps IH]; [done|].
  cbn [for_each]. unfold mbind, IM_bind. rewrite Hskip by set_solver.
  apply IH. intros. apply Hskip. set_solver.
Qed.

Lemma more_ret {A : Type} (x : A) : issues_more (mret x : IM A).
Proof. intros s. exists []. simpl. by rewrite app_nil_r. Qed.

Lemma more_fail {A : Type} (e : exn) : issues_more (fail e : IM A).
Proof. intros s. exists []. simpl. by rewrite app_nil_r. Qed.

Lemma more_read {A : Type} (f : catalog → A) : issues_more (read f).
Proof. intros s. exists []. simpl. by rewrite app_nil_r. Qed.

Lemma more_bind {A B : Type} (m : IM A) (k : A → IM B) :
  issues_more m → (∀ x, issues_more (k x)) → issues_more (m ≫= k).
Proof.
  intros Hm Hk s. unfold mbind, IM_bind. destruct (Hm s) as [r1 H1].
  destruct (m s) as [[e|x] s1]; simpl in *.
  - by exists r1.
  - destruct (Hk x s1) as [r2 H2]. exists (r1 ++ r2).
    by rewrite H2, H1, <- app_assoc.
Qed.

Lemma more_exec_drop (statement n : string) :
  issues_more (exec_drop statement n).
Proof. intros s. by exists [statement]. Qed.

Lemma more_exec_create (p : planned) : issues_more (exec_create p).
Proof.
  intros s. exists [sql p]. unfold exec_create. by case_bool_decide.
Qed.

Lemma more_for_each {A : Type} (body : A → IM unit) (l : list A) :
  (∀ x, issues_more (body x)) → issues_more (for_each body l).
Proof.
  intros Hbody. induction l as [|x l IH]; [apply more_ret|].
  cbn [for_each]. apply more_bind; [apply Hbody|]. intros _. apply IH.
Qed.

Variable sha1_hexdigest : string → string.
Variable sa_column : string → string.
Variable should_fts_index_field_type : string → bool.
Variable default_fts_lang : string.
Variable fts_index_method : string.
Variable get_list : index_decl → list string.
Variable str_decl : index_decl → string.

Local Abbreviation _build_fts_indexes :=
  (Index._build_fts_indexes sha1_hexdigest should_fts_index_field_type
     default_fts_lang fts_index_method).
Local Abbreviation plan_index := (Index.plan_index sha1_hexdigest get_list str_decl).
Local Abbreviation plan_indexes :=
  (Index.plan_indexes sha1_hexdigest get_list str_decl).
Local Abbreviation _drop_indexes := (Index._drop_indexes sa_column).
Local Abbreviation finish_indexes :=
  (Index.finish_indexes sha1_hexdigest sa_column should_fts_index_field_type
     default_fts_lang fts_index_method get_list str_decl).
Local Abbreviation create_indexes :=
  (Index.create_indexes sha1_hexdigest sa_column should_fts_index_field_type
     default_fts_lang fts_index_method get_list str_decl).
Local Abbreviation no_collision :=
  (Index.no_collision sha1_hexdigest should_fts_index_field_type
     default_fts_lang fts_index_method get_list str_decl).
Local Abbreviation plain_primary_key := (Index.plain_primary_key get_list).

Lemma _drop_indexes_run (uniq : bool) (s : state) :
  ∃ s', _drop_indexes uniq s = (inr (), s')
        ∧ table_columns (cat s') = table_columns (cat s)
        ∧ indexes (cat s')
          = List.filter
              (λ i, negb (bool_decide (name i ∈ droppable uniq (cat s))))
              (indexes (cat s))
        ∧ issued s'
          = issued s ++ ((λ n, "DROP INDEX " +:+ sa_column n +:+ " CASCADE")
                         <$> droppable uniq (cat s)).
Proof.
  unfold Index._drop_indexes, mbind, IM_bind, read.
  destruct (drop_loop_run (λ _, true)
              (λ n, "DROP INDEX " +:+ sa_column n +:+ " CASCADE")
              (λ n, exec_drop ("DROP INDEX " +:+ sa_column n +:+ " CASCADE") n)
              (droppable uniq (cat s)) s)
    as (s' & Hrun & Hcols & Hixs & Hiss); [done|].
  exists s'. split; [done|]. split; [done|]. split.
  - rewrite Hixs. apply List.filter_ext. intros i. by rewrite andb_true_r.
  - rewrite Hiss. do 2 f_equal. by apply filter_all.
Qed.

Lemma _drop_indexes_nothing (uniq : bool) (s : state) :
  droppable uniq (cat s) = [] → _drop_indexes uniq s = (inr (), s).
Proof.
  intros Hd. unfold Index._drop_indexes, mbind, IM_bind, read. by rewrite Hd.
Qed.

(** What a successful run of the end of [create_indexes] leaves. *)
Lemma finish_indexes_run (data_dict : request) (decls : list index_decl)
    (c : catalog) (s s' : state) :
  table_columns (cat s) = table_columns c →
  finish_indexes data_dict (_get_fields c) decls s = (inr (), s') →
  ∃ declared,
    plan_indexes data_dict (field_ids_of c) (json_fields_of c) decls
    = inr declared
    ∧ table_columns (cat s') = table_columns c
    ∧ indexes (cat s')
      = List.filter
          (λ i, negb (bool_decide
                        (name i ∈ (_build_fts_indexes data_dict
                                     (_get_fields c)).2)))
          (indexes (cat s))
        ++ (entry <$>
            List.filter (λ p, negb (exists_already (index_names (cat s)) p))
              ((_build_fts_indexes data_dict (_get_fields c)).1 ++ declared)).
Proof.
  intros Hcols. unfold Index.finish_indexes.
  fold (field_ids_of c) (json_fields_of c).
  destruct (_build_fts_indexes data_dict (_get_fields c)) as [fts noidx].
  destruct (plan_indexes data_dict (field_ids_of c) (json_fields_of c) decls)
    as [e|declared]; [done|].
  unfold mbind at 1, IM_bind at 1, read at 1.
  unfold mbind at 1, IM_bind at 1.
  destruct (drop_loop_run (λ n, bool_decide (n ∈ noidx))
              (λ n, "DROP INDEX " +:+ sa_column n +:+ " CASCADE")
              (λ fts_idx,
                 if bool_decide (fts_idx ∈ noidx)
                 then exec_drop ("DROP INDEX " +:+ sa_column fts_idx
                                 +:+ " CASCADE") fts_idx
                 else mret ())
              (index_names (cat s)) s)
    as (s1 & Hrun & Hcols1 & Hixs1 & _).
  { intros n s0. by destruct (bool_decide (n ∈ noidx)). }
  rewrite Hrun. intros (Hc & Hi & _)%create_loop_run.
  exists declared. split; [done|]. split; [congruence|].
  rewrite Hi, Hixs1. cbn [fst snd]. f_equal. apply List.filter_ext_in.
  intros i Hin. f_equal.
  rewrite bool_decide_eq_true_2; [done|].
  apply list_elem_of_fmap. exists i. by rewrite list_elem_of_In.
Qed.

(** The end of [create_indexes] does nothing when no existing index is to
    go and every statement names an existing index. *)
Lemma finish_indexes_nothing (data_dict : request) (decls : list index_decl)
    (declared : list planned) (c : catalog) (s : state) :
  plan_indexes data_dict (field_ids_of c) (json_fields_of c) decls
  = inr declared →
  (∀ n, n ∈ index_names (cat s) →
        n ∉ (_build_fts_indexes data_dict (_get_fields c)).2) →
  (∀ p, p ∈ (_build_fts_indexes data_dict (_get_fields c)).1 ++ declared →
        exists_already (index_names (cat s)) p = true) →
  finish_indexes data_dict (_get_fields c) decls s = (inr (), s).
Proof.
  intros Hplan Hkeep Hskip. unfold Index.finish_indexes.
  fold (field_ids_of c) (json_fields_of c). rewrite Hplan.
  destruct (_build_fts_indexes data_dict (_get_fields c)) as [fts noidx].
  cbn [fst snd] in *.
  unfold mbind at 1, IM_bind at 1, read at 1.
  unfold mbind at 1, IM_bind at 1.
  rewrite (drop_loop_nothing (λ n, bool_decide (n ∈ noidx))
             (λ n, "DROP INDEX " +:+ sa_column n +:+ " CASCADE")).
  - by apply create_loop_nothing.
  - intros n s0. by destruct (bool_decide (n ∈ noidx)).
  - intros n Hn. apply bool_decide_eq_false_2. by apply Hkeep.
Qed.

Lemma prefix_app_l (c s b : string) :
  String.prefix c s = true → String.prefix c (s +:+ b) = true.
Proof.
  revert s. induction c as [|x c IH]; intros s.
  - intros _. by destruct (s +:+ b).
  - destruct s as [|y s]; [done|]. rewrite str_app_cons. simpl.
    destruct (Ascii.ascii_dec x y); [apply IH | done].
Qed.

Lemma contains_app_l (c s b : string) :
  contains c s = true → contains c (s +:+ b) = true.
Proof.
  induction s as [|y s IH].
  - destruct c; [|done]. intros _. by destruct b.
  - rewrite str_app_cons. cbn [contains].
    intros [Hp|Hc]%orb_prop.
    + change (String y (s +:+ b)) with (String y s +:+ b).
      by rewrite (prefix_app_l _ _ _ Hp).
    + rewrite (IH Hc). apply orb_true_r.
Qed.

(** A CREATE INDEX statement holds the name of its index. *)
Lemma sql_index_tmpl_contains (uniq nm res_id rest : string) :
  contains nm (sql_index_tmpl uniq nm res_id +:+ rest) = true.
Proof.
  apply contains_app_l. unfold sql_index_tmpl.
  do 3 apply contains_app_r. apply contains_app_l.
  apply (contains_middle nm (str1 dquote) (str1 dquote)).
Qed.

Lemma get_fields_columns (c c' : catalog) :
  table_columns c' = table_columns c → _get_fields c' = _get_fields c.
Proof. unfold _get_fields. by intros ->. Qed.

Lemma fts_planned (data_dict : request) (fields : list Write.field)
    (p : planned) :
  p ∈ (_build_fts_indexes data_dict fields).1 →
  unique (entry p) = false
  ∧ contains (name (entry p)) (sql p) = true.
Proof.
  unfold Index._build_fts_indexes. cbn [fst].
  intros (f & -> & _)%list_elem_of_fmap. split; [done|].
  apply sql_index_tmpl_contains.
Qed.

Lemma plan_index_planned (data_dict : request)
    (field_ids json_fields : list string) (i : index_decl)
    (ps : list planned) (p : planned) :
  plan_index data_dict field_ids json_fields i = inr ps →
  p ∈ ps →
  ps = [p]
  ∧ is_empty i = false
  ∧ contains (name (entry p)) (sql p) = true
  ∧ primary (entry p) = false
  ∧ unique (entry p) = is_primary_key i (primary_key data_dict)
  ∧ columns (entry p)
    = List.filter (λ f, negb (bool_decide (f ∈ json_fields))) (get_list i)
  ∧ (∀ f, f ∈ get_list i → f ∈ field_ids).
Proof.
  unfold Index.plan_index. destruct (is_empty i); [by intros [= <-]; set_solver|].
  destruct (forallb _ (get_list i)) eqn:Hall; [|done].
  intros [= <-] ->%list_elem_of_singleton. cbn [entry sql name].
  repeat split; try done.
  - apply sql_index_tmpl_contains.
  - intros f Hf. rewrite forallb_forall in Hall.
    apply list_elem_of_In, Hall in Hf. by apply bool_decide_eq_true_1 in Hf.
Qed.

(** After a successful run of the end of [create_indexes], a second run for
    declarations that plan no new statement does nothing. *)
Lemma finish_indexes_again (data_dict : request) (c : catalog)
    (decls decls2 : list index_decl) (declared declared2 : list planned)
    (s s1 : state) :
  table_columns (cat s) = table_columns c →
  finish_indexes data_dict (_get_fields c) decls s = (inr (), s1) →
  plan_indexes data_dict (field_ids_of c) (json_fields_of c) decls
  = inr declared →
  plan_indexes data_dict (field_ids_of c) (json_fields_of c) decls2
  = inr declared2 →
  (∀ p, p ∈ declared2 → p ∈ declared) →
  (∀ p, p ∈ declared → contains (name (entry p)) (sql p) = true) →
  (∀ n p, n ∈ (_build_fts_indexes data_dict (_get_fields c)).2 →
          p ∈ (_build_fts_indexes data_dict (_get_fields c)).1 ++ declared →
          contains n (sql p) = false) →
  finish_indexes data_dict (_get_fields c) decls2 s1 = (inr (), s1).
Proof.
  intros Hcols Hrun Hplan Hplan2 Hsub Hown Hhyg.
  destruct (finish_indexes_run _ _ _ _ _ Hcols Hrun)
    as (declared' & Hplan' & Hcols1 & Hixs).
  rewrite Hplan in Hplan'. injection Hplan' as <-.
  set (fts := (_build_fts_indexes data_dict (_get_fields c)).1) in *.
  set (noidx := (_build_fts_indexes data_dict (_get_fields c)).2) in *.
  assert (Hown' : ∀ p, p ∈ fts ++ declared →
                       contains (name (entry p)) (sql p) = true).
  { intros p [Hp|Hp]%elem_of_app; [|by apply Hown].
    by apply (fts_planned data_dict (_get_fields c)). }
  assert (Hkept : ∀ i, i ∈ indexes (cat s) → name i ∉ noidx →
                       name i ∈ index_names (cat s1)).
  { intros i Hi Hn. unfold index_names. rewrite Hixs, fmap_app.
    apply elem_of_app. left. apply list_elem_of_fmap. exists i.
    split; [done|]. apply elem_of_filter_bool. split; [done|].
    by rewrite bool_decide_eq_false_2. }
  assert (Hnew : ∀ p, p ∈ fts ++ declared →
                      exists_already (index_names (cat s)) p = false →
                      name (entry p) ∈ index_names (cat s1)).
  { intros p Hp Hskip. unfold index_names. rewrite Hixs, fmap_app.
    apply elem_of_app. right. apply list_elem_of_fmap. exists (entry p).
    split; [done|]. apply list_elem_of_fmap. exists p. split; [done|].
    apply elem_of_filter_bool. split; [done|]. by rewrite Hskip. }
  apply (finish_indexes_nothing data_dict decls2 declared2 c s1 Hplan2).
  - fold noidx. intros n Hn Hnoidx. unfold index_names in Hn.
    rewrite Hixs, fmap_app in Hn. apply elem_of_app in Hn as [Hn|Hn].
    + apply list_elem_of_fmap in Hn as (i & -> & Hi).
      apply elem_of_filter_bool in Hi as [_ Hi].
      by rewrite bool_decide_eq_true_2 in Hi.
    + apply list_elem_of_fmap in Hn as (e & -> & He).
      apply list_elem_of_fmap in He as (p & -> & Hp).
      apply elem_of_filter_bool in Hp as [Hp _].
      pose proof (Hhyg _ _ Hnoidx Hp) as Hno.
      by rewrite (Hown' p Hp) in Hno.
  - fold fts. intros p Hp.
    assert (Hp' : p ∈ fts ++ declared).
    { apply elem_of_app in Hp as [Hp|Hp]; apply elem_of_app; auto. }
    destruct (exists_already (index_names (cat s)) p) eqn:Hskip.
    + unfold exists_already in Hskip. apply existsb_exists in Hskip
        as (n & Hn%list_elem_of_In & Hcont).
      apply list_elem_of_fmap in Hn as (i & -> & Hi).
      unfold exists_already. apply existsb_exists. exists (name i).
      split; [|done]. apply list_elem_of_In, Hkept; [done|].
      intros Hnoidx. by rewrite (Hhyg _ _ Hnoidx Hp') in Hcont.
    + unfold exists_already. apply existsb_exists. exists (name (entry p)).
      split; [|by apply Hown']. by apply list_elem_of_In, Hnew.
Qed.

Lemma create_indexes_unfold (data_dict : request) (s : state) :
  indexes_decl data_dict = None →
  create_indexes data_dict s
  = match primary_key data_dict with
    | Some pk =>
        if bool_decide (sorted (unique_key_columns (cat s)) ≠ sorted pk) then
          match _drop_indexes true s with
          | (inr _, s') =>
              finish_indexes data_dict (_get_fields (cat s)) [IList pk] s'
          | (inl e, s') => (inl e, s')
          end
        else finish_indexes data_dict (_get_fields (cat s)) [] s
    | None => finish_indexes data_dict (_get_fields (cat s)) [] s
    end.
Proof.
  intros Hnone. unfold Index.create_indexes. rewrite Hnone.
  destruct (primary_key data_dict) as [pk|]; [|reflexivity].
  unfold mbind at 1, IM_bind at 1, read at 1.
  unfold mbind at 1, IM_bind at 1, mret at 1, IM_ret at 1.
  unfold mbind at 1, IM_bind at 1.
  unfold mbind at 1, IM_bind at 1, read at 1.
  destruct (bool_decide (sorted (unique_key_columns (cat s)) ≠ sorted pk));
    [|reflexivity].
  unfold mbind at 1, IM_bind at 1.
  by destruct (_drop_indexes true s) as [[e|[]] s'].
Qed.

Lemma unique_key_columns_same (c c' : catalog) :
  table_columns c' = table_columns c →
  List.filter is_unique_key (indexes c') = List.filter is_unique_key (indexes c) →
  unique_key_columns c' = unique_key_columns c.
Proof.
  unfold unique_key_columns, is_unique_key. by intros -> ->.
Qed.

Lemma fts_entries_not_unique (data_dict : request) (fields : list Write.field)
    (f : planned → bool) (ps : list planned) :
  (∀ p, p ∈ ps → unique (entry p) = false) →
  List.filter is_unique_key (entry <$> List.filter f ps) = [].
Proof.
  intros Hps. apply filter_none. intros e (p & -> & Hp)%list_elem_of_fmap.
  apply elem_of_filter_bool in Hp as [Hp _]. unfold is_unique_key.
  by rewrite (Hps p Hp).
Qed.

Lemma sorted_permutation (l k : list string) :
  l ≡ₚ k → sorted l = sorted k.
Proof.
  intros Hp. unfold sorted. apply (Sorted_unique String.le).
  - apply (Sorted_merge_sort String.le).
  - apply (Sorted_merge_sort String.le).
  - by rewrite !(merge_sort_Permutation String.le).
Qed.

Lemma sorted_nil_inv (l : list string) : sorted [] = sorted l → l = [].
Proof.
  intros Hs. apply Permutation_nil_r.
  rewrite <- (merge_sort_Permutation String.le l).
  fold (sorted l). by rewrite <- Hs.
Qed.

Lemma get_fields_column (c : catalog) (f : Write.field) :
  f ∈ _get_fields c → (Write.id f, Write.type f) ∈ table_columns c.
Proof.
  unfold _get_fields. intros ([n t] & Hin & Hf)%list_elem_of_omap.
  simpl in Hf. destruct (String.prefix "_" n); [done|].
  by injection Hf as <-.
Qed.

Lemma field_ids_columns (c : catalog) (f : string) :
  f ∈ field_ids_of c → f ∈ (table_columns c).*1.
Proof.
  intros (fld & -> & Hin%get_fields_column)%list_elem_of_fmap.
  apply list_elem_of_fmap. by exists (Write.id fld, Write.type fld).
Qed.

Lemma json_fields_nested (c : catalog) (f : string) :
  f ∈ json_fields_of c → (f, "nested") ∈ table_columns c.
Proof.
  intros (fld & -> & Hin)%list_elem_of_fmap.
  apply elem_of_filter_bool in Hin as [Hin Ht%String.eqb_eq].
  apply get_fields_column in Hin. by rewrite Ht in Hin.
Qed.

(** The unique key the engine reports for an index on the columns of a
    plain primary key is that primary key, up to order. *)
Lemma unique_key_of_primary_key (c : catalog) (pk : list string) :
  NoDup (table_columns c).*1 → NoDup pk →
  (∀ f, f ∈ pk → f ∈ field_ids_of c) →
  List.filter (λ col, bool_decide (col ∈ pk)) (table_columns c).*1 ≡ₚ pk.
Proof.
  intros Hcols Hpk Hin.
  apply NoDup_Permutation;
    [by apply NoDup_ListNoDup, List.NoDup_filter, NoDup_ListNoDup|done|].
  intros x. rewrite elem_of_filter_bool, bool_decide_eq_true.
  split; [tauto|]. intros Hx. split; [|done].
  by apply field_ids_columns, Hin.
Qed.

Lemma more_drop_indexes (uniq : bool) : issues_more (_drop_indexes uniq).
Proof.
  unfold Index._drop_indexes. apply more_bind; [apply more_read|].
  intros ns. apply more_for_each. intros n. apply more_exec_drop.
Qed.

Lemma more_finish_indexes (data_dict : request) (fields : list Write.field)
    (decls : list index_decl) :
  issues_more (finish_indexes data_dict fields decls).
Proof.
  unfold Index.finish_indexes.
  destruct (_build_fts_indexes data_dict fields) as [fts noidx].
  destruct (plan_indexes _ _ _ decls) as [e|declared]; [apply more_fail|].
  apply more_bind; [apply more_read|]. intros current.
  apply more_bind.
  - apply more_for_each. intros n.
    case_bool_decide; [apply more_exec_drop|apply more_ret].
  - intros _. apply more_for_each. intros p.
    destruct (exists_already current p);
      [apply more_ret|apply more_exec_create].
Qed.

Lemma plan_indexes_app (data_dict : request)
    (field_ids json_fields : list string) (l k : list index_decl)
    (d : list planned) :
  plan_indexes data_dict field_ids json_fields (l ++ k) = inr d →
  ∃ dl dk, plan_indexes data_dict field_ids json_fields l = inr dl
           ∧ d = dl ++ dk.
Proof.
  revert d. induction l as [|i l IH]; intros d.
  - intros _. by exists [], d.
  - cbn [app Index.plan_indexes].
    destruct (plan_index data_dict field_ids json_fields i) as [e|ps];
      [done|].
    destruct (plan_indexes data_dict field_ids json_fields (l ++ k))
      as [e|d'] eqn:Hd; [done|].
    intros [= <-]. destruct (IH d' eq_refl) as (dl & dk & -> & ->).
    exists (ps ++ dl), dk. by rewrite app_assoc.
Qed.

(** The statements a successful run of the end of [create_indexes]
    issues: drops, and then the statements that name no existing index. *)
Lemma finish_indexes_issued (data_dict : request) (decls : list index_decl)
    (c : catalog) (s s' : state) :
  finish_indexes data_dict (_get_fields c) decls s = (inr (), s') →
  ∃ declared dropped,
    plan_indexes data_dict (field_ids_of c) (json_fields_of c) decls
    = inr declared
    ∧ issued s'
      = issued s ++ dropped
        ++ (sql <$>
            List.filter (λ p, negb (exists_already (index_names (cat s)) p))
              ((_build_fts_indexes data_dict (_get_fields c)).1 ++ declared)).
Proof.
  unfold Index.finish_indexes.
  fold (field_ids_of c) (json_fields_of c).
  destruct (_build_fts_indexes data_dict (_get_fields c)) as [fts noidx].
  destruct (plan_indexes data_dict (field_ids_of c) (json_fields_of c) decls)
    as [e|declared]; [done|].
  unfold mbind at 1, IM_bind at 1, read at 1.
  unfold mbind at 1, IM_bind at 1.
  destruct (drop_loop_run (λ n, bool_decide (n ∈ noidx))
              (λ n, "DROP INDEX " +:+ sa_column n +:+ " CASCADE")
              (λ fts_idx,
                 if bool_decide (fts_idx ∈ noidx)
                 then exec_drop ("DROP INDEX " +:+ sa_column fts_idx
                                 +:+ " CASCADE") fts_idx
                 else mret ())
              (index_names (cat s)) s)
    as (s1 & Hrun & _ & _ & Hiss1).
  { intros n s0. by destruct (bool_decide (n ∈ noidx)). }
  rewrite Hrun. intros (_ & _ & Hiss)%create_loop_run.
  exists declared. eexists. split; [done|].
  rewrite Hiss, Hiss1. cbn [fst]. by rewrite <- app_assoc.
Qed.

(** With an [indexes] entry, a call starts with the drop of every index
    that is neither unique nor primary, and a call that returns has then
    issued the statement of every full-text or declared index that holds
    the name of no unique or primary index. *)
Lemma create_indexes_entry (data_dict : request) (l : list index_decl)
    (s : state) :
  indexes_decl data_dict = Some l →
  ∃ rest,
    issued (create_indexes data_dict s).2
    = issued s
      ++ ((λ n, "DROP INDEX " +:+ sa_column n +:+ " CASCADE")
          <$> droppable false (cat s))
      ++ rest
    ∧ ((create_indexes data_dict s).1 = inr () →
       ∃ declared,
         plan_indexes data_dict (field_ids_of (cat s)) (json_fields_of (cat s))
           l = inr declared
         ∧ ∀ p,
             p ∈ (_build_fts_indexes data_dict (_get_fields (cat s))).1
                 ++ declared →
             (∀ i, i ∈ indexes (cat s) → unique i || primary i = true →
                   contains (name i) (sql p) = false) →
             sql p ∈ rest).
Proof.
  intros Hl.
  destruct (_drop_indexes_run false s) as (sa & Hdrop & Hcolsa & Hixsa & Hissa).
  set (fields := _get_fields (cat s)).
  set (tail :=
         (indexes ←
            match primary_key data_dict with
            | Some pk =>
                unique_keys ← read unique_key_columns;
                if bool_decide (sorted unique_keys ≠ sorted pk) then
                  _ ← _drop_indexes true; mret (l ++ [IList pk])
                else mret l
            | None => mret l
            end;
          finish_indexes data_dict fields indexes) : IM unit).
  assert (Hrun : create_indexes data_dict s = tail sa).
  { unfold Index.create_indexes. rewrite Hl.
    unfold mbind at 1, IM_bind at 1, read at 1.
    unfold mbind at 1, IM_bind at 1.
    unfold mbind at 1, IM_bind at 1.
    by rewrite Hdrop. }
  assert (Hmore : issues_more tail).
  { unfold tail. apply more_bind; [|intros; apply more_finish_indexes].
    destruct (primary_key data_dict) as [pk|]; [|apply more_ret].
    apply more_bind; [apply more_read|]. intros keys.
    case_bool_decide; [|apply more_ret].
    apply more_bind; [apply more_drop_indexes|]. intros; apply more_ret. }
  destruct (Hmore sa) as [rest Hrest].
  exists rest. rewrite Hrun. split.
  { by rewrite Hrest, Hissa, <- app_assoc. }
  intros Hok.
  assert (Hleft : ∀ i, i ∈ indexes (cat sa) →
                       i ∈ indexes (cat s) ∧ unique i || primary i = true).
  { intros i Hi. rewrite Hixsa in Hi.
    apply elem_of_filter_bool in Hi as [Hi Hkeep]. split; [done|].
    destruct (unique i) eqn:Hu, (primary i) eqn:Hp; try done.
    rewrite bool_decide_eq_true_2 in Hkeep; [done|].
    apply list_elem_of_fmap. exists i. split; [done|].
    apply elem_of_filter_bool. split; [done|]. by rewrite Hu, Hp. }
  assert (Hfin : ∀ sx decls pre k,
            tail sa = finish_indexes data_dict fields decls sx →
            issued sx = issued sa ++ pre →
            (∀ i, i ∈ indexes (cat sx) → i ∈ indexes (cat sa)) →
            decls = l ++ k →
            ∃ declared,
              plan_indexes data_dict (field_ids_of (cat s))
                (json_fields_of (cat s)) l = inr declared
              ∧ ∀ p,
                  p ∈ (_build_fts_indexes data_dict fields).1 ++ declared →
                  (∀ i, i ∈ indexes (cat s) → unique i || primary i = true →
                        contains (name i) (sql p) = false) →
                  sql p ∈ rest).
  { intros sx decls pre k Htail Hpre Hsub ->.
    rewrite Htail in Hok, Hrest.
    destruct (finish_indexes data_dict fields (l ++ k) sx)
      as [[e|[]] s'] eqn:Hfinish; [done|].
    destruct (finish_indexes_issued _ _ _ _ _ Hfinish)
      as (declared' & dropped & Hplan & Hiss).
    destruct (plan_indexes_app _ _ _ _ _ _ Hplan) as (dl & dk & Hdl & ->).
    exists dl. split; [done|]. intros p Hp Hfree.
    cbn [snd] in Hrest. rewrite Hiss, Hpre, <- !app_assoc in Hrest.
    apply app_inv_head in Hrest. rewrite <- Hrest.
    apply elem_of_app. right. apply elem_of_app. right.
    apply list_elem_of_fmap. exists p. split; [done|].
    apply elem_of_filter_bool. split.
    - apply elem_of_app in Hp as [Hp|Hp];
        [|rewrite (app_assoc _ dl dk)]; apply elem_of_app; left; try done.
      apply elem_of_app. by right.
    - apply negb_true_iff. apply not_true_is_false.
      intros (n & Hn%list_elem_of_In & Hc)%existsb_exists.
      apply list_elem_of_fmap in Hn as (i & -> & Hi).
      destruct (Hleft i (Hsub i Hi)) as [Hin Hup].
      by rewrite (Hfree i Hin Hup) in Hc. }
  unfold tail in Hfin |- *.
  destruct (primary_key data_dict) as [pk|].
  2: { apply (Hfin sa l [] []); try done; by rewrite app_nil_r. }
  unfold mbind at 1, IM_bind at 1 in Hfin.
  unfold mbind at 1, IM_bind at 1, read at 1 in Hfin.
  destruct (bool_decide (sorted (unique_key_columns (cat sa)) ≠ sorted pk)).
  - destruct (_drop_indexes_run true sa) as (sb & Hdropb & _ & Hixsb & Hissb).
    refine (Hfin sb (l ++ [IList pk]) _ [IList pk] _ Hissb _ eq_refl).
    + unfold mbind at 1, IM_bind at 1. by rewrite Hdropb.
    + intros i Hi. rewrite Hixsb in Hi.
      by apply elem_of_filter_bool in Hi as [Hi _].
  - apply (Hfin sa l [] []); try done; by rewrite app_nil_r.
Qed.

(** C6, as the code has it.  The name of an index is the digest of the
    resource id followed by the field expression.  For declarations without
    an [indexes] entry, and with a primary key (if any) of distinct columns
    none of which is nested, a second call right after a successful call
    issues no CREATE INDEX and no DROP INDEX: it leaves the state, issued
    statements included, as the first call left it.  For declarations with
    an [indexes] entry, be it empty, the second call starts with a DROP
    INDEX of every index that is neither unique nor primary, and when it
    returns it has then issued the CREATE INDEX of every full-text index
    and of every index of the entry whose statement holds the name of no
    unique or primary index.  The statement of a full-text index is a
    CREATE INDEX with the configured method, under the digest name of its
    expression. *)
Theorem C6_create_indexes_idempotent (data_dict : request) (s0 s1 : state) :
  create_indexes data_dict s0 = (inr (), s1) →
  (∀ resource_id field,
     _generate_index_name sha1_hexdigest resource_id field
     = sha1_hexdigest (resource_id +:+ field))
  ∧ (indexes_decl data_dict = None →
     NoDup (table_columns (cat s0)).*1 →
     plain_primary_key data_dict (cat s0) →
     no_collision data_dict (cat s0) →
     create_indexes data_dict s1 = (inr (), s1))
  ∧ (∀ l, indexes_decl data_dict = Some l →
     ∃ rest,
       issued (create_indexes data_dict s1).2
       = issued s1
         ++ ((λ n, "DROP INDEX " +:+ sa_column n +:+ " CASCADE")
             <$> droppable false (cat s1))
         ++ rest
       ∧ ((create_indexes data_dict s1).1 = inr () →
          ∃ declared,
            plan_indexes data_dict (field_ids_of (cat s1))
              (json_fields_of (cat s1)) l = inr declared
            ∧ ∀ p,
                p ∈ (_build_fts_indexes data_dict (_get_fields (cat s1))).1
                    ++ declared →
                (∀ i, i ∈ indexes (cat s1) → unique i || primary i = true →
                      contains (name i) (sql p) = false) →
                sql p ∈ rest))
  ∧ (∀ p, p ∈ (_build_fts_indexes data_dict (_get_fields (cat s1))).1 →
          ∃ f, sql p
               = sql_index_string_method (resource_id data_dict) ""
                   (_generate_index_name sha1_hexdigest
                      (resource_id data_dict) f)
                   fts_index_method f).
Proof.
  intros Hrun. split; [done|]. split; [|split].
  2: { intros l Hl. by apply create_indexes_entry. }
  2: { intros p (f & -> & _)%list_elem_of_fmap. by eexists. }
  intros Hnone Hnd Hplain Hcol.
  rewrite create_indexes_unfold in Hrun |- * by done.
  set (c0 := cat s0) in *.
  set (fts := (_build_fts_indexes data_dict (_get_fields c0)).1) in *.
  assert (Hfts_hyg : ∀ n p,
    n ∈ (_build_fts_indexes data_dict (_get_fields c0)).2 →
    p ∈ fts ++ [] → contains n (sql p) = false).
  { intros n p Hn Hp. rewrite app_nil_r in Hp. by apply (Hcol n Hn). }
  assert (Hfts_unique : ∀ p, p ∈ fts → unique (entry p) = false).
  { intros p Hp. by apply (fts_planned data_dict (_get_fields c0)). }
  destruct (primary_key data_dict) as [pk|] eqn:Hpkd.
  2: { destruct (finish_indexes_run _ _ c0 s0 s1 eq_refl Hrun)
         as (declared & Hplan & Hcols1 & Hixs).
       rewrite (get_fields_columns c0 (cat s1) Hcols1).
       apply (finish_indexes_again data_dict c0 [] [] [] [] s0 s1);
         try done. set_solver. }
  destruct (Hplain pk Hpkd) as (Hpk_nodup & Hpk_list & Hpk_plain).
  destruct (bool_decide_reflect (sorted (unique_key_columns c0) ≠ sorted pk))
    as [Hdiff|Hsame].
  - (* the first call has replaced the unique key *)
    destruct (_drop_indexes_run true s0) as (s' & Hdrop & Hcols' & Hixs' & _).
    rewrite Hdrop in Hrun.
    destruct (finish_indexes_run _ _ c0 s' s1 Hcols' Hrun)
      as (declared & Hplan & Hcols1 & Hixs).
    rewrite (get_fields_columns c0 (cat s1) Hcols1).
    cbn [Index.plan_indexes] in Hplan.
    destruct (plan_index data_dict (field_ids_of c0) (json_fields_of c0)
                (IList pk)) as [e|ps] eqn:Hpi; [done|].
    injection Hplan as <-. rewrite app_nil_r in Hixs.
    assert (Hplan1 : plan_indexes data_dict (field_ids_of c0)
                       (json_fields_of c0) [IList pk] = inr ps).
    { cbn [Index.plan_indexes]. by rewrite Hpi, app_nil_r. }
    assert (Hown : ∀ p, p ∈ ps → contains (name (entry p)) (sql p) = true).
    { intros p Hp. by destruct (plan_index_planned _ _ _ _ _ _ Hpi Hp)
        as (_ & _ & ? & _). }
    assert (Hhyg : ∀ n p,
      n ∈ (_build_fts_indexes data_dict (_get_fields c0)).2 →
      p ∈ fts ++ ps → contains n (sql p) = false).
    { intros n p Hn [Hp|Hp]%elem_of_app.
      - by apply (Hcol n Hn).
      - destruct (Hcol n Hn) as (_ & Hdecl & _). by apply (Hdecl pk ps p). }
    (* the unique indexes the first call has left *)
    assert (Hunique : List.filter is_unique_key (indexes (cat s1))
      = entry <$> List.filter
          (λ p, negb (exists_already (index_names (cat s')) p)) ps).
    { rewrite Hixs, !List.filter_app, fmap_app, List.filter_app.
      rewrite (fts_entries_not_unique data_dict (_get_fields c0)) by done.
      rewrite (filter_none is_unique_key).
      - simpl. apply filter_all. intros e (p & -> & Hp)%list_elem_of_fmap.
        apply elem_of_filter_bool in Hp as [Hp _].
        destruct (plan_index_planned _ _ _ _ _ _ Hpi Hp)
          as (_ & _ & _ & Hprim & Huniq & _).
        unfold is_unique_key. rewrite Hprim, Huniq, Hpkd. simpl.
        by rewrite bool_decide_eq_true_2.
      - intros i [Hi _]%elem_of_filter_bool. rewrite Hixs' in Hi.
        apply elem_of_filter_bool in Hi as [Hi Hkeep].
        destruct (is_unique_key i) eqn:Hu; [|done].
        rewrite bool_decide_eq_true_2 in Hkeep; [done|].
        apply list_elem_of_fmap. exists i. split; [done|].
        apply elem_of_filter_bool. split; [done|].
        unfold is_unique_key in Hu. apply andb_prop in Hu as [-> ->]. done. }
    assert (Hdroppable : ∀ l, List.filter is_unique_key (indexes (cat s1)) = l →
      droppable true (cat s1) = name <$> l).
    { intros l <-. unfold droppable. f_equal. apply List.filter_ext.
      intros i. unfold is_unique_key. by destruct (unique i), (primary i). }
    destruct ps as [|p ps'].
    + (* an empty primary key: no unique index is left *)
      assert (pk = []) as ->.
      { unfold Index.plan_index in Hpi. destruct pk as [|f pk']; [done|].
        simpl in Hpi. by destruct (forallb _ _). }
      assert (Hno : unique_key_columns (cat s1) = []).
      { unfold unique_key_columns. by rewrite Hunique. }
      rewrite Hno, bool_decide_eq_false_2 by (by intros []).
      apply (finish_indexes_again data_dict c0 [IList []] [] [] [] s' s1);
        try done.
    + destruct (plan_index_planned _ _ _ _ _ _ Hpi (list_elem_of_here p ps'))
        as (Hsingle & Hne & _ & _ & _ & Hcolumns & Hvalid).
      injection Hsingle as ->. rewrite Hpk_list in Hcolumns, Hvalid.
      assert (Hpk_ne : pk ≠ []) by (by intros ->).
      assert (Hcolumns' : columns (entry p) = pk).
      { rewrite Hcolumns. apply filter_all. intros f Hf.
        apply negb_true_iff, bool_decide_eq_false_2.
        intros Hj%json_fields_nested. by apply (Hpk_plain f "nested"). }
      cbn [List.filter] in Hunique.
      destruct (exists_already (index_names (cat s')) p) eqn:Hskip;
        cbn [negb] in Hunique.
      * (* the unique index was not created: nothing unique is left *)
        assert (Hno : unique_key_columns (cat s1) = []).
        { unfold unique_key_columns. by rewrite Hunique. }
        rewrite Hno, bool_decide_eq_true_2
          by (by intros Hs%sorted_nil_inv).
        rewrite _drop_indexes_nothing by (by rewrite (Hdroppable [])).
        apply (finish_indexes_again data_dict c0 [IList pk] [IList pk]
                 [p] [p] s' s1); try done.
      * (* the unique index was created: it is the unique key *)
        assert (Hkey : sorted (unique_key_columns (cat s1)) = sorted pk).
        { apply sorted_permutation. unfold unique_key_columns.
          rewrite Hunique. simpl. rewrite app_nil_r, Hcolumns', Hcols1.
          by apply unique_key_of_primary_key. }
        rewrite bool_decide_eq_false_2 by (by intros []).
        apply (finish_indexes_again data_dict c0 [IList pk] [] [p] [] s' s1);
          try done. set_solver.
  - (* the unique key was the primary key already *)
    destruct (finish_indexes_run _ _ c0 s0 s1 eq_refl Hrun)
      as (declared & Hplan & Hcols1 & Hixs).
    injection Hplan as <-.
    rewrite (get_fields_columns c0 (cat s1) Hcols1).
    assert (Hkey : unique_key_columns (cat s1) = unique_key_columns c0).
    { apply unique_key_columns_same; [done|].
      rewrite Hixs, List.filter_app.
      rewrite (fts_entries_not_unique data_dict (_get_fields c0))
        by (intros p Hp; rewrite app_nil_r in Hp; by apply Hfts_unique).
      rewrite app_nil_r, filter_filter_bool. apply List.filter_ext_in.
      intros i Hi%list_elem_of_In. destruct (is_unique_key i) eqn:Hu;
        [|by rewrite andb_false_r].
      rewrite andb_true_r. apply negb_true_iff, bool_decide_eq_false_2.
      intros Hn. destruct (Hcol _ Hn) as (_ & _ & Huniq).
      apply (Huniq i Hi); [|done].
      unfold is_unique_key in Hu. by apply andb_prop in Hu as [-> _]. }
    rewrite Hkey, bool_decide_eq_false_2 by done.
    apply (finish_indexes_again data_dict c0 [] [] [] [] s0 s1); try done.
    set_solver.
Qed.

End IndexFacts.

(** ** The index manager on the small resource *)

Section IndexExamples.
Import Py Index ToyIndex.

(** Declarations with a primary key and no [indexes] entry: the second
    call leaves everything as the first left it.  Declarations with an
    [indexes] entry: the second call drops the three indexes the first call
    created, and issues again every statement the first call issued. *)
Lemma C6_create_indexes_idempotent_witness :
  (let d := declare None (Some ["a"]) in
   let s1 := (create_indexes d new_resource).2 in
   ToyIndex.create_indexes d s1 = (inr (), s1))
  ∧ (let d := declare (Some [IStr "a"]) None in
     let s1 := (create_indexes d new_resource).2 in
     ∃ rest,
       issued (ToyIndex.create_indexes d s1).2
       = issued s1
         ++ ((λ n, "DROP INDEX " +:+ n +:+ " CASCADE")
             <$> droppable false (cat s1))
         ++ rest
       ∧ length (droppable false (cat s1)) = 3
       ∧ Forall (λ statement, statement ∈ rest) (issued s1)).
Proof.
  split.
  { intros d s1.
  refine (proj1 (proj2 (C6_create_indexes_idempotent (λ s, s) (λ n, n)
                          should_fts_index_field_type "english" "gist"
                          get_list str_decl d new_resource s1 _)) _ _ _ _).
  - reflexivity.
  - reflexivity.
  - apply (bool_decide_unpack _). vm_compute. exact I.
  - intros pk [= <-]. split; [|split].
    + apply (bool_decide_unpack _). vm_compute. exact I.
    + reflexivity.
    + intros f t ->%list_elem_of_singleton Hin Ht. subst t.
      revert Hin. apply (bool_decide_unpack _). vm_compute. exact I.
  - intros n Hn.
    set (noidx := (_build_fts_indexes (λ s, s) should_fts_index_field_type
                     "english" "gist" d (_get_fields (cat new_resource))).2)
      in Hn.
    vm_compute in noidx. subst noidx.
    apply list_elem_of_singleton in Hn as ->. split; [|split].
    + intros p Hp.
      set (fts := (_build_fts_indexes (λ s, s) should_fts_index_field_type
                     "english" "gist" d (_get_fields (cat new_resource))).1)
        in Hp.
      vm_compute in fts. subst fts.
      apply elem_of_cons in Hp as [->|Hp]; [reflexivity|].
      apply list_elem_of_singleton in Hp as ->. reflexivity.
    + intros pk ps p [= <-] [= <-] ->%list_elem_of_singleton. reflexivity.
    + intros i ->%list_elem_of_singleton _. discriminate.
  }
  intros d s1.
  destruct (proj1 (proj2 (proj2
              (C6_create_indexes_idempotent (λ s, s) (λ n, n)
                 should_fts_index_field_type "english" "gist"
                 get_list str_decl d new_resource s1 eq_refl)))
              [IStr "a"] eq_refl) as (rest & Heq & Hcreates).
  exists rest. split; [exact Heq|]. split; [reflexivity|].
  destruct (Hcreates eq_refl) as (declared & Hplan & Hall).
  vm_compute in Hplan. injection Hplan as <-.
  set (ps := _ ++ _) in Hall.
  assert (Hiss : issued s1 = sql <$> ps) by reflexivity.
  rewrite Hiss. apply Forall_fmap, Forall_forall. intros p Hp.
  apply (Hall p Hp). intros i Hi Hup.
  assert (i = {| name := "res_pkey"; unique := true; primary := true;
                 columns := ["_id"] |}) as ->.
  { revert Hup. set (ixs := indexes (cat s1)) in Hi.
    vm_compute in ixs. subst ixs.
    repeat (apply elem_of_cons in Hi as [->|Hi];
            [intros Hup; first [reflexivity | by simpl in Hup]|]).
    by apply elem_of_nil in Hi. }
  vm_compute in ps. subst ps.
  repeat (apply elem_of_cons in Hp as [->|Hp]; [reflexivity|]).
  by apply elem_of_nil in Hp.
Defined.

(** C6 as stated fails when the declarations carry an [indexes] entry, even
    an empty one: the second call drops the two full-text indexes the first
    call created, and creates them again. *)
Lemma C6_indexes_entry_recreates :
  let d := declare (Some []) None in
  let first := create_indexes d new_resource in
  let second := create_indexes d (after d new_resource) in
  first.1 = inr ()
  ∧ second.1 = inr ()
  ∧ length (List.filter (String.prefix "DROP INDEX") (issued second.2)) = 2
  ∧ length (List.filter (String.prefix "CREATE") (issued second.2)) = 2
  ∧ ¬ (issued second.2 = []).
Proof. repeat split; [reflexivity..|discriminate]. Qed.

(** Without the [indexes] entry the second call issues nothing. *)
Example create_indexes_twice_quiet :
  let d := declare None None in
  issued (create_indexes d (after d new_resource)).2 = [].
Proof. reflexivity. Qed.

(** A primary key on a nested column is indexed on an expression, which
    the unique-key query does not report: every call replaces the index. *)
Example create_indexes_nested_key_replaced :
  let d := declare None (Some ["j"]) in
  let second := create_indexes d (after d nested_resource) in
  second.1 = inr ()
  ∧ length (List.filter (String.prefix "DROP INDEX") (issued second.2)) = 1
  ∧ length (List.filter (String.prefix "CREATE unique") (issued second.2)) = 1.
Proof. repeat split. Qed.

(** So does a primary key that lists a column twice. *)
Example create_indexes_repeated_key_replaced :
  let d := declare None (Some ["a"; "a"]) in
  let second := create_indexes d (after d new_resource) in
  second.1 = inr ()
  ∧ length (List.filter (String.prefix "DROP INDEX") (issued second.2)) = 1
  ∧ length (List.filter (String.prefix "CREATE unique") (issued second.2)) = 1.
Proof. repeat split. Qed.

End IndexExamples.


(** ** Error summaries *)

Section SummaryFacts.
Import Py Quoting Summary.

Lemma first_line_no_lf (s : string) : occurs LF (first_line s) = false.
Proof.
  induction s as [|c s IH]; [done|]. simpl.
  destruct (Ascii.eqb_spec c LF) as [->|Hne]; [done|]. simpl.
  rewrite IH. by destruct (Ascii.eqb_spec c LF).
Qed.

Lemma first_line_split (s : string) :
  ∃ rest, s = first_line s +:+ rest ∧ (rest = "" ∨ ∃ r, rest = String LF r).
Proof.
  induction s as [|c s [rest [IH Hr]]].
  - exists "". split; [done|by left].
  - simpl. destruct (Ascii.eqb_spec c LF) as [->|Hne].
    + exists (String LF s). split; [done|]. right. by exists s.
    + exists rest. split; [|done]. by rewrite str_app_cons, <- IH.
Qed.

Lemma prefix_skip (p s : string) :
  String.prefix p s = true → s = p +:+ skip (String.length p) s.
Proof.
  revert s. induction p as [|a p IH]; intros s; [done|].
  destruct s as [|b s]; [done|]. simpl.
  destruct (ascii_dec a b) as [->|]; [|done].
  intros Hp. by rewrite str_app_cons, <- IH.
Qed.

Lemma occurs_app_r (c : ascii) (s t : string) :
  occurs c (s +:+ t) = false → occurs c t = false.
Proof.
  induction s as [|b s IH]; [done|]. rewrite str_app_cons. simpl.
  intros [_ Hs]%orb_false_iff. by apply IH.
Qed.

(** The first occurrence: [sep] starts at no earlier position. *)
Lemma after_first_some (sep s r : string) :
  after_first sep s = Some r →
  ∃ pre, s = pre +:+ sep +:+ r
         ∧ ∀ a b, pre = a +:+ b → b ≠ "" →
                  String.prefix sep (b +:+ sep +:+ r) = false.
Proof.
  revert r. induction s as [|c s IH]; intros r; cbn [after_first].
  - destruct (String.prefix sep "") eqn:Hp; [|done].
    intros [= <-]. exists "". split; [by apply prefix_skip|].
    intros a b Hab Hb. destruct a;
      [rewrite str_app_nil_l in Hab; by subst b
      |by rewrite str_app_cons in Hab].
  - destruct (String.prefix sep (String c s)) eqn:Hp.
    + intros [= <-]. exists "". split; [by apply prefix_skip|].
      intros a b Hab Hb. destruct a;
        [rewrite str_app_nil_l in Hab; by subst b
        |by rewrite str_app_cons in Hab].
    + intros Hr. destruct (IH r Hr) as (pre & Hs & Hfirst).
      exists (String c pre). split; [by rewrite str_app_cons, <- Hs|].
      intros a b Hab Hb. destruct a as [|a0 a].
      * rewrite str_app_nil_l in Hab. subst b.
        by rewrite str_app_cons, <- Hs.
      * rewrite str_app_cons in Hab. injection Hab as _ Hab.
        by apply (Hfirst a b).
Qed.

Lemma after_first_none (sep s : string) :
  after_first sep s = None → Py.contains sep s = false.
Proof.
  induction s as [|c s IH]; cbn [after_first Py.contains].
  - by destruct (String.prefix sep "").
  - destruct (String.prefix sep (String c s)); [done|]. intros H.
    by rewrite IH.
Qed.

(** X1. The summary of a database error is cut out of the first line of its
    message: a first line in which no closing parenthesis is followed by a
    space is returned whole; otherwise the summary is what follows the first
    such pair.  It never holds a line feed. *)
Theorem X1_error_summary_first_line (args0 : string) :
  let message := first_line args0 in
  let summary := _programming_error_summary args0 in
  (∃ rest, args0 = message +:+ rest ∧ (rest = "" ∨ ∃ r, rest = String LF r))
  ∧ occurs LF summary = false
  ∧ ((Index.contains ") " message = false ∧ summary = message)
     ∨ (∃ pre, message = pre +:+ ") " +:+ summary
               ∧ ∀ a b, pre = a +:+ b → b ≠ "" →
                        String.prefix ") " (b +:+ ") " +:+ summary) = false)).
Proof.
  intros message summary. split; [apply first_line_split|].
  unfold summary, _programming_error_summary, split1_last. fold message.
  destruct (after_first ") " message) as [r|] eqn:Hr; simpl.
  - destruct (after_first_some _ _ _ Hr) as (pre & Hm & Hfirst). split.
    + pose proof (first_line_no_lf args0) as Hlf. fold message in Hlf.
      rewrite Hm in Hlf. apply occurs_app_r in Hlf.
      by apply (occurs_app_r _ ") ") in Hlf.
    + right. by exists pre.
  - split; [apply first_line_no_lf|]. left. split; [|done].
    by apply after_first_none.
Qed.

Example error_summary_example :
  _programming_error_summary
    ("(ProgrammingError) syntax error (near x) " +:+ String LF "LINE 1: y")
  = "syntax error (near x) ".
Proof. reflexivity. Qed.

End SummaryFacts.


(** ** Field lists *)

Section FieldsFacts.
Import Py Db Search Fields.

Lemma dict_set_same {A : Type} (k : string) (v : A) (d : dict A) :
  dict_get k d = Some v → dict_set k v d = d.
Proof.
  induction d as [|[k' v'] d IH]; simpl; [done|].
  destruct (String.eqb_spec k' k) as [->|Hne]; [by intros [= ->]|].
  intros Hd. by rewrite IH.
Qed.

Lemma dict_set_set {A : Type} (k : string) (v v' : A) (d : dict A) :
  dict_set k v (dict_set k v' d) = dict_set k v d.
Proof.
  induction d as [|[k0 v0] d IH]; simpl.
  - by rewrite String.eqb_refl.
  - destruct (String.eqb_spec k0 k) as [->|Hne]; simpl.
    + by rewrite String.eqb_refl.
    + destruct (String.eqb_spec k0 k); [done|]. by rewrite IH.
Qed.

Lemma dict_keys_set {A : Type} (k : string) (v v' : A) (d : dict A) :
  dict_get k d = Some v' → dict_keys (dict_set k v d) = dict_keys d.
Proof.
  unfold dict_keys. induction d as [|[k0 v0] d IH]; [done|].
  cbn [dict_set dict_get].
  destruct (String.eqb_spec k0 k) as [->|Hne]; [done|].
  intros Hd. rewrite !fmap_cons. f_equal. by apply IH.
Qed.

(** What the test of the loop answers, when it does. *)
Lemma has_term_returns (term : string) (f : value) (b : bool) :
  has_term term f = inr b → b = has_type term f.
Proof.
  destruct f as [| | | |s|l|d|l]; cbn [has_term has_type]; try done.
  - destruct (contains "type" s); [done|]. by intros [= <-].
  - destruct (existsb _ l); [done|]. by intros [= <-].
  - intros [= <-]. by destruct (dict_get "type" d) as [[]|].
  - destruct (existsb _ l); [done|]. by intros [= <-].
Qed.

(** Whether the test raises does not depend on the type looked for, and
    what it raises is [TypeError]. *)
Lemma has_term_raises (term term' : string) (f : value) (e : exn) :
  has_term term f = inl e →
  e = PyError "TypeError" ∧ has_term term' f = inl e.
Proof.
  destruct f as [| | | |s|l|d|l]; cbn [has_term]; try (by intros [= <-]).
  - destruct (contains "type" s); [by intros [= <-]|done].
  - destruct (existsb _ l); [by intros [= <-]|done].
  - destruct (existsb _ l); [by intros [= <-]|done].
Qed.

Lemma has_term_again (term term' replace : string) (f : value) (b : bool) :
  has_term term f = inr b →
  has_term term' (if b then set_type replace f else f)
  = inr (has_type term' (if b then set_type replace f else f)).
Proof.
  destruct f as [| | | |s|l|d|l]; cbn [has_term]; try done.
  - destruct (contains "type" s) eqn:Hs; [done|]. intros [= <-].
    cbn [has_term has_type]. by rewrite Hs.
  - destruct (existsb _ l) eqn:Hl; [done|]. intros [= <-].
    cbn [has_term has_type]. by rewrite Hl.
  - intros [= <-].
    destruct (match dict_get "type" d with
              | Some t => is_str term t
              | None => false
              end); cbn [set_type has_term has_type];
      by destruct (dict_get "type" _) as [[]|].
  - destruct (existsb _ l) eqn:Hl; [done|]. intros [= <-].
    cbn [has_term has_type]. by rewrite Hl.
Qed.

Lemma rename_loop_returns (term replace : string) (fs fs' : list value) :
  rename_loop term replace fs = inr fs' →
  fs' = (λ f, if has_type term f then set_type replace f else f) <$> fs
  ∧ ∀ term' replace',
      rename_loop term' replace' fs'
      = inr ((λ f, if has_type term' f then set_type replace' f else f)
             <$> fs').
Proof.
  revert fs'. induction fs as [|f fs IH]; intros fs'; cbn [rename_loop].
  - by intros [= <-].
  - destruct (has_term term f) as [e|b] eqn:Hf; [done|].
    destruct (rename_loop term replace fs) as [e|renamed]; [done|].
    intros [= <-]. destruct (IH renamed eq_refl) as [-> Hagain].
    pose proof (has_term_returns _ _ _ Hf) as Hb. split.
    + rewrite fmap_cons. by rewrite Hb.
    + intros term' replace'. cbn [rename_loop].
      rewrite (has_term_again term term' replace f b Hf), Hagain.
      by rewrite fmap_cons.
Qed.

Lemma rename_loop_raises (term replace term' replace' : string)
    (fs : list value) (e : exn) :
  rename_loop term replace fs = inl e →
  e = PyError "TypeError" ∧ rename_loop term' replace' fs = inl e.
Proof.
  induction fs as [|f fs IH]; cbn [rename_loop]; [done|].
  destruct (has_term term f) as [e'|b] eqn:Hf.
  - intros [= <-]. destruct (has_term_raises term term' f e' Hf) as [-> ->].
    done.
  - destruct (rename_loop term replace fs) as [e'|renamed]; [|done].
    intros [= <-]. destruct (IH eq_refl) as [-> ->]. split; [done|].
    destruct (has_term term' f) as [e''|b'] eqn:Hf'; [|done].
    by destruct (has_term_raises term' term f e'' Hf') as [-> Hc];
      rewrite Hc in Hf.
Qed.

Lemma rename_loop_dicts (term replace : string) (fs : list value) :
  forallb is_dict fs = true → ∃ fs', rename_loop term replace fs = inr fs'.
Proof.
  induction fs as [|f fs IH]; cbn [forallb rename_loop]; [by eexists|].
  intros [Hf Hfs]%andb_prop. destruct (IH Hfs) as [fs' ->].
  destruct f; try done. by eexists.
Qed.

(** Renaming [term] leaves it nowhere, and renaming json and back gives
    the entry back unless it was of the type [nested]. *)
Lemma rename_type_gone (term replace : string) (f : value) :
  term ≠ replace →
  has_type term (if has_type term f then set_type replace f else f) = false.
Proof.
  intros Hne. destruct (has_type term f) eqn:Hf; [|done].
  destruct f as [| | | | | |d|]; try done. cbn [set_type has_type].
  rewrite dict_get_set_eq. by apply String.eqb_neq.
Qed.

Lemma rename_type_back (f : value) :
  has_type "nested" f = false →
  (λ f, if has_type "nested" f then set_type "json" f else f)
    (if has_type "json" f then set_type "nested" f else f) = f.
Proof.
  intros Hn. cbv beta. destruct (has_type "json" f) eqn:Hj;
    [|by rewrite Hn].
  destruct f as [| | | | | |d|]; try done. cbn [set_type has_type] in *.
  rewrite dict_get_set_eq. cbn [String.eqb Ascii.eqb Bool.eqb].
  cbn [set_type]. rewrite dict_set_set.
  destruct (dict_get "type" d) as [[| | | |t| | |]|] eqn:Ht; try done.
  apply String.eqb_eq in Hj as ->. by rewrite dict_set_same.
Qed.

(** The three things [_rename_field] can do. *)
Lemma rename_field_cases (data_dict : dict value) (term replace : string) :
  (∃ fs fs', (dict_get "fields" data_dict = Some (VList fs)
              ∧ rename_loop term replace fs = inr fs'
              ∧ _rename_field data_dict term replace
                = inr (dict_set "fields" (VList fs') data_dict))
             ∨ (dict_get "fields" data_dict = Some (VTuple fs)
                ∧ rename_loop term replace fs = inr fs'
                ∧ _rename_field data_dict term replace
                  = inr (dict_set "fields" (VTuple fs') data_dict)))
  ∨ (fields_of data_dict = []
     ∧ _rename_field data_dict term replace = inr data_dict
     ∧ ∀ term' replace',
         _rename_field data_dict term' replace' = inr data_dict)
  ∨ (fields_are_dicts data_dict = false
     ∧ _rename_field data_dict term replace = inl (PyError "TypeError")
     ∧ ∀ term' replace',
         _rename_field data_dict term' replace' = inl (PyError "TypeError")).
Proof.
  unfold _rename_field, fields_of, fields_are_dicts.
  destruct (dict_get "fields" data_dict) as [[| | | |s|fs|d|fs]|] eqn:Hd;
    try (right; right; by repeat split); try (right; left; by repeat split).
  - destruct (rename_loop term replace fs) as [e|fs'] eqn:Hfs.
    + right. right.
      destruct (rename_loop_raises term replace term replace fs e Hfs)
        as [-> _].
      split; [|split; [done|]].
      * destruct (forallb is_dict fs) eqn:Hall; [|done].
        destruct (rename_loop_dicts term replace fs Hall) as [fs' Hfs'].
        by rewrite Hfs' in Hfs.
      * intros term' replace'.
        by destruct (rename_loop_raises term replace term' replace' fs _ Hfs)
          as [_ ->].
    + left. exists fs, fs'. by left.
  - destruct (rename_loop term replace (VStr <$> dict_keys d)) as [e|fs']
      eqn:Hfs.
    + right. right.
      destruct (rename_loop_raises term replace term replace _ e Hfs)
        as [-> _].
      split; [done|]. split; [done|]. intros term' replace'.
      by destruct (rename_loop_raises term replace term' replace' _ _ Hfs)
        as [_ ->].
    + right. left. split; [done|]. split; [done|]. intros term' replace'.
      destruct (rename_loop term' replace' (VStr <$> dict_keys d))
        as [e|fs''] eqn:Hfs'; [|done].
      destruct (rename_loop_raises term' replace' term replace _ e Hfs')
        as [_ Hc]. by rewrite Hc in Hfs.
  - destruct (rename_loop term replace fs) as [e|fs'] eqn:Hfs.
    + right. right.
      destruct (rename_loop_raises term replace term replace fs e Hfs)
        as [-> _].
      split; [done|]. split; [done|]. intros term' replace'.
      by destruct (rename_loop_raises term replace term' replace' fs _ Hfs)
        as [_ ->].
    + left. exists fs, fs'. by right.
Qed.

(** X2. Renaming the json type for the engine and renaming it back for the
    answer gives the request back, when no field of the request is declared
    with the engine's own type name [nested].  The renaming returns for a
    request without [fields] and for one with a list of dicts under it; when
    it raises, on a [fields] entry that cannot be walked or an entry of it
    that cannot be asked for its type, the error is [TypeError], and the
    renaming back raises it on the same request. *)
Theorem X2_rename_json_round_trip (data_dict : dict value) :
  Forall (λ f, has_type "nested" f = false) (fields_of data_dict) →
  match _rename_json_field data_dict with
  | inr renamed => _unrename_json_field renamed = inr data_dict
  | inl e =>
      e = PyError "TypeError" ∧ _unrename_json_field data_dict = inl e
      ∧ fields_are_dicts data_dict = false
  end.
Proof.
  intros Hno. unfold _rename_json_field, _unrename_json_field.
  destruct (rename_field_cases data_dict "json" "nested")
    as [(fs & fs' & [(Hd & Hfs & ->) | (Hd & Hfs & ->)])
       | [(_ & -> & Hall) | (Hshape & -> & Hall)]];
    [| |apply Hall|by rewrite Hall].
  - destruct (rename_loop_returns _ _ _ _ Hfs) as [-> Hagain].
    unfold _rename_field. rewrite dict_get_set_eq, Hagain, dict_set_set.
    rewrite <- list_fmap_compose.
    unfold fields_of in Hno. rewrite Hd in Hno.
    rewrite (Forall_fmap_ext_1 _ id fs), list_fmap_id;
      [by rewrite dict_set_same|].
    eapply Forall_impl; [exact Hno|]. intros f Hn.
    by apply rename_type_back.
  - destruct (rename_loop_returns _ _ _ _ Hfs) as [-> Hagain].
    unfold _rename_field. rewrite dict_get_set_eq, Hagain, dict_set_set.
    rewrite <- list_fmap_compose.
    unfold fields_of in Hno. rewrite Hd in Hno.
    rewrite (Forall_fmap_ext_1 _ id fs), list_fmap_id;
      [by rewrite dict_set_same|].
    eapply Forall_impl; [exact Hno|]. intros f Hn.
    by apply rename_type_back.
Qed.

Lemma X2_rename_json_round_trip_witness :
  let d := [("resource_id", VStr "r");
            ("fields", VList [VDict [("id", VStr "a"); ("type", VStr "json")];
                              VDict [("id", VStr "b"); ("type", VStr "text")];
                              VDict [("id", VStr "c")]])] in
  match _rename_json_field d with
  | inr renamed =>
      _unrename_json_field renamed = inr d
      ∧ fields_of renamed
        = [VDict [("id", VStr "a"); ("type", VStr "nested")];
           VDict [("id", VStr "b"); ("type", VStr "text")];
           VDict [("id", VStr "c")]]
  | inl _ => False
  end.
Proof.
  intros d.
  pose proof (X2_rename_json_round_trip d) as Hround.
  change (_rename_json_field d)
    with (inr (A:=exn)
            [("resource_id", VStr "r");
             ("fields",
              VList [VDict [("id", VStr "a"); ("type", VStr "nested")];
                     VDict [("id", VStr "b"); ("type", VStr "text")];
                     VDict [("id", VStr "c")]])]) in Hround |- *.
  cbv iota in Hround |- *. split; [|reflexivity].
  apply Hround. repeat constructor.
Defined.

(** A [fields] entry that is [None], and one that holds a str with ['type']
    in it: the renaming raises. *)
Example rename_raises_type_error :
  _unrename_json_field [("fields", VNone)] = inl (PyError "TypeError")
  ∧ _unrename_json_field [("fields", VList [VStr "type"])]
    = inl (PyError "TypeError")
  ∧ _unrename_json_field [("fields", VList [VStr "id"])]
    = inr [("fields", VList [VStr "id"])].
Proof. repeat split. Qed.

(** X3. When [_unrename_json_field] returns, its answer declares no field
    with the type [nested]; the entries of the request other than [fields],
    their order and the number of fields are as they were, and a second
    application changes nothing.  When it raises, the error is [TypeError],
    and the request was not one with a list of dicts under [fields]. *)
Theorem X3_unrename_leaves_no_nested (data_dict : dict value) :
  match _unrename_json_field data_dict with
  | inr answer =>
      Forall (λ f, has_type "nested" f = false) (fields_of answer)
      ∧ length (fields_of answer) = length (fields_of data_dict)
      ∧ dict_keys answer = dict_keys data_dict
      ∧ (∀ k, k ≠ "fields" → dict_get k answer = dict_get k data_dict)
      ∧ _unrename_json_field answer = inr answer
  | inl e => e = PyError "TypeError" ∧ fields_are_dicts data_dict = false
  end.
Proof.
  unfold _unrename_json_field.
  destruct (rename_field_cases data_dict "nested" "json")
    as [(fs & fs' & [(Hd & Hfs & ->) | (Hd & Hfs & ->)])
       | [(Hnil & -> & Hall) | (Hshape & -> & Hall)]]; [| | |done].
  - destruct (rename_loop_returns _ _ _ _ Hfs) as [-> Hagain].
    assert (Hno : Forall (λ f, has_type "nested" f = false)
                    ((λ f, if has_type "nested" f then set_type "json" f
                           else f) <$> fs)).
    { apply Forall_fmap, Forall_true. intros f. by apply rename_type_gone. }
    unfold fields_of. rewrite dict_get_set_eq, Hd.
    split; [done|]. split; [by rewrite length_fmap|].
    split; [by apply (dict_keys_set _ _ (VList fs))|].
    split; [intros k Hk; by rewrite dict_get_set_ne|].
    unfold _rename_field. rewrite dict_get_set_eq, Hagain, dict_set_set.
    do 3 f_equal. rewrite <- (list_fmap_id (_ <$> fs)) at 2.
    apply Forall_fmap_ext_1. eapply Forall_impl; [exact Hno|].
    intros f Hf. cbv beta. by rewrite Hf.
  - destruct (rename_loop_returns _ _ _ _ Hfs) as [-> Hagain].
    assert (Hno : Forall (λ f, has_type "nested" f = false)
                    ((λ f, if has_type "nested" f then set_type "json" f
                           else f) <$> fs)).
    { apply Forall_fmap, Forall_true. intros f. by apply rename_type_gone. }
    unfold fields_of. rewrite dict_get_set_eq, Hd.
    split; [done|]. split; [by rewrite length_fmap|].
    split; [by apply (dict_keys_set _ _ (VTuple fs))|].
    split; [intros k Hk; by rewrite dict_get_set_ne|].
    unfold _rename_field. rewrite dict_get_set_eq, Hagain, dict_set_set.
    do 3 f_equal. rewrite <- (list_fmap_id (_ <$> fs)) at 2.
    apply Forall_fmap_ext_1. eapply Forall_impl; [exact Hno|].
    intros f Hf. cbv beta. by rewrite Hf.
  - rewrite Hnil. repeat split; try done; apply Hall.
Qed.

End FieldsFacts.


Section ResultFieldsFacts.
Import Py Db Fields.

Lemma dict_get_None {A : Type} (k : string) (d : dict A) :
  dict_get k d = None ↔ k ∉ dict_keys d.
Proof.
  unfold dict_keys. induction d as [|[k' v'] d IH]; cbn [dict_get].
  - split; [intros _; apply not_elem_of_nil|done].
  - rewrite fmap_cons, not_elem_of_cons. cbn [fst].
    destruct (String.eqb_spec k' k) as [->|Hne].
    + split; [done|]. by intros [? _].
    + rewrite IH. split; [by intros ?; split|by intros [_ ?]].
Qed.

Lemma dict_get_key {A : Type} (k : string) (d : dict A) :
  k ∈ dict_keys d → is_Some (dict_get k d).
Proof.
  intros Hk. destruct (dict_get k d) eqn:Hd; [by eexists|].
  by apply dict_get_None in Hd.
Qed.

Lemma dict_get_merge {A : Type} (k : string) (a b : dict A) :
  dict_get k (dict_merge a b)
  = match dict_get k (reverse b) with
    | Some v => Some v
    | None => dict_get k a
    end.
Proof.
  unfold dict_merge. revert a.
  induction b as [|[k' v'] b IH]; intros a; [done|].
  cbn [foldl fst snd]. rewrite IH, reverse_cons.
  assert (Happ : ∀ l : dict A,
             dict_get k (l ++ [(k', v')])
             = match dict_get k l with
               | Some v => Some v
               | None => if String.eqb k' k then Some v' else None
               end).
  { induction l as [|[k0 v0] l IHl]; [done|]. cbn [app dict_get].
    by destruct (String.eqb k0 k). }
  rewrite Happ. destruct (dict_get k (reverse b)); [done|].
  destruct (String.eqb_spec k' k) as [->|Hne].
  - apply dict_get_set_eq.
  - by apply dict_get_set_ne.
Qed.

Lemma head_keys_merge {A : Type} (l acc : dict A) (p : string * A) :
  head (dict_keys (foldl (λ d p, dict_set p.1 p.2 d) (p :: acc) l))
  = Some p.1.
Proof.
  revert p acc. induction l as [|[k v] l IH]; intros [k0 v0] acc; [done|].
  cbn [foldl dict_set fst snd].
  destruct (String.eqb_spec k0 k) as [->|Hne]; by rewrite IH.
Qed.

Lemma result_fields_loop_ok (fields_types : dict string)
    (field_info : dict value) (asked : list string) :
  match result_fields_loop fields_types field_info asked with
  | inr result_fields =>
      Forall (λ field_id, is_Some (dict_get field_id fields_types)) asked
      ∧ _pluck "id" result_fields = inr (VStr <$> asked)
      ∧ Forall2 (λ field_id f,
                   dict_get "type" f = VStr <$> dict_get field_id fields_types
                   ∧ dict_get "info" f = dict_get field_id field_info)
                asked result_fields
  | inl e =>
      e = PyError "KeyError"
      ∧ Exists (λ field_id, dict_get field_id fields_types = None) asked
  end.
Proof.
  induction asked as [|field_id asked IH]; cbn [result_fields_loop].
  - by repeat constructor.
  - destruct (dict_get field_id fields_types) as [t|] eqn:Ht;
      [|split; [done|by left]].
    destruct (result_fields_loop fields_types field_info asked)
      as [e|result_fields].
    + destruct IH as [-> IH]. split; [done|by right].
    + destruct IH as (Hall & Hids & Hinfo). split; [|split].
      * constructor; [by rewrite Ht|done].
      * cbn [_pluck]. destruct (dict_get field_id field_info) as [info|];
          cbn; by rewrite Hids.
      * constructor; [|done]. rewrite Ht.
        by destruct (dict_get field_id field_info) as [info|].
Qed.

(** X4. [_result_fields] answers with one entry per field asked for, in the
    order asked (the order of [fields_types] when no list is given), each
    with the type of [fields_types] and with the info of [field_info] exactly
    when there is one; a field that [fields_types] does not hold makes it
    raise [KeyError], which cannot happen when no list is given. *)
Theorem X4_result_fields_follow_request (fields_types : dict string)
    (field_info : dict value) (fields : option (list string)) :
  let asked := default (dict_keys fields_types) fields in
  match _result_fields fields_types field_info fields with
  | inr result_fields =>
      Forall (λ field_id, is_Some (dict_get field_id fields_types)) asked
      ∧ _pluck "id" result_fields = inr (VStr <$> asked)
      ∧ Forall2 (λ field_id f,
                   dict_get "type" f = VStr <$> dict_get field_id fields_types
                   ∧ dict_get "info" f = dict_get field_id field_info)
                asked result_fields
  | inl e =>
      e = PyError "KeyError"
      ∧ Exists (λ field_id, dict_get field_id fields_types = None) asked
  end
  ∧ ∃ result_fields,
      _result_fields fields_types field_info None = inr result_fields.
Proof.
  intros asked. split; [apply result_fields_loop_ok|].
  unfold _result_fields. cbn [default from_option id].
  pose proof (result_fields_loop_ok fields_types field_info
                (dict_keys fields_types)) as Hok.
  destruct (result_fields_loop fields_types field_info
              (dict_keys fields_types)) as [e|result_fields];
    [|by eexists].
  destruct Hok as [_ Hex]. apply Exists_exists in Hex as (k & Hk & Hnone).
  apply dict_get_key in Hk. rewrite Hnone in Hk. by destruct Hk.
Qed.

Example result_fields_example :
  _result_fields [("_id", "int"); ("a", "text"); ("b", "nested")]
                 [("b", VDict [("label", VStr "B")])]
                 (Some ["b"; "_id"])
  = inr [[("id", VStr "b"); ("type", VStr "nested");
          ("info", VDict [("label", VStr "B")])];
         [("id", VStr "_id"); ("type", VStr "int")]]
  ∧ _result_fields [("_id", "int")] [] (Some ["_id"; "zz"])
    = inl (PyError "KeyError").
Proof. split; reflexivity. Qed.

Variable DB : Type.
Variable engine_execute : DB → statement → dbapi_error + DB * cursor_result.

Local Abbreviation _get_fields_types :=
  (Fields._get_fields_types DB engine_execute).

Lemma get_fields_run (resource_id : string) (c : connection DB) (db' : DB)
    (res : cursor_result) :
  engine_execute (current c) (SelectAllLimit1 resource_id) = inr (db', res) →
  ∃ c', Write._get_fields DB engine_execute resource_id c
        = (inr (omap (λ col, if String.prefix "_" col.1 then None
                             else Some {| Write.id := col.1;
                                          Write.type := col.2 |})
                     (description res)), c')
        ∧ current c' = db'
        ∧ committed c' = committed c
        ∧ executed c' = executed c ++ [SelectAllLimit1 resource_id].
Proof.
  intros He. unfold Write._get_fields.
  unfold mbind at 1, M_bind at 1, bind at 1, execute. rewrite He.
  by eexists.
Qed.

(** X5. The field types of a resource always hold [_id], first and with the
    type [int], and no other column whose name starts with an underscore
    ([_full_text] among them); a column without the underscore is held
    exactly when the table has it. *)
Theorem X5_fields_types_system_columns (resource_id : string)
    (c : connection DB) (db' : DB) (res : cursor_result) :
  engine_execute (current c) (SelectAllLimit1 resource_id) = inr (db', res) →
  ∃ fields_types c',
    _get_fields_types resource_id c = (inr fields_types, c')
    ∧ head (dict_keys fields_types) = Some "_id"
    ∧ dict_get "_id" fields_types = Some "int"
    ∧ (∀ name, String.prefix "_" name = true → name ≠ "_id" →
               dict_get name fields_types = None)
    ∧ (∀ name, String.prefix "_" name = false →
               is_Some (dict_get name fields_types)
               ↔ name ∈ (description res).*1).
Proof.
  intros He. destruct (get_fields_run _ _ _ _ He) as (c' & Hrun & _).
  set (fields := omap _ (description res)) in Hrun.
  set (pairs := (λ f, (Write.id f, Write.type f)) <$> fields).
  assert (Hkeys : ∀ name, name ∈ pairs.*1 ↔
            String.prefix "_" name = false ∧ name ∈ (description res).*1).
  { intros name. unfold pairs, fields.
    rewrite <- list_fmap_compose, list_elem_of_fmap. split.
    - intros (f & -> & Hf). apply list_elem_of_omap in Hf as ([n t] & Hin & Hf).
      cbn [fst] in Hf. destruct (String.prefix "_" n) eqn:Hp; [done|].
      injection Hf as <-. cbn. split; [done|].
      apply list_elem_of_fmap. by exists (n, t).
    - intros [Hp Hin]. apply list_elem_of_fmap in Hin as ([n t] & -> & Hin).
      exists {| Write.id := n; Write.type := t |}. split; [done|].
      apply list_elem_of_omap. exists (n, t). split; [done|].
      cbn [fst] in *. by rewrite Hp. }
  assert (Hget : ∀ name, dict_get name (dict_of_pairs (("_id", "int") :: pairs))
            = match dict_get name (reverse pairs) with
              | Some v => Some v
              | None => if String.eqb "_id" name then Some "int" else None
              end).
  { intros name. unfold dict_of_pairs. rewrite dict_get_merge, reverse_cons.
    clear. induction (reverse pairs) as [|[k v] l IH]; cbn [app dict_get].
    - by destruct (String.eqb "_id" name).
    - by destruct (String.eqb k name). }
  assert (Hrev : ∀ name, dict_get name (reverse pairs) = None ↔
            name ∉ pairs.*1).
  { intros name. rewrite dict_get_None. unfold dict_keys.
    by rewrite fmap_reverse, elem_of_reverse. }
  exists (dict_of_pairs (("_id", "int") :: pairs)), c'.
  split; [|split; [|split; [|split]]].
  - unfold _get_fields_types, Fields._get_fields_types.
    unfold mbind at 1, M_bind at 1, bind at 1. by rewrite Hrun.
  - unfold dict_of_pairs, dict_merge. cbn [foldl dict_set fst snd].
    apply head_keys_merge.
  - rewrite Hget. destruct (dict_get "_id" (reverse pairs)) eqn:Hd; [|done].
    assert (Hin : "_id" ∈ pairs.*1).
    { destruct (decide ("_id" ∈ pairs.*1)) as [|Hn]; [done|].
      apply Hrev in Hn. by rewrite Hn in Hd. }
    by apply Hkeys in Hin as [? _].
  - intros name Hp Hne. rewrite Hget.
    destruct (dict_get name (reverse pairs)) eqn:Hd.
    + assert (Hin : name ∈ pairs.*1).
      { destruct (decide (name ∈ pairs.*1)) as [|Hn]; [done|].
        apply Hrev in Hn. by rewrite Hn in Hd. }
      apply Hkeys in Hin as [Hp' _]. by rewrite Hp in Hp'.
    + by destruct (String.eqb_spec "_id" name).
  - intros name Hp. rewrite Hget.
    destruct (dict_get name (reverse pairs)) eqn:Hd.
    + split; [intros _|by eexists].
      assert (Hin : name ∈ pairs.*1).
      { destruct (decide (name ∈ pairs.*1)) as [|Hn]; [done|].
        apply Hrev in Hn. by rewrite Hn in Hd. }
      by apply Hkeys in Hin as [_ ?].
    + destruct (String.eqb_spec "_id" name) as [<-|Hne]; [done|].
      split; [by intros [? ?]|]. intros Hin.
      apply Hrev in Hd. exfalso. apply Hd, Hkeys. by split.
Qed.

End ResultFieldsFacts.

Lemma X5_fields_types_system_columns_witness :
  ∃ fields_types c',
    Fields._get_fields_types Toy.table Toy.engine_execute "res"
      (Db.connect Toy.keyed_resource) = (inr fields_types, c')
    ∧ head (Py.dict_keys fields_types) = Some "_id"
    ∧ Py.dict_get "_id" fields_types = Some "int"
    ∧ (∀ name, String.prefix "_" name = true → name ≠ "_id" →
               Py.dict_get name fields_types = None)
    ∧ (∀ name, String.prefix "_" name = false →
               is_Some (Py.dict_get name fields_types)
               ↔ name ∈ ["_id"; "_full_text"; "a"; "b"]).
Proof.
  exact (X5_fields_types_system_columns Toy.table Toy.engine_execute "res"
           (Db.connect Toy.keyed_resource) Toy.keyed_resource
           (Toy.answer 1 [] (Toy.cols Toy.keyed_resource)) eq_refl).
Defined.


(** ** Full-text search *)

Section TextSearchFacts.
Import Py Quoting Db Where TextSearch.

Variable sa_column : string → string.
Variable str : value → string.
Variable should_fts_index_field_type : string → bool.
Variable default_fts_lang : string.

Local Abbreviation _where_clauses :=
  (Where._where_clauses sa_column str should_fts_index_field_type
     default_fts_lang).
Local Abbreviation q_clauses :=
  (Where.q_clauses should_fts_index_field_type default_fts_lang).

Lemma build_declares (lang : string) (v : value) (plain : bool)
    (field : option string) (statement rank : string) :
  _build_query_and_rank_statements lang v plain field
  = inr (statement, rank) →
  declares (_ts_query_alias field) statement.
Proof.
  unfold _build_query_and_rank_statements.
  destruct v as [| | | |s| | |]; try done. intros [= <- _].
  exists ((if plain then "plainto_tsquery(" else "to_tsquery(")
          +:+ literal_string lang +:+ ", " +:+ literal_string s).
  by rewrite !str_app_assoc.
Qed.

Lemma update_declares (a a' : acc) (lang : string) (v : value)
    (plain : bool) (field : option string) :
  _update_rank_statements_and_columns a lang v plain field = inr a' →
  ∃ statement, a'.1 = a.1 ++ [statement]
               ∧ declares (_ts_query_alias field) statement.
Proof.
  unfold _update_rank_statements_and_columns.
  destruct (_build_query_and_rank_statements lang v plain field)
    as [e|[statement rank]] eqn:Hb; [done|].
  intros [= <-]. exists statement. split; [done|].
  by eapply build_declares.
Qed.

Lemma q_only_loop_declares (lang : string) (plain : bool) (qs : dict value)
    (a a' : acc) :
  q_only_loop lang plain qs a = inr a' →
  (∀ st, st ∈ a.1 → st ∈ a'.1)
  ∧ ∀ field, field ∈ dict_keys qs →
      ∃ st, st ∈ a'.1 ∧ declares (_ts_query_alias (Some field)) st.
Proof.
  revert a. induction qs as [|[field v] qs IH]; intros a; cbn [q_only_loop].
  - intros [= <-]. split; [done|]. intros field Hin. by inversion Hin.
  - destruct (_build_query_and_rank_statements lang v plain (Some field))
      as [e|[statement rank]] eqn:Hb; [done|].
    intros Hloop. destruct (IH _ Hloop) as [Hkeep Hall]. cbn [fst] in Hkeep.
    split.
    + intros st Hst. apply Hkeep, elem_of_app. by left.
    + intros f Hf. unfold dict_keys in Hf. rewrite fmap_cons in Hf.
      apply elem_of_cons in Hf as [->|Hf]; [|by apply Hall].
      exists statement. split; [|by eapply build_declares].
      apply Hkeep, elem_of_app. right. by left.
Qed.

Lemma q_update_loop_declares (lang : string) (plain : bool) (qs : dict value)
    (a a' : acc) :
  q_update_loop lang plain qs a = inr a' →
  (∀ st, st ∈ a.1 → st ∈ a'.1)
  ∧ ∀ field, field ∈ dict_keys qs →
      ∃ st, st ∈ a'.1 ∧ declares (_ts_query_alias (Some field)) st.
Proof.
  revert a. induction qs as [|[field v] qs IH]; intros a;
    cbn [q_update_loop].
  - intros [= <-]. split; [done|]. intros field Hin. by inversion Hin.
  - destruct (_update_rank_statements_and_columns a lang v plain (Some field))
      as [e|a1] eqn:Hu; [done|].
    apply update_declares in Hu as (statement & Ha1 & Hdecl).
    intros Hloop. destruct (IH _ Hloop) as [Hkeep Hall]. rewrite Ha1 in Hkeep.
    split.
    + intros st Hst. apply Hkeep, elem_of_app. by left.
    + intros f Hf. unfold dict_keys in Hf. rewrite fmap_cons in Hf.
      apply elem_of_cons in Hf as [->|Hf]; [|by apply Hall].
      exists statement. split; [|done].
      apply Hkeep, elem_of_app. right. by left.
Qed.

Lemma q_loop_matches (qs : dict value) (fields_types : gmap string string)
    (lang : string) (c : clause) :
  c ∈ Where.q_loop should_fts_index_field_type qs fields_types lang →
  ∃ field, field ∈ dict_keys qs ∧ matches (_ts_query_alias (Some field)) c.
Proof.
  induction qs as [|[field v] qs IH]; cbn [Where.q_loop].
  - intros Hin. by inversion Hin.
  - assert (Hrest : c ∈ Where.q_loop should_fts_index_field_type qs
                          fields_types lang →
                    ∃ f, f ∈ dict_keys ((field, v) :: qs)
                         ∧ matches (_ts_query_alias (Some f)) c).
    { intros Hc. destruct (IH Hc) as (f & Hf & Hm). exists f.
      split; [|done]. unfold dict_keys. rewrite fmap_cons. by right. }
    destruct (fields_types !! field) as [ftyp|]; [|done].
    intros Hc. apply elem_of_app in Hc as [Hc|Hc].
    + destruct (should_fts_index_field_type ftyp); [by inversion Hc|].
      apply list_elem_of_singleton in Hc as ->. exists field.
      split; [unfold dict_keys; rewrite fmap_cons; by left|].
      by exists "_full_text".
    + apply elem_of_cons in Hc as [->|Hc]; [|by apply Hrest].
      exists field. split; [unfold dict_keys; rewrite fmap_cons; by left|].
      exists ("to_tsvector(" +:+ literal_string lang +:+ ", cast("
              +:+ identifier field +:+ " as text))").
      by rewrite !str_app_assoc.
Qed.

(** X6. For a request whose [q] is absent, a string or a dict, every alias
    that a full-text WHERE clause matches against is declared by a statement
    of the text-search part of the FROM list; the per-field clauses come from
    the fields of [q] only. *)
Theorem X6_text_search_aliases_declared (data_dict : request)
    (fields_types : gmap string string) (lang : string) (plain : bool)
    (statements : list string) (rank_columns : dict string) (c : clause) :
  (q data_dict = VNone ∨ (∃ s, q data_dict = VStr s)
   ∨ ∃ qs, q data_dict = VDict qs) →
  statements_and_ranks lang (q data_dict) plain (full_text data_dict)
  = inr (statements, rank_columns) →
  c ∈ q_clauses data_dict fields_types ++ full_text_clauses data_dict →
  ∃ alias statement,
    matches alias c ∧ statement ∈ statements ∧ declares alias statement.
Proof.
  intros Hq Hst Hc. unfold statements_and_ranks in Hst.
  unfold Where.q_clauses, full_text_clauses in Hc.
  destruct (truthy (full_text data_dict)) eqn:Hft.
  - (* full_text is given: its statement declares the plain alias *)
    assert (Hplain : ∀ a : list string, (∃ st, a = [st] ∧ declares (_ts_query_alias None) st)
              → ∀ sts : list string, (∀ st, st ∈ a → st ∈ sts) →
                ∃ alias statement, matches alias
                    (Bare ("_full_text @@ " +:+ _ts_query_alias None))
                  ∧ statement ∈ sts ∧ declares alias statement).
    { intros a (st & -> & Hd) sts Hsub. exists (_ts_query_alias None), st.
      split; [by exists "_full_text"|]. split; [|done].
      apply Hsub. by left. }
    destruct (truthy (q data_dict)) eqn:Htq; cbn [andb negb] in Hst.
    + destruct Hq as [Hq|[[s Hq]|[qs Hq]]]; rewrite Hq in *; [done| |].
      * apply update_declares in Hst as (st & Hs & Hd). cbn [fst app] in Hs.
        apply elem_of_app in Hc as [Hc|Hc];
          apply list_elem_of_singleton in Hc as ->;
          apply (Hplain [st]); try (by exists st); by rewrite Hs.
      * destruct (_update_rank_statements_and_columns ([], []) lang
                    (full_text data_dict) plain None) as [e|a] eqn:Hu; [done|].
        apply update_declares in Hu as (st & Hs & Hd). cbn [fst app] in Hs.
        apply q_update_loop_declares in Hst as [Hkeep Hall]. cbn [fst] in *.
        apply elem_of_app in Hc as [Hc|Hc].
        -- apply q_loop_matches in Hc as (f & Hf & Hm).
           destruct (Hall f Hf) as (st' & Hin & Hd'). by exists (_ts_query_alias (Some f)), st'.
        -- apply list_elem_of_singleton in Hc as ->.
           apply (Hplain a.1); [by exists st|done].
    + apply update_declares in Hst as (st & Hs & Hd). cbn [fst app] in Hs.
      rewrite app_nil_l in Hc. apply list_elem_of_singleton in Hc as ->.
      apply (Hplain [st]); [by exists st|by rewrite Hs].
  - rewrite app_nil_r in Hc.
    destruct (truthy (q data_dict)) eqn:Htq; [|by inversion Hc].
    cbn [andb negb] in Hst.
    destruct Hq as [Hq|[[s Hq]|[qs Hq]]]; rewrite Hq in *; [done| |].
    + destruct (_build_query_and_rank_statements lang (VStr s) plain None)
        as [e|[query rank]] eqn:Hb; [done|].
      injection Hst as <- _. apply list_elem_of_singleton in Hc as ->.
      exists (_ts_query_alias None), query.
      split; [by exists "_full_text"|]. split; [by left|].
      by eapply build_declares.
    + apply q_only_loop_declares in Hst as [_ Hall]. cbn [fst] in Hall.
      apply q_loop_matches in Hc as (f & Hf & Hm).
      destruct (Hall f Hf) as (st' & Hin & Hd'). by exists (_ts_query_alias (Some f)), st'.
Qed.

(** X7. When [full_text] is given, the text of a string [q] is used
    nowhere: the text-search part of the FROM list and the rank columns are
    those of a request without [q], and the WHERE clauses do not depend on
    which text [q] holds. *)
Theorem X7_string_q_unused_with_full_text (data_dict : request)
    (fields_types : gmap string string) (lang : string) (plain : bool)
    (s s' : string) :
  truthy (full_text data_dict) = true →
  s ≠ "" → s' ≠ "" →
  let with_q text :=
    {| filters := filters data_dict; q := VStr text;
       full_text := full_text data_dict; language := language data_dict |} in
  _textsearch_query lang (VStr s) plain (full_text data_dict)
  = _textsearch_query lang VNone plain (full_text data_dict)
  ∧ _where_clauses (with_q s) fields_types
    = _where_clauses (with_q s') fields_types.
Proof.
  intros Hft Hs Hs' with_q. split.
  - unfold _textsearch_query, statements_and_ranks. rewrite Hft.
    cbn [truthy]. by destruct (String.eqb s "").
  - subst with_q. unfold Where._where_clauses, Where.q_clauses.
    cbn [filters q truthy].
    apply String.eqb_neq in Hs, Hs'. by rewrite Hs, Hs'.
Qed.

End TextSearchFacts.

Lemma X6_text_search_aliases_declared_witness :
  let d := {| Where.filters := []; Where.q := Py.VDict [("a", Py.VStr "x")];
              Where.full_text := Py.VStr "y"; Where.language := None |} in
  ∃ alias statement,
    TextSearch.matches alias
      (Where.Bare ("_full_text @@ " +:+ Where._ts_query_alias None))
    ∧ statement ∈ ["plainto_tsquery('english', 'y') "
                   +:+ Where._ts_query_alias None;
                   "plainto_tsquery('english', 'x') "
                   +:+ Where._ts_query_alias (Some "a")]
    ∧ TextSearch.declares alias statement.
Proof.
  intros d.
  apply (X6_text_search_aliases_declared (λ _, true) "english" d
           {["a" := "text"]} "english" true _
           [("rank", "ts_rank(_full_text, "
                     +:+ Where._ts_query_alias None +:+ ", 32)");
            ("rank a", "ts_rank(to_tsvector('english', cast("
                       +:+ Quoting.identifier "a" +:+ " as text)), "
                       +:+ Where._ts_query_alias (Some "a") +:+ ", 32)")]).
  - right. right. by eexists.
  - reflexivity.
  - vm_compute. right. left.
Defined.

Lemma X7_string_q_unused_with_full_text_witness :
  TextSearch._textsearch_query "english" (Py.VStr "cat") true (Py.VStr "dog")
  = TextSearch._textsearch_query "english" Py.VNone true (Py.VStr "dog")
  ∧ Where._where_clauses (λ s, s) (λ _, "") (λ _, true) "english"
      {| Where.filters := []; Where.q := Py.VStr "cat";
         Where.full_text := Py.VStr "dog"; Where.language := None |} ∅
    = Where._where_clauses (λ s, s) (λ _, "") (λ _, true) "english"
        {| Where.filters := []; Where.q := Py.VStr "bird";
           Where.full_text := Py.VStr "dog"; Where.language := None |} ∅.
Proof.
  exact (X7_string_q_unused_with_full_text (λ s, s) (λ _, "") (λ _, true)
           "english"
           {| Where.filters := []; Where.q := Py.VNone;
              Where.full_text := Py.VStr "dog"; Where.language := None |}
           ∅ "english" true "cat" "bird" eq_refl
           ltac:(discriminate) ltac:(discriminate)).
Defined.


(** ** The insert method, and the transaction of [upsert] *)

Section InsertFacts.
Import Py Quoting Db Write Insert.

Variable DB : Type.
Variable engine_execute : DB → statement → dbapi_error + DB * cursor_result.
Variable json_dumps : value → string.
Variable str : value → string.
Variable _programming_error_summary : dbapi_error → string.
Context `{SetOrder}.

Local Abbreviation execute := (Db.execute DB engine_execute).
Local Abbreviation _get_fields := (Write._get_fields DB engine_execute).
Local Abbreviation upsert_data :=
  (Write.upsert_data DB engine_execute json_dumps str
     _programming_error_summary).
Local Abbreviation upsert_data_in_place :=
  (Write.upsert_data_in_place DB engine_execute json_dumps str
     _programming_error_summary).
Local Abbreviation upsert :=
  (Write.upsert DB engine_execute json_dumps str _programming_error_summary).
Local Abbreviation insert_data :=
  (Insert.insert_data DB engine_execute json_dumps str
     _programming_error_summary).
Local Abbreviation row_of := (Insert.row_of json_dumps).
Local Abbreviation insert_rows := (Write.insert_rows json_dumps).

#[local] Instance val_placeholder_inj : Inj (=) (=) val_placeholder.
Proof.
  intros m n Hmn. unfold val_placeholder, fmt_nat in Hmn.
  apply (inj (String.app "val_")) in Hmn. by apply (inj pretty) in Hmn.
Qed.

Lemma row_of_keys (fields : list field) (r : record) :
  dict_keys (row_of fields r) = val_placeholder <$> seq 0 (length fields).
Proof.
  unfold dict_keys, Insert.row_of. rewrite fmap_imap.
  apply (imap_seq_0 fields val_placeholder).
Qed.

Lemma row_of_nodup (fields : list field) (r : record) :
  NoDup (row_of fields r).*1.
Proof.
  pose proof (row_of_keys fields r) as Hk. unfold dict_keys in Hk.
  rewrite Hk. apply (NoDup_fmap_2 val_placeholder), NoDup_seq.
Qed.

Lemma dict_get_elem {A : Type} (k : string) (v : A) (d : dict A) :
  NoDup d.*1 → (k, v) ∈ d → dict_get k d = Some v.
Proof.
  induction d as [|[k' v'] d IH]; [by intros _ ?%elem_of_nil|].
  rewrite fmap_cons, NoDup_cons. cbn [fst dict_get]. intros [Hk Hnd] Hin.
  apply elem_of_cons in Hin as [[= -> ->]|Hin].
  - by rewrite String.eqb_refl.
  - destruct (String.eqb_spec k' k) as [->|Hne]; [|by apply IH].
    exfalso. apply Hk, list_elem_of_fmap. by exists (k, v).
Qed.

Lemma filter_permutation {A : Type} (f : A → bool) (l l' : list A) :
  l ≡ₚ l' → List.filter f l ≡ₚ List.filter f l'.
Proof.
  induction 1 as [|x l l' _ IH|x y l|l1 l2 l3 _ IH1 _ IH2]; cbn [List.filter].
  - done.
  - destruct (f x); by rewrite IH.
  - destruct (f x), (f y); try done. apply perm_swap.
  - by rewrite IH1.
Qed.

(** The keys the error lists are the extra keys of the record, in the order
    of the set. *)
Lemma listed_extra_keys_permutation (field_names : list string) (r : record) :
  listed_extra_keys field_names r ≡ₚ extra_keys field_names r.
Proof.
  unfold listed_extra_keys, extra_keys.
  rewrite list_of_set_permutation.
  apply filter_permutation, list_of_set_permutation.
Qed.

Lemma validate_record_extra (r : record) (num : nat)
    (field_names : list string) :
  _validate_record r num field_names
  = match extra_keys field_names r with
    | [] => None
    | _ :: _ =>
        Some (error1 "records"
                ("row " +:+ quoted (fmt_nat (num + 1)) +:+ " has extra keys "
                 +:+ quoted (join ", " (listed_extra_keys field_names r))))
    end.
Proof.
  unfold _validate_record, listed_extra_keys.
  assert (Hp : List.filter (λ k, negb (bool_decide (k ∈ field_names)))
                           (list_of_set (dict_keys r))
               ≡ₚ extra_keys field_names r)
    by apply filter_permutation, list_of_set_permutation.
  destruct (List.filter _ (list_of_set (dict_keys r))) as [|k ks].
  - symmetry in Hp. apply Permutation_nil_r in Hp. by rewrite Hp.
  - destruct (extra_keys field_names r); [|done].
    symmetry in Hp. by apply Permutation_nil_cons in Hp.
Qed.

Lemma insert_rows_ok (fields : list field) (field_names : list string)
    (num : nat) (rs : list record) :
  Forall (λ r, extra_keys field_names r = []) rs →
  insert_rows fields field_names num rs = inr (row_of fields <$> rs).
Proof.
  revert num. induction rs as [|r rs IH]; intros num Hok; [done|].
  apply Forall_cons in Hok as [Hr Hrs]. cbn [Write.insert_rows].
  rewrite validate_record_extra, Hr, (IH _ Hrs), fmap_cons.
  do 2 f_equal. exact (dict_of_pairs_nodup _ (row_of_nodup fields r)).
Qed.

Lemma insert_rows_extra (fields : list field) (field_names : list string)
    (num : nat) (pre post : list record) (r : record) :
  Forall (λ r, extra_keys field_names r = []) pre →
  extra_keys field_names r ≠ [] →
  insert_rows fields field_names num (pre ++ r :: post)
  = inl (error1 "records"
           ("row " +:+ quoted (fmt_nat (num + length pre + 1))
            +:+ " has extra keys "
            +:+ quoted (join ", " (listed_extra_keys field_names r)))).
Proof.
  revert num. induction pre as [|r0 pre IH]; intros num Hok Hbad.
  - cbn [app Write.insert_rows length]. rewrite validate_record_extra.
    rewrite Nat.add_0_r. by destruct (extra_keys field_names r).
  - apply Forall_cons in Hok as [Hr Hpre]. cbn [app Write.insert_rows].
    rewrite validate_record_extra, Hr, (IH (S num) Hpre Hbad).
    cbn [length]. by replace (S num + length pre) with (num + S (length pre))
      by lia.
Qed.

(** What [insert_data] does once the columns are read. *)
Lemma insert_data_unfold (data_dict : request) (r : record)
    (rs : list record) (fields : list field) (c c1 : connection DB) :
  records data_dict = Some (r :: rs) →
  _get_fields (resource_id data_dict) c = (inr fields, c1) →
  fields ≠ [] →
  insert_data data_dict c
  = match insert_rows fields (id <$> fields) 0 (r :: rs) with
    | inl e => (inl e, c1)
    | inr rows =>
        (Db.try_except
           (execute (Text (insert_sql (resource_id data_dict) (id <$> fields))
                          (Many rows)))
           (records_error DB _programming_error_summary
              (Z.of_nat (length (r :: rs)) - 1))
         ≫= λ _, mret tt) c1
    end.
Proof.
  intros Hrs Hf Hne. unfold Insert.insert_data. rewrite upsert_data_result.
  unfold Write.upsert_data_in_place.
  cbn [records resource_id method]. rewrite Hrs.
  unfold mbind at 1, M_bind at 1, bind at 1. rewrite Hf.
  rewrite sql_columns_nonempty by (by destruct fields).
  cbn [default from_option id]. rewrite String.eqb_refl.
  destruct (insert_rows fields (id <$> fields) 0 (r :: rs)); [done|].
  unfold mbind, M_bind, bind.
  by destruct (try_except _ _ c1) as [[e|res] c2].
Qed.

(** X8. [insert_data] sends all the records in one INSERT, whatever method
    the request names: the statement, which is written out here, lists every
    column of the resource and one placeholder for each, and every record is
    bound as one row that holds exactly the placeholders of the statement,
    the value of a column being that of the record under the column's name
    ([None] when the record has no such key). *)
Theorem X8_insert_binds_every_column (data_dict : request)
    (c c1 : connection DB) (fields : list field) (r : record)
    (rs : list record) (db' : DB) (res : cursor_result) :
  records data_dict = Some (r :: rs) →
  _get_fields (resource_id data_dict) c = (inr fields, c1) →
  fields ≠ [] →
  Forall (λ r, extra_keys (id <$> fields) r = []) (r :: rs) →
  let rows := row_of fields <$> r :: rs in
  let stmt :=
    Text ("INSERT INTO " +:+ identifier (resource_id data_dict)
          +:+ " (" +:+ join ", " ((λ f, identifier (id f)) <$> fields)
          +:+ ")" +:+ newline +:+ "            VALUES ("
          +:+ join ", " ((λ j, ":" +:+ val_placeholder j)
                         <$> seq 0 (length fields)) +:+ ");")
         (Many rows) in
  engine_execute (current c1) stmt = inr (db', res) →
  ∃ c', insert_data data_dict c = (inr tt, c')
        ∧ executed c' = executed c1 ++ [stmt]
        ∧ current c' = db'
        ∧ Forall (λ row, dict_keys row
                         = val_placeholder <$> seq 0 (length fields)) rows
        ∧ ∀ i record j f,
            (r :: rs) !! i = Some record → fields !! j = Some f →
            ∃ row, rows !! i = Some row
                   ∧ dict_get (val_placeholder j) row
                     = Some (marshal json_dumps f (get (id f) record)).
Proof.
  intros Hrs Hf Hne Hok rows stmt He.
  rewrite (insert_data_unfold _ _ _ _ _ _ Hrs Hf Hne), (insert_rows_ok _ _ _ _ Hok).
  fold rows. unfold insert_sql. rewrite <- list_fmap_compose, length_fmap.
  change (Text _ (Many rows)) with stmt.
  unfold mbind, M_bind, bind, try_except, Db.execute. rewrite He.
  eexists. split; [done|]. split; [done|]. split; [done|]. split.
  - apply Forall_fmap, Forall_true. intros r'. apply row_of_keys.
  - intros i record j f Hi Hj. exists (row_of fields record).
    split; [unfold rows; by rewrite list_lookup_fmap, Hi|].
    apply dict_get_elem; [apply row_of_nodup|].
    apply list_elem_of_lookup. exists j. unfold Insert.row_of.
    by rewrite list_lookup_imap, Hj.
Qed.

(** X9. A record with a key that names no column makes [insert_data] raise
    the validation error of that record, counted from one; the records are
    all checked before the INSERT, so nothing is executed after the query for
    the columns, wherever the record stands in the list.  (The error lists
    the extra keys in the order of a set, which is not that of the
    record.) *)
Theorem X9_insert_extra_keys_write_nothing (data_dict : request)
    (c c1 : connection DB) (fields : list field) (pre post : list record)
    (r : record) :
  records data_dict = Some (pre ++ r :: post) →
  _get_fields (resource_id data_dict) c = (inr fields, c1) →
  fields ≠ [] →
  Forall (λ r, extra_keys (id <$> fields) r = []) pre →
  extra_keys (id <$> fields) r ≠ [] →
  ∃ listed, listed ≡ₚ extra_keys (id <$> fields) r
    ∧ insert_data data_dict c
      = (inl (error1 "records"
                ("row " +:+ quoted (fmt_nat (length pre + 1))
                 +:+ " has extra keys " +:+ quoted (join ", " listed))), c1).
Proof.
  intros Hrs Hf Hne Hok Hbad. exists (listed_extra_keys (id <$> fields) r).
  split; [apply listed_extra_keys_permutation|].
  destruct (pre ++ r :: post) as [|r0 rs0] eqn:Hl; [by destruct pre|].
  rewrite (insert_data_unfold _ _ _ _ _ _ Hrs Hf Hne), <- Hl.
  by rewrite (insert_rows_extra _ _ _ _ _ _ Hok Hbad).
Qed.

Lemma close_discards (db : DB) (c : connection DB) :
  committed c = db → in_transaction c = true →
  Write.discarded DB db (close c).
Proof.
  intros Hc Ht. unfold Write.discarded, close. rewrite Ht. by cbn.
Qed.

(** A validation error inside [upsert_data] comes out of [upsert] as it
    is, and nothing persists. *)
Lemma upsert_raises_validation (timeout : N) (data_dict : request) (db : DB)
    (r0 : cursor_result) (c1 c2 : connection DB) (error_dict : dict value) :
  execute (Text ("SET LOCAL statement_timeout TO " +:+ pretty timeout)
                NoParams) (begin (connect db)) = (inr r0, c1) →
  upsert_data data_dict c1 = (inl (ValidationError error_dict), c2) →
  ∃ c', upsert timeout data_dict (connect db)
        = (inl (ValidationError error_dict), c')
        ∧ Write.discarded DB db c'.
Proof.
  intros Hset Hdata.
  pose proof (keeps_execute DB engine_execute
                (Text ("SET LOCAL statement_timeout TO " +:+ pretty timeout)
                      NoParams) (begin (connect db))) as (Hc1 & _).
  pose proof (keeps_upsert_data DB engine_execute json_dumps str
                _programming_error_summary data_dict c1) as (Hc2 & _).
  rewrite Hset in Hc1. rewrite Hdata in Hc2. cbn [snd] in Hc1, Hc2.
  rewrite upsert_data_result in Hdata.
  destruct (upsert_data_in_place data_dict c1) as [[e|d] c3] eqn:Hip;
    [|done].
  injection Hdata as -> ->.
  unfold Write.upsert.
  unfold mbind at 1, M_bind at 1, bind at 1, lift at 1.
  unfold try_finally, try_except.
  unfold mbind at 1, M_bind at 1, bind at 1. rewrite Hset.
  unfold mbind at 1, M_bind at 1, bind at 1. rewrite Hip.
  cbn [upsert_handler].
  unfold mbind, M_bind, bind, lift, raise. eexists. split; [done|].
  unfold Write.discarded, close, rollback; cbn. by rewrite Hc2, Hc1.
Qed.

(** X10. A database error of the engine on the INSERT, a violated unique
    constraint included, comes out of [upsert] as a validation error under
    [records] that carries the summary of the error and the index of the
    last record; the clause of [upsert] for unique violations is not reached,
    and nothing persists. *)
Theorem X10_insert_database_error_reported (timeout : N)
    (data_dict : request) (db : DB) (r : record) (rs : list record)
    (fields : list field) (c1 c2 : connection DB) (r0 : cursor_result)
    (err : dbapi_error) :
  method data_dict = Some _INSERT →
  records data_dict = Some (r :: rs) →
  execute (Text ("SET LOCAL statement_timeout TO " +:+ pretty timeout)
                NoParams) (begin (connect db)) = (inr r0, c1) →
  _get_fields (resource_id data_dict) c1 = (inr fields, c2) →
  fields ≠ [] →
  Forall (λ r, extra_keys (id <$> fields) r = []) (r :: rs) →
  engine_execute (current c2)
    (Text (insert_sql (resource_id data_dict) (id <$> fields))
          (Many (row_of fields <$> r :: rs))) = inl err →
  isinstance_DatabaseError err = true →
  ∃ c', upsert timeout data_dict (connect db)
        = (inl (ValidationError
                  [("records", VList [VStr (_programming_error_summary err)]);
                   ("records_row", VInt (Z.of_nat (length rs)))]), c')
        ∧ Write.discarded DB db c'.
Proof.
  intros Hm Hrs Hset Hf Hne Hok He Hdb.
  assert (Hrun : ∃ c3, upsert_data data_dict c1
            = (inl (ValidationError
                      [("records",
                        VList [VStr (_programming_error_summary err)]);
                       ("records_row", VInt (Z.of_nat (length rs)))]), c3)).
  { assert (Hd : upsert_data data_dict = insert_data data_dict)
      by (destruct data_dict; cbn in *; by subst).
    rewrite Hd, (insert_data_unfold _ _ _ _ _ _ Hrs Hf Hne),
      (insert_rows_ok _ _ _ _ Hok).
    unfold mbind, M_bind, bind, try_except, Db.execute. rewrite He.
    unfold records_error. rewrite Hdb. unfold raise.
    replace (Z.of_nat (length (r :: rs)) - 1)%Z with (Z.of_nat (length rs))
      by (cbn [length]; lia).
    by eexists. }
  destruct Hrun as [c3 Hrun].
  by apply (upsert_raises_validation _ _ _ _ _ _ _ Hset Hrun).
Qed.

(** What the body of [upsert_data] returns: the request, with the records
    as the loop of update and upsert has rewritten them. *)
Lemma upsert_data_in_place_returns (data_dict answer : request)
    (c c' : connection DB) :
  upsert_data_in_place data_dict c = (inr answer, c') →
  resource_id answer = resource_id data_dict
  ∧ method answer = method data_dict
  ∧ dry_run answer = dry_run data_dict
  ∧ match records data_dict with
    | None | Some [] => records answer = records data_dict
    | Some rs =>
        if String.eqb (default _UPSERT (method data_dict)) _UPDATE
           || String.eqb (default _UPSERT (method data_dict)) _UPSERT
        then ∃ fields c1,
               _get_fields (resource_id data_dict) c = (inr fields, c1)
               ∧ records answer
                 = Some (marshal_record json_dumps fields <$> rs)
        else records answer = Some rs
    end.
Proof.
  unfold Write.upsert_data_in_place.
  destruct (records data_dict) as [[|r rs]|] eqn:Hrs;
    try (by intros [= <- <-]).
  unfold mbind at 1, M_bind at 1, bind at 1.
  destruct (_get_fields (resource_id data_dict) c) as [[e|fields] c1] eqn:Hf;
    [done|].
  set (meth := default _UPSERT (method data_dict)).
  destruct (String.eqb (join ", " (identifier <$> (id <$> fields))) "")
    eqn:Hcols.
  { intros [= <- <-]. rewrite Hrs. repeat split; try done.
    destruct (String.eqb meth _UPDATE || String.eqb meth _UPSERT); [|done].
    exists fields, c1. split; [done|].
    destruct fields as [|f fields];
      [by rewrite list_fmap_id | by rewrite sql_columns_nonempty in Hcols]. }
  destruct (String.eqb_spec meth _INSERT) as [Hins|Hins].
  { rewrite Hins. destruct (insert_rows _ _ _ _) as [e|rows]; [done|].
    unfold mbind, M_bind, bind.
    destruct (try_except _ _ c1) as [[e|res] c2]; [done|].
    intros [= <- <-]. by rewrite Hrs. }
  destruct (String.eqb meth _UPDATE || String.eqb meth _UPSERT); cycle 1.
  { intros [= <- <-]. by rewrite Hrs. }
  unfold mbind, M_bind, bind.
  destruct (Write._get_unique_key DB engine_execute _ c1) as [[e|uks] c2];
    [done|].
  destruct (for_each _ 0 (r :: rs) c2) as [[e|[]] c3]; [done|].
  intros [= <- <-]. repeat split; try done. by exists fields, c1.
Qed.

Lemma upsert_unfold (timeout : N) (data_dict : request) (c0 : connection DB) :
  upsert timeout data_dict c0
  = match (_ ← execute (Text ("SET LOCAL statement_timeout TO "
                              +:+ pretty timeout) NoParams);
           upsert_data_in_place data_dict) (begin c0) with
    | (inl e, c) =>
        ((upsert_handler DB e c).1, close (upsert_handler DB e c).2)
    | (inr answer, c) =>
        (inr answer,
         close ((if dry_run answer then rollback else commit) c))
    end.
Proof.
  unfold Write.upsert, try_finally, try_except.
  unfold mbind, M_bind, bind, lift, mret, M_ret, ret.
  destruct (execute _ (begin c0)) as [[e|r0] c1].
  - by destruct (upsert_handler DB e c1).
  - destruct (upsert_data_in_place data_dict c1) as [[e|answer] c2]; [|done].
    by destruct (upsert_handler DB e c2).
Qed.

Lemma upsert_handler_raises (e : exn) (c : connection DB) :
  ∃ e', upsert_handler DB e c = (inl e', c)
        ∨ upsert_handler DB e c = (inl e', rollback c).
Proof.
  unfold upsert_handler, raise.
  destruct e as [ed|msg|err|cl]; try (eexists; right; reflexivity).
  destruct (cls err); try (destruct (bool_decide _));
    eexists; left; reflexivity.
Qed.

Lemma upsert_inner_keeps (timeout : N) (data_dict : request) (db : DB) :
  let after :=
    ((_ ← execute (Text ("SET LOCAL statement_timeout TO "
                         +:+ pretty timeout) NoParams);
      upsert_data_in_place data_dict) (begin (connect db))).2 in
  committed after = db ∧ in_transaction after = true.
Proof.
  intros after. subst after.
  set (inner := (_ ← execute (Text ("SET LOCAL statement_timeout TO "
                                    +:+ pretty timeout) NoParams);
                 upsert_data_in_place data_dict) : M DB request).
  assert (Hkeep : keeps_transaction DB inner).
  { apply keeps_bind; [apply keeps_execute|]. intros _.
    apply keeps_upsert_data_in_place. }
  destruct (Hkeep (begin (connect db))) as (Hc & Ht & _). by split.
Qed.

(** X11. [upsert] is all or nothing: the connection is closed with no
    transaction open, a call that raises leaves the committed data as it
    found them, and so does a dry run; a call that returns without [dry_run]
    has committed the state its statements produced.  It returns the
    request with the records as the loop of update and upsert has rewritten
    them in place (a nested value as the pair of its JSON text and the empty
    string, an empty string outside a text column as [None]), from the
    columns that [_get_fields] reported; for another method the records are
    as they were.  The requests are those of the write path, which carry no
    [fields] entry: the renaming of [nested] in the answer, which comes
    after the commit, has nothing to walk. *)
Theorem X11_upsert_all_or_nothing (timeout : N) (data_dict : request)
    (db : DB) :
  let result := upsert timeout data_dict (connect db) in
  let meth := default _UPSERT (method data_dict) in
  closed result.2 = true
  ∧ in_transaction result.2 = false
  ∧ match result.1 with
    | inl _ => committed result.2 = db
    | inr answer =>
        committed result.2
        = (if dry_run data_dict then db else current result.2)
        ∧ resource_id answer = resource_id data_dict
        ∧ method answer = method data_dict
        ∧ dry_run answer = dry_run data_dict
        ∧ match records data_dict with
          | None | Some [] => records answer = records data_dict
          | Some rs =>
              if String.eqb meth _UPDATE || String.eqb meth _UPSERT
              then ∃ r0 c1 c2 fields,
                     execute (Text ("SET LOCAL statement_timeout TO "
                                    +:+ pretty timeout) NoParams)
                             (begin (connect db)) = (inr r0, c1)
                     ∧ _get_fields (resource_id data_dict) c1
                       = (inr fields, c2)
                     ∧ records answer
                       = Some (marshal_record json_dumps fields <$> rs)
              else records answer = Some rs
          end
    end.
Proof.
  intros result meth. subst result. rewrite upsert_unfold.
  destruct (upsert_inner_keeps timeout data_dict db) as [Hc Ht].
  destruct ((_ ← execute _; upsert_data_in_place data_dict)
              (begin (connect db))) as [[e|answer] c] eqn:Hrun;
    cbn [fst snd] in *.
  - destruct (upsert_handler_raises e c) as (e' & [-> | ->]); cbn [fst snd];
      unfold close, rollback; cbn; rewrite ?Ht; cbn; by rewrite ?Hc.
  - assert (Hip : ∃ r0 c1,
        execute (Text ("SET LOCAL statement_timeout TO " +:+ pretty timeout)
                      NoParams) (begin (connect db)) = (inr r0, c1)
        ∧ upsert_data_in_place data_dict c1 = (inr answer, c)).
    { unfold mbind, M_bind, bind in Hrun.
      destruct (execute _ (begin (connect db))) as [[e|r0] c1]; [done|].
      by exists r0, c1. }
    destruct Hip as (r0 & c1 & Hset & Hip).
    destruct (upsert_data_in_place_returns _ _ _ _ Hip)
      as (Hrid & Hmeth & Hdry & Hrecs).
    rewrite Hdry. split; [|split; [|split]].
    + by destruct (dry_run data_dict).
    + by destruct (dry_run data_dict).
    + destruct (dry_run data_dict); unfold close, rollback, commit; cbn;
        by rewrite ?Hc.
    + split; [done|]. split; [done|]. split; [done|].
      destruct (records data_dict) as [[|r rs]|]; try done.
      fold meth in Hrecs.
      destruct (String.eqb meth _UPDATE || String.eqb meth _UPSERT); [|done].
      destruct Hrecs as (fields & c2 & Hf & Hrecs). by exists r0, c1, c2, fields.
Qed.

(** The body of [upsert_data] does not read [dry_run]: two requests that
    differ in it only run alike, and raise alike. *)
Lemma rehearsal_same_run (d1 d2 : request) :
  resource_id d1 = resource_id d2 → records d1 = records d2 →
  method d1 = method d2 →
  ∀ c, match (upsert_data_in_place d1 c).1, (upsert_data_in_place d2 c).1 with
       | inl e1, inl e2 => inl e1 = inl (B:=unit) e2
       | inr _, inr _ => True
       | _, _ => False
       end
       ∧ (upsert_data_in_place d1 c).2 = (upsert_data_in_place d2 c).2.
Proof.
  intros Hrid Hrs Hm c. unfold Write.upsert_data_in_place.
  rewrite Hrid, Hrs, Hm.
  destruct (records d2) as [[|r rs]|]; try done.
  unfold mbind, M_bind, bind.
  destruct (_get_fields (resource_id d2) c) as [[e|fields] c1]; [done|].
  destruct (String.eqb _ ""); [done|].
  destruct (String.eqb _ _INSERT).
  { destruct (insert_rows _ _ _ _) as [e|rows]; [done|].
    by destruct (try_except _ _ c1) as [[e|res] c2]. }
  destruct (_ || _); [|done].
  destruct (Write._get_unique_key DB engine_execute _ c1) as [[e|uks] c2];
    [done|].
  by destruct (for_each _ 0 (r :: rs) c2) as [[e|[]] c3].
Qed.

(** X12. A dry run has the outcome of the call it rehearses: it raises the
    same error when that call raises, and returns when it returns; and it
    commits nothing. *)
Theorem X12_dry_run_same_outcome (timeout : N) (data_dict : request)
    (db : DB) :
  let rehearsal :=
    {| resource_id := resource_id data_dict; records := records data_dict;
       method := method data_dict; dry_run := true |} in
  match (upsert timeout data_dict (connect db)).1,
        (upsert timeout rehearsal (connect db)).1 with
  | inl e, inl e' => e = e'
  | inr _, inr _ => True
  | _, _ => False
  end
  ∧ committed (upsert timeout rehearsal (connect db)).2 = db.
Proof.
  intros rehearsal. split.
  - rewrite !upsert_unfold.
    pose proof (rehearsal_same_run rehearsal data_dict eq_refl eq_refl eq_refl)
      as Hsame.
    unfold mbind, M_bind, bind in *.
    destruct (execute _ (begin (connect db))) as [[e|r0] c1].
    { by destruct (upsert_handler_raises e c1) as (e' & [-> | ->]). }
    specialize (Hsame c1).
    destruct (upsert_data_in_place data_dict c1) as [[e|answer] c];
      destruct (upsert_data_in_place rehearsal c1) as [[e2|answer2] c2];
      cbn [fst snd] in Hsame; destruct Hsame as [Hres Hconn]; try done.
    injection Hres as ->. subst c2.
    by destruct (upsert_handler_raises e c) as (e' & [-> | ->]).
  - rewrite upsert_unfold.
    destruct (upsert_inner_keeps timeout rehearsal db) as [Hc Ht].
    destruct ((_ ← execute _; upsert_data_in_place rehearsal)
                (begin (connect db))) as [[e|answer] c] eqn:Hrun;
      cbn [fst snd] in *.
    + destruct (upsert_handler_raises e c) as (e' & [-> | ->]); cbn [fst snd];
        unfold close, rollback; cbn; rewrite ?Ht; cbn; by rewrite ?Hc.
    + assert (Hdry : dry_run answer = true).
      { unfold mbind, M_bind, bind in Hrun.
        destruct (execute _ (begin (connect db))) as [[e|r0] c1]; [done|].
        by destruct (upsert_data_in_place_returns _ _ _ _ Hrun)
          as (_ & _ & -> & _). }
      rewrite Hdry. unfold close, rollback; by cbn.
Qed.

End InsertFacts.

Section InsertExamples.
Import Py Db Write Insert.
#[local] Existing Instance Toy.insertion_order.

Lemma X8_insert_binds_every_column_witness :
  let d := Toy.request_of "upsert" [[("a", VStr "x")]; []] in
  ∃ c', Insert.insert_data Toy.table Toy.engine_execute Toy.str Toy.str
          Toy.summary d (connect Toy.empty_resource) = (inr tt, c')
        ∧ last (executed c')
          = Some (Text ("INSERT INTO " +:+ quoted "res" +:+ " ("
                        +:+ quoted "a" +:+ ")" +:+ newline
                        +:+ "            VALUES (:val_0);")
                       (Many [[("val_0", VStr "x")]; [("val_0", VNone)]])).
Proof.
  intros d.
  edestruct (X8_insert_binds_every_column Toy.table Toy.engine_execute
               Toy.str Toy.str Toy.summary d (connect Toy.empty_resource))
    as (c' & Hrun & Hex & _);
    [reflexivity|reflexivity|discriminate|repeat constructor|reflexivity|].
  exists c'. split; [exact Hrun|]. rewrite Hex. reflexivity.
Defined.

Lemma X9_insert_extra_keys_write_nothing_witness :
  let d := Toy.request_of "insert" [[("a", VStr "x")]; [("zz", VInt 1)]] in
  ∃ c', Insert.insert_data Toy.table Toy.engine_execute Toy.str Toy.str
          Toy.summary d (connect Toy.empty_resource)
        = (inl (error1 "records"
                  ("row " +:+ quoted "2" +:+ " has extra keys "
                   +:+ quoted "zz")), c')
        ∧ executed c' = [SelectAllLimit1 "res"].
Proof.
  intros d.
  edestruct (X9_insert_extra_keys_write_nothing Toy.table Toy.engine_execute
               Toy.str Toy.str Toy.summary d (connect Toy.empty_resource)
               {| committed := Toy.empty_resource;
                  current := Toy.empty_resource; in_transaction := false;
                  closed := false; executed := [SelectAllLimit1 "res"] |}
               [{| id := "a"; type := "text" |}]
               [[("a", VStr "x")]] [] [("zz", VInt 1)])
    as (listed & Hperm & Hrun);
    [reflexivity|reflexivity|discriminate|repeat constructor|discriminate|].
  apply Permutation_singleton_r in Hperm. subst listed.
  eexists. split; [exact Hrun|reflexivity].
Defined.

Lemma X10_insert_database_error_reported_witness :
  ∃ c', ToyUnique.upsert 60000
          (Toy.request_of "insert" [[("a", VStr "x")]; [("a", VStr "x")]])
          (connect Toy.empty_resource)
        = (inl (ValidationError
                  [("records",
                    VList [VStr "(IntegrityError) duplicate key value"]);
                   ("records_row", VInt 1)]), c')
        ∧ Write.discarded Toy.table Toy.empty_resource c'.
Proof.
  edestruct (X10_insert_database_error_reported Toy.table
               ToyUnique.engine_execute Toy.str Toy.str Toy.summary 60000
               (Toy.request_of "insert" [[("a", VStr "x")]; [("a", VStr "x")]])
               Toy.empty_resource [("a", VStr "x")] [[("a", VStr "x")]])
    as (c' & Hrun & Hd);
    [reflexivity|reflexivity|reflexivity|reflexivity|discriminate
    |repeat constructor|reflexivity|reflexivity|].
  exists c'. split; [exact Hrun|exact Hd].
Defined.

Example upsert_dry_run_commits_nothing :
  let d := {| resource_id := "res"; records := Some [[("a", VStr "x")]];
              method := Some "insert"; dry_run := true |} in
  let result := Toy.upsert 60000 d (connect Toy.keyed_resource) in
  result.1 = inr d
  ∧ committed result.2 = Toy.keyed_resource
  ∧ executed result.2
    = [Text "SET LOCAL statement_timeout TO 60000" NoParams;
       SelectAllLimit1 "res";
       Text (insert_sql "res" ["a"; "b"])
            (Many [[("val_0", VStr "x"); ("val_1", VNone)]])].
Proof. vm_compute. repeat split. Qed.

(** An update that sends the empty string for an integer column: the
    request comes back with [None] in its place. *)
Example upsert_returns_rewritten_records :
  let t := {| Toy.cols := [("_id", "int4"); ("_full_text", "tsvector");
                           ("n", "int4")];
              Toy.unique := []; Toy.hits := 1; Toy.version := 0 |} in
  (Toy.upsert 60000
     (Toy.request_of "update" [[("_id", VInt 1); ("n", VStr "")]])
     (connect t)).1
  = inr (Toy.request_of "update" [[("_id", VInt 1); ("n", VNone)]]).
Proof. reflexivity. Qed.

End InsertExamples.


(** ** SQL passthrough: what is refused, and the connection *)

Section PassthroughFacts.
Import Py Quoting Db Search.

Variable DB : Type.
Variable engine_execute : DB → statement → dbapi_error + DB * cursor_result.
Variable json_loads : value → value.
Variable str : value → string.
Variable rows_max : nat.
Variable get_names : string → Db.M DB (list string * list string).
Variable check_access : list string → Db.M DB unit.
Variable allowed_sql_functions : list string.

Local Abbreviation execute := (Db.execute DB engine_execute).
Local Abbreviation search_sql :=
  (Search.search_sql DB engine_execute json_loads str rows_max get_names
     check_access allowed_sql_functions).
Local Abbreviation wrapped_sql := (Search.wrapped_sql rows_max).
Local Abbreviation function_allowed :=
  (Search.function_allowed allowed_sql_functions).
Local Abbreviation check_functions :=
  (Search.check_functions DB allowed_sql_functions).
Local Abbreviation keeps := (keeps_transaction DB).

(** X13. A query that reads a table whose name starts with [pg_] is refused
    as not authorized: the access check of the caller is not consulted, and
    nothing is executed after the extraction of the names, the query least
    of all. *)
Theorem X13_search_sql_refuses_system_tables (timeout : N) (sql : string)
    (data_dict : dict value) (c c1 c2 : connection DB) (r0 : cursor_result)
    (table_names function_names : list string) :
  execute (Text ("SET LOCAL statement_timeout TO " +:+ pretty timeout)
                NoParams) c = (inr r0, c1) →
  get_names (wrapped_sql sql) c1 = (inr (table_names, function_names), c2) →
  existsb (String.prefix "pg_") table_names = true →
  search_sql timeout sql data_dict c
  = (inl (NotAuthorized "Not authorized to access system tables"), close c2).
Proof.
  intros Hset Hnames Hpg. unfold Search.search_sql, try_finally, try_except.
  unfold mbind, M_bind, bind. by rewrite Hset, Hnames, Hpg.
Qed.

Lemma check_functions_refuses (pre post : list string) (f : string)
    (c : connection DB) :
  forallb function_allowed pre = true →
  function_allowed f = false →
  check_functions (pre ++ f :: post) c
  = (inl (NotAuthorized ("Not authorized to call function " +:+ f)), c).
Proof.
  intros Hpre Hf. induction pre as [|g pre IH]; cbn [app check_functions].
  - by rewrite Hf.
  - cbn [forallb] in Hpre. apply andb_true_iff in Hpre as [-> Hpre].
    by apply IH.
Qed.

(** X14. A query that calls a function of which neither the lowercased name
    nor the name in double quotes is among the allowed functions is refused
    as not authorized, with the name of the first such function; the query
    is not executed. *)
Theorem X14_search_sql_refuses_functions (timeout : N) (sql : string)
    (data_dict : dict value) (c c1 c2 c3 : connection DB) (r0 : cursor_result)
    (table_names pre post : list string) (f : string) :
  execute (Text ("SET LOCAL statement_timeout TO " +:+ pretty timeout)
                NoParams) c = (inr r0, c1) →
  get_names (wrapped_sql sql) c1 = (inr (table_names, pre ++ f :: post), c2) →
  existsb (String.prefix "pg_") table_names = false →
  check_access table_names c2 = (inr tt, c3) →
  forallb function_allowed pre = true →
  function_allowed f = false →
  search_sql timeout sql data_dict c
  = (inl (NotAuthorized ("Not authorized to call function " +:+ f)),
     close c3).
Proof.
  intros Hset Hnames Hpg Hacc Hpre Hf.
  unfold Search.search_sql, try_finally, try_except.
  unfold mbind, M_bind, bind. rewrite Hset, Hnames, Hpg, Hacc.
  by rewrite (check_functions_refuses _ _ _ _ Hpre Hf).
Qed.

Lemma keeps_check_functions (function_names : list string) :
  keeps (check_functions function_names).
Proof.
  induction function_names as [|f fs IH]; cbn [Search.check_functions];
    [apply keeps_ret|].
  destruct (function_allowed f); [done|apply keeps_raise].
Qed.

Lemma keeps_format_results (results : cursor_result) (d : dict value) :
  keeps (format_results DB json_loads str results d).
Proof.
  unfold format_results. apply keeps_bind;
    [|intros d'; destruct (_unrename_json_field _);
      [apply keeps_raise|apply keeps_ret]].
  destruct (truthy _); [|apply keeps_ret].
  destruct (_ <$> rows results); [apply keeps_raise|apply keeps_ret].
Qed.

Lemma keeps_search_sql_handler (e : exn) : keeps (search_sql_handler DB e).
Proof.
  intros c. destruct (search_sql_handler_raises DB e c) as [e' ->]. by cbn.
Qed.

(** X15. [search_sql] commits nothing and always closes its connection,
    whether it returns or raises, as long as the extraction of the names and
    the access check of the caller commit nothing themselves. *)
Theorem X15_search_sql_closes_and_keeps (timeout : N) (sql : string)
    (data_dict : dict value) (c : connection DB) :
  (∀ s, keeps (get_names s)) →
  (∀ names, keeps (check_access names)) →
  let result := search_sql timeout sql data_dict c in
  closed result.2 = true
  ∧ in_transaction result.2 = false
  ∧ committed result.2 = committed c.
Proof.
  intros Hnames Hacc result. subst result.
  unfold Search.search_sql, try_finally.
  set (body := try_except _ _).
  assert (Hkeep : keeps body).
  { apply keeps_try_except; [|apply keeps_search_sql_handler].
    apply keeps_bind; [apply keeps_execute|]. intros _.
    apply keeps_bind; [apply Hnames|]. intros [table_names function_names].
    destruct (existsb _ table_names); [apply keeps_raise|].
    apply keeps_bind; [apply Hacc|]. intros _.
    apply keeps_bind; [apply keeps_check_functions|]. intros _.
    apply keeps_bind; [apply keeps_execute|]. intros results.
    apply keeps_format_results. }
  destruct (Hkeep c) as (Hc & Ht & Hcl).
  destruct (body c) as [r c']. cbn [snd] in *.
  unfold close. destruct (in_transaction c'); cbn; by rewrite ?Hc.
Qed.

End PassthroughFacts.

Section ConfigFacts.
Import Py Quoting Search Config.





Example allowed_function_entries_example :
  let allowed :=
    allowed_sql_functions
      ["  Upper" +:+ String "010"%char ""; str1 dquote +:+ "MyFunc"
                                           +:+ str1 dquote] in
  function_allowed allowed "UPPER" = true
  ∧ function_allowed allowed "MyFunc" = true
  ∧ function_allowed allowed "myfunc" = false.
Proof. vm_compute. repeat split. Qed.

End ConfigFacts.

Section PassthroughExamples.
Import Py Db Search.

Lemma X13_search_sql_refuses_system_tables_witness :
  ∃ c', Search.search_sql (list Z) (ToyRead.rows_engine 3) (λ v, v)
          ToyRead.str 2 (λ _, mret (["pg_user"], [])) (λ _, mret ()) []
          60000 "SELECT usename FROM pg_user" [] (connect [1; 2]%Z)
        = (inl (NotAuthorized "Not authorized to access system tables"), c')
        ∧ executed c'
          = [Text "SET LOCAL statement_timeout TO 60000" NoParams].
Proof.
  eexists. split.
  - eapply (X13_search_sql_refuses_system_tables (list Z)
             (ToyRead.rows_engine 3) (λ v, v) ToyRead.str 2
             (λ _, mret (["pg_user"], [])) (λ _, mret ()) [] 60000
             "SELECT usename FROM pg_user" [] (connect [1; 2]%Z) _ _ _
             ["pg_user"] []); reflexivity.
  - reflexivity.
Defined.

Lemma X14_search_sql_refuses_functions_witness :
  ∃ c', Search.search_sql (list Z) (ToyRead.rows_engine 3) (λ v, v)
          ToyRead.str 2 (λ _, mret (["t"], ["COUNT"; "pg_sleep"]))
          (λ _, mret ()) ["count"]
          60000 "SELECT count(n), pg_sleep(9) FROM t" [] (connect [1; 2]%Z)
        = (inl (NotAuthorized "Not authorized to call function pg_sleep"), c')
        ∧ executed c'
          = [Text "SET LOCAL statement_timeout TO 60000" NoParams].
Proof.
  eexists. split.
  - eapply (X14_search_sql_refuses_functions (list Z)
             (ToyRead.rows_engine 3) (λ v, v) ToyRead.str 2
             (λ _, mret (["t"], ["COUNT"; "pg_sleep"])) (λ _, mret ())
             ["count"] 60000 "SELECT count(n), pg_sleep(9) FROM t" []
             (connect [1; 2]%Z) _ _ _ _ ["t"] ["COUNT"] [] "pg_sleep");
      reflexivity.
  - reflexivity.
Defined.

Lemma X15_search_sql_closes_and_keeps_witness :
  let result := ToyRead.search_sql 60000 "SELECT n FROM t" []
                  (connect [1; 2; 3]%Z) in
  closed result.2 = true
  ∧ in_transaction result.2 = false
  ∧ committed result.2 = [1; 2; 3]%Z.
Proof.
  apply (X15_search_sql_closes_and_keeps (list Z) (ToyRead.rows_engine 3)
           (λ v, v) ToyRead.str 2 (λ _, mret ([], [])) (λ _, mret ()) []
           60000 "SELECT n FROM t" [] (connect [1; 2; 3]%Z)).
  - intros s c. by cbn.
  - intros names c. by cbn.
Defined.

End PassthroughExamples.


(** ** Validation, deletion and the entry point of search *)

Section RequestsFacts.
Import Py Quoting Db Where Requests.

Variable DB : Type.
Variable engine_execute : DB → statement → dbapi_error + DB * cursor_result.
Variable get_list : value → bool → value.
Variable is_single_statement : string → bool.
Variable str : value → string.
Variable args0 : dbapi_error → string.
Variable plugins : list plugin.

Local Abbreviation execute := (Db.execute DB engine_execute).
Local Abbreviation _get_fields_types :=
  (Fields._get_fields_types DB engine_execute).
Local Abbreviation leftover_loop := (Requests.leftover_loop str).
Local Abbreviation leftover := (Requests.leftover get_list plugins).
Local Abbreviation validate :=
  (Requests.validate DB engine_execute get_list str plugins).
Local Abbreviation delete_data :=
  (Requests.delete_data DB engine_execute get_list is_single_statement str
     args0 plugins).
Local Abbreviation delete :=
  (Requests.delete DB engine_execute get_list is_single_statement str
     args0 plugins).
Local Abbreviation search := (Requests.search DB engine_execute).
Local Abbreviation keeps := (keeps_transaction DB).

Lemma leftover_loop_none (items : dict value) :
  Forall (λ kv, truthy kv.2 = false) items → leftover_loop items = None.
Proof.
  induction items as [|[key values] items IH]; [done|].
  intros [Hv Hrest]%Forall_cons. cbn [Requests.leftover_loop snd] in *.
  rewrite Hv. by apply IH.
Qed.

Lemma leftover_loop_first (pre post : dict value) (key : string)
    (values : value) :
  Forall (λ kv, truthy kv.2 = false) pre → truthy values = true →
  leftover_loop (pre ++ (key, values) :: post)
  = Some (error1 key ("invalid value "
                      +:+ Write.quoted (str (shown values)))).
Proof.
  intros Hpre Hv. induction pre as [|[k v] pre IH];
    cbn [app Requests.leftover_loop].
  - by rewrite Hv.
  - apply Forall_cons in Hpre as [Hkv Hpre]. cbn [snd] in Hkv.
    rewrite Hkv. by apply IH.
Qed.

Lemma dict_pop_keys {A : Type} (k : string) (d : dict A) (kv : string * A) :
  kv ∈ dict_pop k d ↔ kv ∈ d ∧ kv.1 ≠ k.
Proof.
  unfold dict_pop. by rewrite elem_of_filter_bool, negb_true_iff, String.eqb_neq.
Qed.

Lemma pops_keys {A : Type} (ks : list string) (d : dict A) (kv : string * A) :
  kv ∈ foldl (λ d k, dict_pop k d) d ks ↔ kv ∈ d ∧ kv.1 ∉ ks.
Proof.
  revert d. induction ks as [|k ks IH]; intros d; cbn [foldl].
  - split; [intros ?; split; [done|apply not_elem_of_nil]|by intros [? _]].
  - rewrite IH, dict_pop_keys, not_elem_of_cons. split.
    + by intros [[? ?] ?].
    + by intros [? [? ?]].
Qed.

(** X17. [validate] rejects a request exactly when, once the plugins have
    taken out what they accept, an entry other than the seven default ones
    still holds a true value: the error is keyed by the first such entry; a
    request whose leftover entries are all empty is accepted.  A default
    element is never what a request is rejected for. *)
Theorem X17_validate_leftover (resource_id : string) (data_dict : dict value)
    (c c1 : connection DB) (fields_types : dict string) :
  _get_fields_types resource_id c = (inr fields_types, c1) →
  let left := leftover data_dict fields_types in
  (∀ kv : string * value, kv ∈ left → (kv.1) ∉ default_elements)
  ∧ (Forall (λ kv, truthy kv.2 = false) left →
     validate resource_id data_dict c = (inr true, c1))
  ∧ (∀ pre key values post,
       left = pre ++ (key, values) :: post →
       Forall (λ kv, truthy kv.2 = false) pre → truthy values = true →
       (key ∉ default_elements)
       ∧ validate resource_id data_dict c
         = (inl (error1 key ("invalid value "
                             +:+ Write.quoted (str (shown values)))), c1)).
Proof.
  intros Hft left.
  assert (Hkeys : ∀ kv, kv ∈ left → kv.1 ∉ default_elements).
  { intros kv Hin. unfold left, Requests.leftover in Hin.
    by apply pops_keys in Hin as [_ ?]. }
  assert (Hrun : validate resource_id data_dict c
                 = match leftover_loop left with
                   | Some e => (inl e, c1)
                   | None => (inr true, c1)
                   end).
  { unfold Requests.validate. unfold mbind, M_bind, bind. rewrite Hft.
    fold left. by destruct (leftover_loop left). }
  split; [done|]. split.
  - intros Hall. by rewrite Hrun, leftover_loop_none.
  - intros pre key values post Hleft Hpre Hv. split.
    + apply (Hkeys (key, values)). rewrite Hleft, elem_of_app. right. by left.
    + by rewrite Hrun, Hleft, (leftover_loop_first _ _ _ _ Hpre Hv).
Qed.

Lemma keeps_get_fields_types (resource_id : string) :
  keeps (_get_fields_types resource_id).
Proof.
  apply keeps_bind; [apply keeps_get_fields|]. intros. apply keeps_ret.
Qed.

Lemma keeps_validate (resource_id : string) (data_dict : dict value) :
  keeps (validate resource_id data_dict).
Proof.
  apply keeps_bind; [apply keeps_get_fields_types|]. intros ft.
  destruct (leftover_loop _); [apply keeps_raise|apply keeps_ret].
Qed.

Lemma keeps_delete_data (resource_id : string) (data_dict : dict value) :
  keeps (delete_data resource_id data_dict).
Proof.
  apply keeps_bind; [apply keeps_validate|]. intros _.
  apply keeps_bind; [apply keeps_get_fields_types|]. intros ft.
  destruct (_where (foldl (λ w p, datastore_delete p data_dict ft w) []
                          plugins)) as [where_clause where_values].
  apply keeps_bind; [|intros; apply keeps_ret].
  apply keeps_try_except.
  - unfold Search._execute_single_statement.
    destruct (negb _); [apply keeps_raise|apply keeps_execute].
  - intros e. unfold delete_handler. destruct e as [?|?|pe|?];
      try apply keeps_raise. destruct (cls pe); apply keeps_raise.
Qed.

Local Abbreviation adds := (Requests.adds DB).

Lemma adds_ret {A : Type} (x : A) (allowed : statement → Prop) :
  adds (mret x) allowed.
Proof. intros c. exists []. by rewrite app_nil_r. Qed.

Lemma adds_raise {A : Type} (e : exn) (allowed : statement → Prop) :
  adds (raise e : Db.M DB A) allowed.
Proof. intros c. exists []. by rewrite app_nil_r. Qed.

Lemma adds_bind {A B : Type} (m : Db.M DB A) (k : A → Db.M DB B)
    (allowed : statement → Prop) :
  adds m allowed → (∀ x, adds (k x) allowed) → adds (m ≫= k) allowed.
Proof.
  intros Hm Hk c. unfold mbind, M_bind, bind.
  destruct (Hm c) as (new & Hnew & Hall).
  destruct (m c) as [[e|x] c']; cbn [snd] in *; [by exists new|].
  destruct (Hk x c') as (new' & Hnew' & Hall').
  exists (new ++ new'). rewrite Hnew', Hnew, app_assoc. split; [done|].
  by apply Forall_app.
Qed.

Lemma adds_try_except {A : Type} (m : Db.M DB A) (h : exn → Db.M DB A)
    (allowed : statement → Prop) :
  adds m allowed → (∀ e, adds (h e) allowed) → adds (try_except m h) allowed.
Proof.
  intros Hm Hh c. unfold try_except.
  destruct (Hm c) as (new & Hnew & Hall).
  destruct (m c) as [[e|x] c']; cbn [snd] in *; [|by exists new].
  destruct (Hh e c') as (new' & Hnew' & Hall').
  exists (new ++ new'). rewrite Hnew', Hnew, app_assoc. split; [done|].
  by apply Forall_app.
Qed.

Lemma adds_execute (stmt : statement) (allowed : statement → Prop) :
  allowed stmt → adds (execute stmt) allowed.
Proof.
  intros Hs c. exists [stmt]. unfold Db.execute.
  destruct (engine_execute (current c) stmt) as [e|[db r]]; cbn;
    by repeat constructor.
Qed.

Lemma adds_delete_data (resource_id : string) (data_dict : dict value) :
  adds (delete_data resource_id data_dict) (delete_statement resource_id).
Proof.
  assert (Hft : adds (_get_fields_types resource_id)
                     (delete_statement resource_id)).
  { apply adds_bind; [|intros; apply adds_ret].
    apply adds_bind; [apply adds_execute; by left|intros; apply adds_ret]. }
  apply adds_bind.
  { apply adds_bind; [done|]. intros ft.
    destruct (leftover_loop _); [apply adds_raise|apply adds_ret]. }
  intros _. apply adds_bind; [done|]. intros ft.
  destruct (_where (foldl (λ w p, datastore_delete p data_dict ft w) []
                          plugins)) as [where_clause where_values].
  apply adds_bind; [|intros; apply adds_ret].
  apply adds_try_except.
  - unfold Search._execute_single_statement.
    destruct (negb _); [apply adds_raise|].
    apply adds_execute. right. by eexists _, _.
  - intros e. unfold delete_handler. destruct e as [?|?|pe|?];
      try apply adds_raise. destruct (cls pe); apply adds_raise.
Qed.

(** X18. [delete] drops the table only for a request without a [filters]
    entry: it then executes the one DROP TABLE of the quoted resource id,
    and commits it when the renaming of [nested] to [json] in the answer
    returns; when that renaming raises (on a [fields] entry that cannot be
    walked), the error gets out after the DROP TABLE, which is rolled back.
    With a [filters] entry, be it empty, the statements it executes are
    queries for the columns and a DELETE on the resource, never a DROP
    TABLE; and whatever the request, the connection is closed and a call
    that raises leaves the committed data as they were. *)
Theorem X18_delete_drops_only_without_filters (resource_id : string)
    (data_dict : dict value) (c : connection DB) :
  let result := delete resource_id data_dict c in
  closed result.2 = true
  ∧ (∀ e, result.1 = inl e → committed result.2 = committed c)
  ∧ (∀ db' r,
       dict_has "filters" data_dict = false →
       engine_execute (current c)
         (Text (drop_table_sql resource_id) NoParams) = inr (db', r) →
       executed result.2
       = executed c ++ [Text (drop_table_sql resource_id) NoParams]
       ∧ match Search._unrename_json_field data_dict with
         | inr answer => result.1 = inr answer ∧ committed result.2 = db'
         | inl e => result.1 = inl e ∧ committed result.2 = committed c
         end)
  ∧ (dict_has "filters" data_dict = true →
     ∃ new, executed result.2 = executed c ++ new
            ∧ Forall (delete_statement resource_id) new
            ∧ Text (drop_table_sql resource_id) NoParams ∉ new).
Proof.
  intros result. subst result. unfold Requests.delete, with_begin.
  set (body := (_ ← (if negb (dict_has "filters" data_dict) then _ else _);
                match Search._unrename_json_field data_dict with
                | inl e => raise e
                | inr data_dict => mret data_dict
                end)
               : Db.M DB (dict value)).
  assert (Hkeep : keeps body).
  { apply keeps_bind;
      [|intros; destruct (Search._unrename_json_field data_dict);
        [apply keeps_raise|apply keeps_ret]].
    destruct (negb _); [|apply keeps_delete_data].
    apply keeps_bind; [apply keeps_execute|intros; apply keeps_ret]. }
  destruct (Hkeep (begin c)) as (Hc & Ht & Hcl).
  cbn [begin committed in_transaction closed] in Hc, Ht, Hcl.
  split; [by destruct (body (begin c)) as [[e|x] c']|].
  split.
  { intros e. destruct (body (begin c)) as [[e'|x] c']; [|done].
    intros _. cbn [snd] in *. unfold close, rollback. cbn. done. }
  split.
  - intros db' r Hno He. unfold body. rewrite Hno. cbn [negb].
    unfold mbind, M_bind, bind, Db.execute. cbn [begin current executed].
    rewrite He. by destruct (Search._unrename_json_field data_dict).
  - intros Hyes.
    assert (Hadds : adds body (delete_statement resource_id)).
    { unfold body. rewrite Hyes. cbn [negb].
      apply adds_bind; [apply adds_delete_data|].
      intros; destruct (Search._unrename_json_field data_dict);
        [apply adds_raise|apply adds_ret]. }
    destruct (Hadds (begin c)) as (new & Hnew & Hall).
    cbn [begin executed] in Hnew. exists new. split.
    + destruct (body (begin c)) as [[e|x] c']; cbn [snd] in *;
        unfold close, commit, rollback; cbn;
        by destruct (in_transaction c').
    + split; [done|]. intros Hin.
      apply (proj1 (Forall_forall _ _) Hall) in Hin as [Hin|(w & p & Hin)];
        discriminate Hin.
Qed.

(** X19. A programming error of the engine on the DELETE comes out of
    [delete_data] as a validation error under [filters] that carries the
    summary of the error's message. *)
Theorem X19_delete_programming_error (resource_id : string)
    (data_dict : dict value) (c c1 c2 : connection DB)
    (fields_types : dict string) (pe : dbapi_error) :
  validate resource_id data_dict c = (inr true, c1) →
  _get_fields_types resource_id c1 = (inr fields_types, c2) →
  let where_ :=
    foldl (λ w p, datastore_delete p data_dict fields_types w) [] plugins in
  let sql_string := delete_sql resource_id (_where where_).1 in
  is_single_statement sql_string = true →
  engine_execute (current c2)
    (Text sql_string (One (foldl dict_merge [] (_where where_).2)))
  = inl pe →
  cls pe = ProgrammingError →
  (delete_data resource_id data_dict c).1
  = inl (error1 "filters" (Summary._programming_error_summary (args0 pe))).
Proof.
  intros Hv Hft where_ sql_string Hsingle He Hcls.
  unfold Requests.delete_data.
  unfold mbind at 1, M_bind at 1, bind at 1. rewrite Hv.
  unfold mbind at 1, M_bind at 1, bind at 1. rewrite Hft.
  fold where_. destruct (_where where_) as [where_clause where_values] eqn:Hw.
  cbn [fst snd] in *. fold sql_string.
  unfold mbind, M_bind, bind, try_except, Search._execute_single_statement.
  rewrite Hsingle. cbn [negb]. unfold Db.execute. rewrite He.
  unfold delete_handler. by rewrite Hcls.
Qed.

Lemma search_handler_raises {A : Type} (e : exn) (c : connection DB) :
  ∃ e', @search_handler DB A e c = (inl e', c)
        ∧ (∀ err, e' ≠ DBAPIError err)
        ∧ match e with
          | DBAPIError err =>
              e' = if bool_decide (pgcode err = Some query_canceled)
                   then error1 "query" "Search took too long"
                   else ValidationError
                     [("query", VList [VStr "Invalid query"]);
                      ("info",
                       VDict [("statement", VList [VStr (statement_of err)]);
                              ("params", VList [params_of err]);
                              ("orig", VList [VStr (orig err)])])]
          | _ => e' = e
          end.
Proof.
  unfold search_handler, raise. destruct e as [ed|msg|err|cl];
    try (eexists; repeat split; done).
  destruct (bool_decide _); eexists; repeat split; done.
Qed.

(** X20. Once connected, [search] lets no database error out: an error of
    the engine while the timeout is set or inside [search_data] comes out as
    a validation error, that the search took too long when the statement was
    cancelled and of an invalid query, with the statement, its parameters and
    the original message, otherwise.  Other errors pass as they are, and the
    connection is closed in every case. *)
Theorem X20_search_wraps_database_errors {A : Type}
    (search_data : Db.M DB A) (timeout : N) (c : connection DB) :
  let inner :=
    (_ ← execute (Text ("SET LOCAL statement_timeout TO "
                        +:+ pretty timeout) NoParams);
     search_data) c in
  let result := search search_data timeout c in
  closed result.2 = true
  ∧ (∀ err, result.1 ≠ inl (DBAPIError err))
  ∧ match inner.1 with
    | inr x => result.1 = inr x
    | inl (DBAPIError err) =>
        result.1
        = inl (if bool_decide (pgcode err = Some query_canceled)
               then error1 "query" "Search took too long"
               else ValidationError
                 [("query", VList [VStr "Invalid query"]);
                  ("info",
                   VDict [("statement", VList [VStr (statement_of err)]);
                          ("params", VList [params_of err]);
                          ("orig", VList [VStr (orig err)])])])
    | inl e => result.1 = inl e
    end.
Proof.
  intros inner result. subst inner result.
  unfold Requests.search, try_finally, try_except.
  destruct ((_ ← execute _; search_data) c) as [[e|x] c'].
  - destruct (search_handler_raises (A:=A) e c') as (e' & -> & Hno & He).
    cbn [fst snd]. split; [by unfold close; destruct (in_transaction c')|].
    split; [intros err [= ->]; by apply (Hno err)|].
    destruct e; by subst.
  - cbn [fst snd]. split; [by unfold close; destruct (in_transaction c')|].
    by split.
Qed.

End RequestsFacts.

Section RequestsExamples.
Import Py Db Requests.

Lemma X17_validate_leftover_witness :
  ∃ c1, Requests.validate Toy.table Toy.engine_execute ToyDelete.get_list
          Toy.str [ToyDelete.accepts_filters] "res"
          [("resource_id", VStr "res"); ("filters", VDict [("a", VStr "x")]);
           ("limit", VInt 0); ("bogus", VList [VStr "1"; VStr "2"])]
          (connect Toy.keyed_resource)
        = (inl (error1 "bogus" ("invalid value " +:+ Write.quoted "1")), c1).
Proof.
  eexists.
  edestruct (X17_validate_leftover Toy.table Toy.engine_execute
               ToyDelete.get_list Toy.str [ToyDelete.accepts_filters] "res"
               [("resource_id", VStr "res");
                ("filters", VDict [("a", VStr "x")]);
                ("limit", VInt 0); ("bogus", VList [VStr "1"; VStr "2"])]
               (connect Toy.keyed_resource)) as (_ & _ & Hfirst);
    [reflexivity|].
  apply (Hfirst [("limit", VInt 0)] "bogus" (VList [VStr "1"; VStr "2"]) []);
    [reflexivity|by repeat constructor|reflexivity].
Defined.

Lemma X19_delete_programming_error_witness :
  (Requests.delete_data Toy.table ToyDelete.engine_execute
     ToyDelete.get_list (λ _, true) Toy.str message
     [ToyDelete.accepts_filters] "res"
     [("resource_id", VStr "res"); ("filters", VDict [("zz", VStr "x")])]
     (connect Toy.keyed_resource)).1
  = inl (error1 "filters" "column does not exist").
Proof.
  eapply X19_delete_programming_error
    with (pe := ToyDelete.undefined_column); reflexivity.
Defined.

Example delete_without_filters_drops :
  let result :=
    Requests.delete Toy.table Toy.engine_execute ToyDelete.get_list
      (λ _, true) Toy.str message [ToyDelete.accepts_filters] "res"
      [("resource_id", VStr "res")] (connect Toy.keyed_resource) in
  executed result.2 = [Text (drop_table_sql "res") NoParams]
  ∧ Toy.version (committed result.2) = 1.
Proof. vm_compute. by split. Qed.

(** A request without [filters] whose [fields] entry is [None]: the DROP
    TABLE is executed, the renaming of the answer raises, and the
    transaction is rolled back. *)
Example delete_unwalkable_fields_rolls_back :
  let result :=
    Requests.delete Toy.table Toy.engine_execute ToyDelete.get_list
      (λ _, true) Toy.str message [ToyDelete.accepts_filters] "res"
      [("resource_id", VStr "res"); ("fields", VNone)]
      (connect Toy.keyed_resource) in
  result.1 = inl (PyError "TypeError")
  ∧ executed result.2 = [Text (drop_table_sql "res") NoParams]
  ∧ committed result.2 = Toy.keyed_resource.
Proof. vm_compute. by repeat split. Qed.

Example delete_with_empty_filters_keeps_table :
  let result :=
    Requests.delete Toy.table Toy.engine_execute ToyDelete.get_list
      (λ _, true) Toy.str message [ToyDelete.accepts_filters] "res"
      [("resource_id", VStr "res"); ("filters", VDict [])]
      (connect Toy.keyed_resource) in
  executed result.2
  = [SelectAllLimit1 "res"; SelectAllLimit1 "res";
     Text (delete_sql "res" "") (One [])].
Proof. reflexivity. Qed.

End RequestsExamples.


(** ** Aliases *)

Section AliasFacts.
Import Py Quoting Db Alias.

Variable DB : Type.
Variable engine_execute : DB → statement → dbapi_error + DB * cursor_result.

Local Abbreviation execute := (Db.execute DB engine_execute).
Local Abbreviation _get_aliases := (Alias._get_aliases DB engine_execute).
Local Abbreviation _get_resources := (Alias._get_resources DB engine_execute).
Local Abbreviation alias_body := (Alias.alias_body DB engine_execute).
Local Abbreviation alias_loop := (Alias.alias_loop DB engine_execute).
Local Abbreviation create_alias := (Alias.create_alias DB engine_execute).

Local Abbreviation previous_dropped :=
  (Alias.previous_dropped DB engine_execute).
Local Abbreviation created := (Alias.created DB engine_execute).

Lemma alias_loop_app (res_id : string) (pre post : list string)
    (alias : string) (c2 c3 : connection DB) (num : nat) :
  for_each (λ _ alias, alias_body res_id alias) num pre c2 = (inr tt, c3) →
  alias_loop res_id (pre ++ alias :: post) c2
  = match alias_body res_id alias c3 with
    | (inr _, c') => alias_loop res_id post c'
    | (inl e, c') => alias_handler DB alias e c'
    end.
Proof.
  revert c2 num. induction pre as [|a pre IH]; intros c2 num;
    cbn [for_each app Alias.alias_loop].
  - by intros [= ->].
  - unfold bind. destruct (alias_body res_id a c2) as [[e|[]] c']; [done|].
    apply IH.
Qed.

Lemma create_alias_at (res_id : string) (pre post : list string)
    (alias : string) (c c2 c3 : connection DB) :
  previous_dropped res_id c c2 → created res_id pre c2 c3 →
  create_alias res_id (Some (pre ++ alias :: post)) c
  = match alias_body res_id alias c3 with
    | (inr _, c') => alias_loop res_id post c'
    | (inl e, c') => alias_handler DB alias e c'
    end.
Proof.
  unfold Alias.previous_dropped, Alias.created, Alias.create_alias.
  intros Hprev Hpre.
  unfold mbind, M_bind, bind in *.
  destruct (_get_aliases res_id c) as [[e|previous] c1]; [done|].
  rewrite Hprev. by eapply alias_loop_app.
Qed.

(** X21. A database error on the CREATE VIEW of an alias whose code is
    neither that of a duplicate table nor that of a duplicate alias is not
    raised again: [create_alias] returns as if it had succeeded, the failed
    statement is the last it executes, and the aliases that follow in the
    list are not created. *)
Theorem X21_create_alias_swallows_other_errors (res_id alias : string)
    (pre post : list string) (c c2 c3 c4 : connection DB)
    (err : dbapi_error) :
  previous_dropped res_id c c2 → created res_id pre c2 c3 →
  _get_resources alias c3 = (inr [], c4) →
  engine_execute (current c4) (Text (create_view_sql alias res_id) NoParams)
  = inl err →
  pgcode err ≠ Some duplicate_table → pgcode err ≠ Some duplicate_alias →
  ∃ c', create_alias res_id (Some (pre ++ alias :: post)) c = (inr tt, c')
        ∧ executed c'
          = executed c4 ++ [Text (create_view_sql alias res_id) NoParams]
        ∧ current c' = current c4.
Proof.
  intros Hprev Hpre Hres He Ht Ha.
  rewrite (create_alias_at _ _ _ _ _ _ _ Hprev Hpre).
  unfold Alias.alias_body. unfold mbind, M_bind, bind. rewrite Hres.
  unfold Db.execute. rewrite He. cbn [alias_handler].
  rewrite !bool_decide_eq_false_2 by done. by eexists.
Qed.

(** X22. An alias that is taken is refused with a validation error under
    [alias]: when the metadata name a resource for it, before any view is
    created for it, and when the engine reports a duplicate table or a
    duplicate alias on its CREATE VIEW. *)
Theorem X22_create_alias_refuses_taken (res_id alias : string)
    (pre post : list string) (c c2 c3 c4 : connection DB) :
  previous_dropped res_id c c2 → created res_id pre c2 c3 →
  (∀ row rows,
     _get_resources alias c3 = (inr (row :: rows), c4) →
     create_alias res_id (Some (pre ++ alias :: post)) c
     = (inl (error1 "alias" ("The alias " +:+ Write.quoted alias
                             +:+ " already exists.")), c4))
  ∧ (∀ err,
       _get_resources alias c3 = (inr [], c4) →
       engine_execute (current c4)
         (Text (create_view_sql alias res_id) NoParams) = inl err →
       pgcode err = Some duplicate_table ∨ pgcode err = Some duplicate_alias →
       (create_alias res_id (Some (pre ++ alias :: post)) c).1
       = inl (error1 "alias" (Write.quoted alias +:+ " already exists"))).
Proof.
  intros Hprev Hpre. rewrite (create_alias_at _ _ _ _ _ _ _ Hprev Hpre).
  split.
  - intros row rows Hres. unfold Alias.alias_body.
    unfold mbind, M_bind, bind. by rewrite Hres.
  - intros err Hres He Hcode. unfold Alias.alias_body.
    unfold mbind, M_bind, bind. rewrite Hres.
    unfold Db.execute. rewrite He. cbn [alias_handler].
    by destruct Hcode as [-> | ->]; rewrite ?bool_decide_eq_true_2 by done;
      rewrite ?orb_true_r.
Qed.

End AliasFacts.

Section AliasExamples.
Import Py Db Alias.

Lemma X21_create_alias_swallows_other_errors_witness :
  ∃ c', ToyAlias.create_alias "res" (Some ["a"; "b"])
          (connect [("old", "res")]) = (inr tt, c')
        ∧ executed c'
          = [Text alias_sql (One [("id", VStr "res")]);
             Text (drop_view_sql "old") NoParams;
             Text resources_sql (One [("alias", VStr "a")]);
             Text (create_view_sql "a" "res") NoParams].
Proof.
  edestruct (X21_create_alias_swallows_other_errors
               (list (string * string)) ToyAlias.engine_execute "res" "a"
               [] ["b"] (connect [("old", "res")]))
    as (c' & Hrun & Hex & _);
    [reflexivity|reflexivity|reflexivity|reflexivity|discriminate
    |discriminate|].
  exists c'. split; [exact Hrun|]. rewrite Hex. reflexivity.
Defined.

Lemma X22_create_alias_refuses_taken_witness :
  ∃ c', ToyAlias.create_alias "res" (Some ["taken"])
          (connect [("taken", "other")])
        = (inl (error1 "alias" ("The alias " +:+ Write.quoted "taken"
                                +:+ " already exists.")), c').
Proof.
  edestruct (X22_create_alias_refuses_taken
               (list (string * string)) ToyAlias.engine_execute "res" "taken"
               [] [] (connect [("taken", "other")])) as [Htaken _];
    [reflexivity|reflexivity|].
  eexists. eapply Htaken. reflexivity.
Defined.

End AliasExamples.


(** ** Creating the table *)

Section SchemaFacts.
Import Py Quoting Db Schema.

Variable DB : Type.
Variable engine_execute : DB → statement → dbapi_error + DB * cursor_result.
Context `{Builtins}.
Variable int_first : bool.
Variable _type_names : list string.
Variable is_valid_field_name : string → bool.
Variable json_dumps : value → string.

Local Abbreviation execute := (Db.execute DB engine_execute).
Local Abbreviation _guess_type := (Schema._guess_type int_first).
Local Abbreviation check_fields :=
  (Schema.check_fields DB engine_execute _type_names is_valid_field_name).
Local Abbreviation guess_field := (Schema.guess_field int_first).
Local Abbreviation guess_types := (Schema.guess_types int_first).
Local Abbreviation extra_fields := (Schema.extra_fields int_first).
Local Abbreviation create_table :=
  (Schema.create_table DB engine_execute int_first _type_names
     is_valid_field_name json_dumps).

Local Abbreviation typed_as := (Schema.typed_as int_first).

Lemma guess_field_typed (records : option (list value))
    (f f' : supplied_field) :
  guess_field records f = inr f' → typed_as records f f'.
Proof.
  unfold Schema.guess_field, Schema.typed_as.
  destruct (type f) as [t|] eqn:Ht; [intros [= <-]; by rewrite Ht|].
  destruct records as [[|r0 rest]|]; try done.
  destruct r0 as [| | | |s|l|d|l]; cbn [contains_key getitem]; try done.
  - by destruct (Py.contains (id f) s).
  - by destruct (existsb (is_str (id f)) l).
  - unfold dict_has. destruct (dict_get (id f) d) as [v|] eqn:Hv; [|done].
    intros [= <-]. cbn. repeat split. by exists d, rest, v.
  - by destruct (existsb (is_str (id f)) l).
Qed.

Lemma guess_types_typed (records : option (list value))
    (fs fs' : list supplied_field) :
  guess_types records fs = inr fs' → Forall2 (typed_as records) fs fs'.
Proof.
  revert fs'. induction fs as [|f fs IH]; intros fs';
    cbn [Schema.guess_types].
  - intros [= <-]. constructor.
  - destruct (guess_field records f) as [e|f'] eqn:Hf; [done|].
    destruct (guess_types records fs) as [e|fs''] eqn:Hfs; [done|].
    intros [= <-]. constructor; [by apply guess_field_typed|by apply IH].
Qed.

Lemma typed_ids (records : option (list value))
    (fs fs' : list supplied_field) :
  Forall2 (typed_as records) fs fs' → id <$> fs' = id <$> fs.
Proof.
  induction 1 as [|f f' fs fs' (Hid & _) _ IH]; [done|].
  by rewrite !fmap_cons, Hid, IH.
Qed.

Lemma filter_nil_inv {A : Type} (f : A → bool) (l : list A) :
  List.filter f l = [] → Forall (λ x, f x = false) l.
Proof.
  induction l as [|x l IH]; [constructor|]. cbn [List.filter].
  destruct (f x) eqn:Hx; [done|]. intros Hl. constructor; [done|by apply IH].
Qed.

Lemma filter_keys {A : Type} (p : string → bool) (d : dict A) :
  (List.filter (λ kv, p kv.1) d).*1 = List.filter p (dict_keys d).
Proof.
  unfold dict_keys. induction d as [|[k v] d IH]; [done|].
  cbn [List.filter fst]. rewrite fmap_cons. cbn [List.filter fst].
  destruct (p k); [rewrite fmap_cons|]; by rewrite IH.
Qed.

Lemma too_long_spec (ids : list string) :
  List.filter too_long ids = List.filter (λ i, bool_decide (63 < len i)) ids.
Proof.
  induction ids as [|i ids IH]; [done|]. cbn [List.filter]. rewrite IH.
  unfold too_long.
  by destruct (Nat.ltb_spec 63 (len i));
    [rewrite bool_decide_eq_true_2|rewrite bool_decide_eq_false_2 by lia].
Qed.

(** X23. When [create_table] returns, the names of the fields of the
    request are distinct and at most 63 characters long (characters are
    code points, as [len] counts them, whatever the bytes that encode
    them), and the last
    statement executed is a CREATE TABLE of the quoted resource id whose
    columns are [_id] and [_full_text], then the fields in the order of the
    request, then the keys of the first record that no field names, in the
    order of the record: every key of the first record is a column.  A type
    given in the request is kept, and one that is missing is guessed from the
    value of the first record. *)
Theorem X23_create_table_columns (data_dict : request)
    (plugin_data : gmap nat (dict value)) (c c' : connection DB)
    (answer : list supplied_field) :
  create_table data_dict plugin_data c = (inr answer, c') →
  let ids := id <$> fields data_dict in
  let keys := first_keys (records data_dict) in
  Forall (λ i, len i ≤ 63) ids
  ∧ NoDup ids
  ∧ Forall2 (typed_as (records data_dict)) (fields data_dict) answer
  ∧ ∃ columns comments,
      last (executed c')
      = Some (Text (create_table_sql (resource_id data_dict) columns
                    +:+ comments) NoParams)
      ∧ columns.*1
        = ["_id"; "_full_text"] ++ ids
          ++ List.filter (λ k, negb (bool_decide (k ∈ ids))) keys
      ∧ ∀ k, k ∈ keys → k ∈ columns.*1.
Proof.
  intros Hrun ids keys. unfold Schema.create_table in Hrun.
  unfold mbind at 1, M_bind at 1, bind at 1 in Hrun.
  destruct (check_fields (fields data_dict) c) as [[e|[]] c1]; [done|].
  fold ids in Hrun.
  destruct (List.filter too_long ids) as [|x long] eqn:Hlong; [|done].
  cbn [fmap list_fmap] in Hrun.
  destruct (guess_types (records data_dict) (fields data_dict))
    as [e|typed] eqn:Hguess; [done|].
  destruct (bool_decide (NoDup ids)) eqn:Hnd; [|done]. cbn [negb] in Hrun.
  destruct (extra_fields ids (records data_dict)) as [e|extra] eqn:Hextra;
    [done|].
  unfold mbind, M_bind, bind, Db.execute in Hrun.
  destruct (engine_execute (current c1) _) as [e|[db' r]]; [done|].
  injection Hrun as <- <-. cbn [executed].
  apply guess_types_typed in Hguess.
  pose proof (typed_ids _ _ _ Hguess) as Hids. fold ids in Hids.
  split.
  { apply filter_nil_inv in Hlong. eapply Forall_impl; [exact Hlong|].
    intros i Hi. unfold too_long in Hi. apply Nat.ltb_ge in Hi. exact Hi. }
  split; [by apply bool_decide_eq_true in Hnd|]. split; [done|].
  assert (Hextra' : extra.*1
            = List.filter (λ k, negb (bool_decide (k ∈ ids))) keys).
  { unfold Schema.extra_fields in Hextra. unfold keys, first_keys.
    destruct (records data_dict) as [[|r0 rest]|];
      try (by injection Hextra as <-).
    destruct r0 as [| | | | | |d|]; try done. injection Hextra as <-.
    rewrite <- list_fmap_compose.
    by rewrite <- (filter_keys (λ k, negb (bool_decide (k ∈ ids)))). }
  exists (datastore_fields ++ (column_of <$> typed) ++ extra),
    (replace_char ":" "\:"
       (join ";" (info_sql json_dumps (resource_id data_dict) plugin_data
                           typed))).
  split; [apply last_snoc|].
  assert (Hcols : (datastore_fields ++ (column_of <$> typed) ++ extra).*1
            = ["_id"; "_full_text"] ++ ids
              ++ List.filter (λ k, negb (bool_decide (k ∈ ids))) keys).
  { rewrite !fmap_app, <- list_fmap_compose, Hextra'.
    by rewrite <- Hids. }
  split; [exact Hcols|]. intros k Hk. rewrite Hcols.
  destruct (decide (k ∈ ids)) as [Hin|Hout].
  - apply elem_of_app. right. apply elem_of_app. by left.
  - apply elem_of_app. right. apply elem_of_app. right.
    apply elem_of_filter_bool. split; [done|].
    by rewrite bool_decide_eq_false_2.
Qed.

(** X24. Once the types and names of the fields are checked,
    [create_table] refuses the request, with nothing executed, when a name is
    longer than 63 characters, counted in code points as [len] does (the
    error lists every such name, in the order of the request), when a field
    without a type cannot take one from a first record because there is
    none, and when two fields that all carry a type have the same name. *)
Theorem X24_create_table_refuses (data_dict : request)
    (plugin_data : gmap nat (dict value)) (c c1 : connection DB) :
  check_fields (fields data_dict) c = (inr tt, c1) →
  let ids := id <$> fields data_dict in
  (∀ x long,
     List.filter (λ i, bool_decide (63 < len i)) ids = x :: long →
     create_table data_dict plugin_data c
     = (inl (ValidationError
               [("fields", VList (VStr <$> (too_long_message <$> x :: long)))]),
        c1))
  ∧ (∀ pre f post,
       List.filter (λ i, bool_decide (63 < len i)) ids = [] →
       fields data_dict = pre ++ f :: post →
       Forall (λ f, is_Some (type f)) pre → type f = None →
       records data_dict = None ∨ records data_dict = Some [] →
       create_table data_dict plugin_data c
       = (inl (not_guessable (id f)), c1))
  ∧ (List.filter (λ i, bool_decide (63 < len i)) ids = [] →
     Forall (λ f, is_Some (type f)) (fields data_dict) →
     ¬ NoDup ids →
     create_table data_dict plugin_data c
     = (inl (error1 "field" "Duplicate column names are not supported"), c1)).
Proof.
  intros Hcheck ids.
  rewrite <- (too_long_spec ids).
  assert (Htyped : ∀ records fs,
            Forall (λ f, is_Some (type f)) fs → guess_types records fs = inr fs).
  { intros records fs Hfs. induction Hfs as [|f fs [t Ht] _ IH]; [done|].
    cbn [Schema.guess_types]. unfold Schema.guess_field.
    by rewrite Ht, IH. }
  split; [|split].
  - intros x long Hlong. unfold Schema.create_table.
    unfold mbind at 1, M_bind at 1, bind at 1. rewrite Hcheck.
    fold ids. by rewrite Hlong.
  - intros pre f post Hlong Hfields Hpre Hf Hrecords.
    unfold Schema.create_table.
    unfold mbind at 1, M_bind at 1, bind at 1. rewrite Hcheck.
    fold ids. rewrite Hlong. cbn [fmap list_fmap].
    assert (Hg : guess_types (records data_dict) (fields data_dict)
                 = inl (not_guessable (id f))).
    { rewrite Hfields. clear Hfields. induction Hpre as [|g pre [t Ht] _ IH].
      - cbn [app Schema.guess_types]. unfold Schema.guess_field.
        rewrite Hf. by destruct Hrecords as [-> | ->].
      - cbn [app Schema.guess_types]. unfold Schema.guess_field at 1.
        by rewrite Ht, IH. }
    by rewrite Hg.
  - intros Hlong Hall Hdup. unfold Schema.create_table.
    unfold mbind at 1, M_bind at 1, bind at 1. rewrite Hcheck.
    fold ids. rewrite Hlong. cbn [fmap list_fmap].
    rewrite (Htyped _ _ Hall). by rewrite bool_decide_eq_false_2.
Qed.

End SchemaFacts.

Section SchemaExamples.
Import Py Db Schema ToySchema.

Lemma X23_create_table_columns_witness :
  let d := {| resource_id := "res";
              fields := [field "a" None; field "b" (Some "text")];
              records := Some [VDict [("a", VInt 1); ("c", VStr "2020-01-31")];
                               VDict [("zz", VInt 2)]] |} in
  let result := ToySchema.create_table d ∅ (connect Toy.empty_resource) in
  result.1 = inr [field "a" (Some "int"); field "b" (Some "text")]
  ∧ ∃ columns comments,
      last (executed result.2)
      = Some (Text (create_table_sql "res" columns +:+ comments) NoParams)
      ∧ columns.*1 = ["_id"; "_full_text"; "a"; "b"; "c"].
Proof.
  intros d result. split; [reflexivity|].
  edestruct (X23_create_table_columns Toy.table Toy.engine_execute
               (H:=CPython.builtins) true ["text"; "int4"] (λ _, true)
               Toy.str d ∅ (connect Toy.empty_resource) result.2
               [field "a" (Some "int"); field "b" (Some "text")])
    as (_ & _ & _ & columns & comments & Hlast & Hcols & _); [reflexivity|].
  exists columns, comments. split; [exact Hlast|exact Hcols].
Defined.

Lemma X24_create_table_refuses_witness :
  let d := {| resource_id := "res";
              fields := [field "ok" (Some "text");
                         field long_name (Some "text")];
              records := None |} in
  ∃ c1, ToySchema.create_table d ∅ (connect Toy.empty_resource)
        = (inl (ValidationError
                  [("fields", VList [VStr (too_long_message long_name)])]),
           c1).
Proof.
  intros d.
  edestruct (X24_create_table_refuses Toy.table Toy.engine_execute
               (H:=CPython.builtins) true ["text"; "int4"] (λ _, true)
               Toy.str d ∅ (connect Toy.empty_resource)) as (Hlong & _);
    [reflexivity|].
  eexists. apply (Hlong long_name []). reflexivity.
Defined.

(** A name of 64 bytes that is 32 characters long is a column. *)
Example create_table_accented_name :
  let d := {| resource_id := "res";
              fields := [field accented_name (Some "text")];
              records := None |} in
  String.length accented_name = 64 ∧ len accented_name = 32
  ∧ (ToySchema.create_table d ∅ (connect Toy.empty_resource)).1
    = inr [field accented_name (Some "text")].
Proof. by vm_compute. Qed.

Example create_table_first_record_types :
  let d := {| resource_id := "res";
              fields := [field "n" None; field "when" None; field "x" None];
              records := Some [VDict [("n", VStr "12"); ("when", VStr "2020-01-31");
                                      ("x", VList [])]] |} in
  (ToySchema.create_table d ∅ (connect Toy.empty_resource)).1
  = inr [field "n" (Some "integer"); field "when" (Some "timestamp");
         field "x" (Some "nested")].
Proof. reflexivity. Qed.

End SchemaExamples.


(** ** Bound parameters *)

Section BindingFacts.
Import Py Quoting Db Where.

Lemma dict_get_Some_elem {A : Type} (k : string) (v : A) (d : dict A) :
  dict_get k d = Some v → (k, v) ∈ d.
Proof.
  induction d as [|[k' v'] d IH]; [done|]. cbn [dict_get].
  destruct (String.eqb_spec k' k) as [->|Hne].
  - intros [= ->]. by left.
  - intros Hd. right. by apply IH.
Qed.

Lemma merge_all {A : Type} (vs : list (list (string * A)))
    (acc : list (string * A)) :
  NoDup ((acc ++ concat vs).*1) → foldl dict_merge acc vs = acc ++ concat vs.
Proof.
  revert acc. induction vs as [|v vs IH]; intros acc Hnd;
    cbn [foldl concat] in *.
  - by rewrite app_nil_r.
  - rewrite app_assoc in Hnd. unfold dict_merge at 2.
    rewrite dict_of_pairs_app.
    + rewrite IH by done. by rewrite app_assoc.
    + rewrite fmap_app in Hnd. by apply NoDup_app in Hnd as [? _].
Qed.

Variable sa_column : string → string.
Variable str : value → string.
Variable should_fts_index_field_type : string → bool.
Variable default_fts_lang : string.

Local Abbreviation _where_clauses :=
  (Where._where_clauses sa_column str should_fts_index_field_type
     default_fts_lang).

Lemma where_values_join (clauses : list clause) :
  (concat (_where clauses).2).*1 = clauses ≫= placeholders_of.
Proof.
  unfold _where. cbn [snd].
  induction clauses as [|[s d|s] clauses IH]; [done| |].
  - rewrite !bind_cons. cbn [app concat placeholders_of].
    by rewrite fmap_app, IH.
  - rewrite !bind_cons. cbn [app placeholders_of]. exact IH.
Qed.

Lemma where_clauses_nodup (data_dict : request)
    (fields_types : gmap string string) :
  NoDup (_where_clauses data_dict fields_types ≫= placeholders_of).
Proof.
  unfold Where._where_clauses.
  rewrite bind_app, fts_clauses_bare, app_nil_r.
  destruct (filter_loop_placeholders sa_column str fields_types
              (filters data_dict) 0) as [n ->].
  apply value_placeholders_nodup.
Qed.

(** X25. The parameters [_execute_single_statement] sends with the WHERE
    text of a request hold every placeholder that a clause binds, once and
    in the order of the clauses, each with the value its clause binds it to:
    merging the mappings of the clauses overwrites nothing. *)
Theorem X25_where_parameters_complete (data_dict : request)
    (fields_types : gmap string string) :
  let clauses := _where_clauses data_dict fields_types in
  let params := foldl dict_merge [] (_where clauses).2 in
  dict_keys params = clauses ≫= placeholders_of
  ∧ NoDup (dict_keys params)
  ∧ ∀ clause_str values placeholder v,
      Bound clause_str values ∈ clauses →
      dict_get placeholder values = Some v →
      dict_get placeholder params = Some v.
Proof.
  intros clauses params.
  pose proof (where_clauses_nodup data_dict fields_types) as Hnd.
  fold clauses in Hnd. rewrite <- where_values_join in Hnd.
  assert (Hparams : params = concat (_where clauses).2).
  { unfold params. by rewrite merge_all. }
  rewrite Hparams. unfold dict_keys. split; [apply where_values_join|].
  split; [done|].
  intros clause_str values placeholder v Hin Hget.
  apply dict_get_elem; [done|].
  apply dict_get_Some_elem in Hget. unfold _where. cbn [snd].
  apply list_elem_of_In, in_concat. exists values.
  split; [|by apply list_elem_of_In].
  apply list_elem_of_In, list_elem_of_bind. exists (Bound clause_str values).
  split; [by left|done].
Qed.

End BindingFacts.


Section PlanFacts.
Import Py Quoting Db Write.

#[local] Instance val_placeholder_inj_plan : Inj (=) (=) val_placeholder.
Proof.
  intros m n Hmn. unfold val_placeholder, fmt_nat in Hmn.
  apply (inj (String.app "val_")) in Hmn. by apply (inj pretty) in Hmn.
Qed.

Lemma zip_lookup_elem {A B : Type} (ks : list A) (vs : list B) (i : nat)
    (k : A) (v : B) :
  ks !! i = Some k → vs !! i = Some v → (k, v) ∈ zip ks vs.
Proof.
  intros Hk Hv. apply list_elem_of_lookup. exists i.
  by rewrite lookup_zip_with, Hk, Hv.
Qed.

(** X26. The mapping sent with the statements of an update or upsert binds
    every placeholder the statements name, and nothing else: the
    placeholders of the columns the record sets, numbered from zero and each
    bound to the value of the record for its column, then those of the key,
    bound to the [_id] of the record or to its values for the unique key. *)
Theorem X26_plan_binds_every_placeholder (fields : list field)
    (unique_keys : list string) (r : record) :
  let p := make_plan fields unique_keys r in
  let n := length (used_fields p) in
  let k := if dict_has "_id" r then 1 else length unique_keys in
  used_fields p = List.filter (λ f, dict_has (id f) r) fields
  ∧ value_placeholders p = val_placeholder <$> seq 0 n
  ∧ dict_keys (all_values p) = val_placeholder <$> seq 0 (n + k)
  ∧ (∀ i f, used_fields p !! i = Some f →
            dict_get (val_placeholder i) (all_values p)
            = Some (get (id f) r))
  ∧ (if dict_has "_id" r
     then pk_values_sql p = ":" +:+ val_placeholder n
          ∧ dict_get (val_placeholder n) (all_values p)
            = Some (get "_id" r)
     else pk_values_sql p
          = join "," ((λ j, ":" +:+ val_placeholder j)
                      <$> seq n (length unique_keys))
          ∧ ∀ j key, unique_keys !! j = Some key →
              dict_get (val_placeholder (n + j)) (all_values p)
              = Some (get key r)).
Proof.
  intros p n k.
  set (used := List.filter (λ f, dict_has (id f) r) fields).
  set (vals := (λ f, get f r) <$> (id <$> used)).
  set (keyvals := (λ key, get key r) <$> unique_keys).
  assert (Hused : used_fields p = used)
    by (unfold p, make_plan; by destruct (dict_has "_id" r)).
  assert (Hn : n = length used) by (unfold n; by rewrite Hused).
  assert (Hvp : value_placeholders p = val_placeholder <$> seq 0 n).
  { unfold p, make_plan. rewrite Hn.
    destruct (dict_has "_id" r); cbn; by rewrite length_fmap. }
  assert (Huv : used_values p = zip (val_placeholder <$> seq 0 n) vals).
  { unfold p, make_plan. rewrite Hn.
    destruct (dict_has "_id" r); cbn [used_values];
      rewrite length_fmap; fold used; fold vals;
      apply dict_of_pairs_nodup; rewrite zip_fst_same_length;
      try apply (NoDup_fmap_2 val_placeholder), NoDup_seq;
      unfold vals; by rewrite !length_fmap, length_seq. }
  assert (Hkv : unique_values p
            = if dict_has "_id" r then [(val_placeholder n, get "_id" r)]
              else zip (val_placeholder <$> seq n (length unique_keys))
                       keyvals).
  { unfold p, make_plan. rewrite Hn.
    destruct (dict_has "_id" r); cbn [unique_values];
      rewrite length_fmap; fold used; [done|]. fold keyvals.
    apply dict_of_pairs_nodup. rewrite zip_fst_same_length;
      [apply (NoDup_fmap_2 val_placeholder), NoDup_seq|].
    unfold keyvals. by rewrite !length_fmap, length_seq. }
  assert (Hkeys2 : (unique_values p).*1 = val_placeholder <$> seq n k).
  { rewrite Hkv. unfold k. destruct (dict_has "_id" r); [done|].
    apply zip_fst_same_length. unfold keyvals.
    by rewrite !length_fmap, length_seq. }
  assert (Hkeys1 : (used_values p).*1 = val_placeholder <$> seq 0 n).
  { rewrite Huv. apply zip_fst_same_length. unfold vals.
    by rewrite !length_fmap, length_seq, Hn. }
  assert (Hall : all_values p = used_values p ++ unique_values p).
  { unfold all_values, dict_merge. apply dict_of_pairs_app.
    rewrite fmap_app, Hkeys1, Hkeys2, <- fmap_app, <- seq_app.
    apply (NoDup_fmap_2 val_placeholder), NoDup_seq. }
  assert (Hkeys : (all_values p).*1 = val_placeholder <$> seq 0 (n + k)).
  { by rewrite Hall, fmap_app, Hkeys1, Hkeys2, <- fmap_app, <- seq_app. }
  assert (Hnd : NoDup (all_values p).*1).
  { rewrite Hkeys. apply (NoDup_fmap_2 val_placeholder), NoDup_seq. }
  split; [done|]. split; [done|]. split; [done|]. split.
  - intros i f Hi. apply dict_get_elem; [done|]. rewrite Hall, Huv.
    apply elem_of_app. left. rewrite Hused in Hi.
    apply (zip_lookup_elem _ _ i).
    + rewrite list_lookup_fmap, lookup_seq_lt; [done|].
      rewrite Hn. by eapply lookup_lt_Some.
    + unfold vals. by rewrite !list_lookup_fmap, Hi.
  - assert (Hpk : pk_values_sql p
              = if dict_has "_id" r then ":" +:+ val_placeholder n
                else join "," ((λ j, ":" +:+ val_placeholder j)
                               <$> seq n (length unique_keys))).
    { unfold p, make_plan. rewrite Hn.
      destruct (dict_has "_id" r); cbn [pk_values_sql];
        rewrite length_fmap; [done|]. by rewrite <- list_fmap_compose. }
    rewrite Hkv in Hall. clearbody p n.
    destruct (dict_has "_id" r).
    + split; [done|].
      apply dict_get_elem; [done|]. rewrite Hall. apply elem_of_app.
      right. by left.
    + split; [done|].
      intros j key Hj. apply dict_get_elem; [done|]. rewrite Hall.
      apply elem_of_app. right. apply (zip_lookup_elem _ _ j).
      * rewrite list_lookup_fmap, lookup_seq_lt; [done|].
        by eapply lookup_lt_Some.
      * unfold keyvals. by rewrite list_lookup_fmap, Hj.
Qed.

End PlanFacts.


(** ** Dropping indexes *)

Section DropIndexFacts.
Import Py Quoting Db Index.

Variable sa_column : string → string.

Local Abbreviation _drop_indexes := (Index._drop_indexes sa_column).

Lemma nodup_names_inj (l : list index) (i j : index) :
  NoDup (name <$> l) → i ∈ l → j ∈ l → name i = name j → i = j.
Proof.
  induction l as [|x l IH]; [by intros _ ?%elem_of_nil|].
  rewrite fmap_cons, NoDup_cons. intros [Hx Hnd] Hi Hj Hname.
  apply elem_of_cons in Hi as [->|Hi]; apply elem_of_cons in Hj as [->|Hj].
  - done.
  - exfalso. apply Hx. rewrite Hname. apply list_elem_of_fmap. by exists j.
  - exfalso. apply Hx. rewrite <- Hname. apply list_elem_of_fmap.
    by exists i.
  - by apply IH.
Qed.

(** X27. [_drop_indexes] drops the indexes of the resource that are not
    primary and are unique, or not, as asked, and no other: the primary key
    index and the indexes of the other kind stay, and one DROP INDEX is
    issued for every index that goes. *)
Theorem X27_drop_indexes_keeps_the_others (uniq : bool) (s : state) :
  NoDup (index_names (cat s)) →
  ∃ s', _drop_indexes uniq s = (inr (), s')
        ∧ table_columns (cat s') = table_columns (cat s)
        ∧ indexes (cat s')
          = List.filter (λ i, primary i || negb (Bool.eqb (unique i) uniq))
                        (indexes (cat s))
        ∧ issued s'
          = issued s
            ++ ((λ i, "DROP INDEX " +:+ sa_column (name i) +:+ " CASCADE")
                <$> List.filter
                      (λ i, negb (primary i) && Bool.eqb (unique i) uniq)
                      (indexes (cat s))).
Proof.
  intros Hnd.
  destruct (_drop_indexes_run sa_column uniq s)
    as (s' & Hrun & Hcols & Hixs & Hiss).
  exists s'. split; [done|]. split; [done|]. split.
  - rewrite Hixs. apply List.filter_ext_in. intros i Hi%list_elem_of_In.
    unfold droppable.
    destruct (primary i || negb (Bool.eqb (unique i) uniq)) eqn:Hkeep.
    + apply negb_true_iff, bool_decide_eq_false_2.
      intros (j & Hname & Hj)%list_elem_of_fmap.
      apply elem_of_filter_bool in Hj as [Hj Hsel].
      assert (i = j) as <- by by eapply nodup_names_inj.
      apply orb_true_iff in Hkeep as [Hp|Hu].
      * by rewrite Hp in Hsel.
      * apply negb_true_iff in Hu. rewrite Hu in Hsel.
        by rewrite andb_false_r in Hsel.
    + apply negb_false_iff, bool_decide_eq_true_2.
      apply list_elem_of_fmap. exists i. split; [done|].
      apply elem_of_filter_bool. split; [done|].
      apply orb_false_iff in Hkeep as [-> Hu].
      apply negb_false_iff in Hu. by rewrite Hu.
  - rewrite Hiss. unfold droppable. by rewrite <- list_fmap_compose.
Qed.

End DropIndexFacts.

Lemma X27_drop_indexes_keeps_the_others_witness :
  let s := {| Index.cat :=
                {| Index.table_columns := [("_id", "int4"); ("a", "text")];
                   Index.indexes :=
                     [{| Index.name := "res_pkey"; Index.unique := true;
                         Index.primary := true; Index.columns := ["_id"] |};
                      {| Index.name := "k"; Index.unique := true;
                         Index.primary := false; Index.columns := ["a"] |};
                      {| Index.name := "x"; Index.unique := false;
                         Index.primary := false; Index.columns := ["a"] |}] |};
              Index.issued := [] |} in
  ∃ s', Index._drop_indexes (λ n, n) false s = (inr (), s')
        ∧ Index.name <$> Index.indexes (Index.cat s') = ["res_pkey"; "k"]
        ∧ Index.issued s' = ["DROP INDEX x CASCADE"].
Proof.
  intros s.
  edestruct (X27_drop_indexes_keeps_the_others (λ n, n) false s)
    as (s' & Hrun & _ & Hixs & Hiss).
  - apply (bool_decide_unpack _). vm_compute. exact I.
  - exists s'. split; [exact Hrun|]. rewrite Hixs, Hiss. by split.
Defined.


(** ** A method that is none of the three *)

Section MethodFacts.
Import Py Quoting Db Write.

Variable DB : Type.
Variable engine_execute : DB → statement → dbapi_error + DB * cursor_result.
Variable json_dumps : value → string.
Variable str : value → string.
Variable _programming_error_summary : dbapi_error → string.
Context `{SetOrder}.

Local Abbreviation _get_fields := (Write._get_fields DB engine_execute).
Local Abbreviation upsert_data :=
  (Write.upsert_data DB engine_execute json_dumps str
     _programming_error_summary).

(** X28. A method that is none of insert, update and upsert is no error
    for [upsert_data]: after the query for the columns it returns with
    nothing else executed, whatever the records. *)
Theorem X28_unknown_method_writes_nothing (data_dict : request)
    (c c1 : connection DB) (fields : list field) (m : string)
    (r : record) (rs : list record) :
  method data_dict = Some m →
  m ≠ _INSERT → m ≠ _UPDATE → m ≠ _UPSERT →
  records data_dict = Some (r :: rs) →
  _get_fields (resource_id data_dict) c = (inr fields, c1) →
  upsert_data data_dict c = (inr tt, c1).
Proof.
  intros Hm Hi Hu Hs Hrs Hf.
  unfold Write.upsert_data, Write.upsert_data_in_place. rewrite Hrs, Hm.
  unfold mbind at 1, M_bind at 1, bind at 1.
  unfold mbind at 1, M_bind at 1, bind at 1. rewrite Hf.
  change (default _UPSERT (Some m)) with m.
  apply String.eqb_neq in Hi, Hu, Hs.
  rewrite Hi, Hu, Hs. by destruct (String.eqb _ "").
Qed.

End MethodFacts.

Section MethodExamples.
#[local] Existing Instance Toy.insertion_order.

Lemma X28_unknown_method_writes_nothing_witness :
  ∃ c1, Toy.upsert_data (Toy.request_of "delete" [[("a", Py.VStr "x")]])
          (Db.connect Toy.keyed_resource) = (inr tt, c1)
        ∧ Db.executed c1 = [Db.SelectAllLimit1 "res"].
Proof.
  eexists. split.
  - eapply (X28_unknown_method_writes_nothing Toy.table Toy.engine_execute
              Toy.str Toy.str Toy.summary
              (Toy.request_of "delete" [[("a", Py.VStr "x")]])
              (Db.connect Toy.keyed_resource));
      [reflexivity|discriminate|discriminate|discriminate|reflexivity
      |reflexivity].
  - reflexivity.
Defined.

End MethodExamples.

(** ** Links *)

Section LinksFacts.
Import Py Links.

Variable current_url : option string.
Variable urlparse : string → list string.
Variable parse_qsl : string → list (string * string).
Variable urlencode : dict value → string.
Variable urlunparse : list string → string.

Local Abbreviation _insert_links :=
  (Links._insert_links current_url urlparse parse_qsl urlencode urlunparse).

Lemma dict_pop_no_key {A : Type} (k : string) (d : dict A) :
  dict_get k (Requests.dict_pop k d) = None.
Proof.
  unfold Requests.dict_pop. induction d as [|[k' v] d IH]; [done|].
  cbn [List.filter fst]. destruct (String.eqb_spec k' k) as [->|Hne];
    cbn [negb dict_get]; [done|].
  by destruct (String.eqb_spec k' k).
Qed.

(** X29. On a request that came with a URL, [_insert_links] gives the link
    to the start, whose query has no offset, and the link to the next page,
    whose offset is the offset plus the limit; it gives the link to the
    previous page exactly when the offset is greater than the limit, so that
    the page at an offset equal to the limit has none. *)
Theorem X29_links_prev_past_second_page (data_dict : dict value)
    (limit offset : Z) (url : string) :
  current_url = Some url →
  length (urlparse url) = 6 →
  let parsed := urlparse url in
  let arguments :=
    dict_of_pairs ((λ kv, (kv.1, VStr kv.2))
                   <$> parse_qsl (default "" (parsed !! 4))) in
  ∃ links arguments_start,
    dict_get "_links" (_insert_links data_dict limit offset)
    = Some (VDict links)
    ∧ dict_keys links
      = (if (limit <? offset)%Z then ["start"; "next"; "prev"]
         else ["start"; "next"])
    ∧ dict_get "start" links
      = Some (VStr (urlunparse (<[4 := urlencode arguments_start]> parsed)))
    ∧ dict_get "offset" arguments_start = None
    ∧ (∀ k, k ≠ "offset" →
            dict_get k arguments_start = dict_get k arguments)
    ∧ dict_get "next" links
      = Some (VStr (urlunparse
                      (<[4 := urlencode
                                (dict_set "offset" (VInt (offset + limit))
                                          arguments)]> parsed))).
Proof.
  intros Hurl Hlen parsed arguments. unfold Links._insert_links.
  rewrite Hurl. fold parsed. fold arguments. rewrite dict_get_set_eq.
  eexists _, (Requests.dict_pop "offset" arguments).
  split; [reflexivity|].
  replace (0 <? offset - limit)%Z with (limit <? offset)%Z
    by (destruct (Z.ltb_spec limit offset), (Z.ltb_spec 0 (offset - limit));
        try done; lia).
  split; [by destruct (limit <? offset)%Z|].
  split; [by destruct (limit <? offset)%Z|].
  split; [apply dict_pop_no_key|]. split.
  - intros k Hk. unfold Requests.dict_pop.
    induction arguments as [|[k' v] d IH]; [done|].
    cbn [List.filter fst dict_get].
    destruct (String.eqb_spec k' "offset") as [->|Hne]; cbn [negb dict_get].
    + destruct (String.eqb_spec "offset" k); [done|exact IH].
    + destruct (String.eqb_spec k' k); [done|exact IH].
  - by destruct (limit <? offset)%Z.
Qed.

End LinksFacts.

Lemma X29_links_prev_past_second_page_witness :
  let links limit offset :=
    Py.dict_get "_links"
      (Links._insert_links (Some "limit=5&offset=5")
         (λ u, ["http"; "host"; "/search"; ""; u; ""])
         (λ _, [("limit", "5"); ("offset", "5")])
         (λ d, Py.join "&" ((λ kv, kv.1) <$> d))
         (Py.join "|") [] limit offset) in
  (∃ l, links 5%Z 5%Z = Some (Py.VDict l)
        ∧ Py.dict_keys l = ["start"; "next"])
  ∧ (∃ l, links 5%Z 10%Z = Some (Py.VDict l)
          ∧ Py.dict_keys l = ["start"; "next"; "prev"]).
Proof.
  intros links. split.
  - edestruct (X29_links_prev_past_second_page (Some "limit=5&offset=5")
                 (λ u, ["http"; "host"; "/search"; ""; u; ""])
                 (λ _, [("limit", "5"); ("offset", "5")])
                 (λ d, Py.join "&" ((λ kv, kv.1) <$> d))
                 (Py.join "|") [] 5%Z 5%Z "limit=5&offset=5")
      as (l & a & Hl & Hk & _); [reflexivity|reflexivity|].
    exists l. split; [exact Hl|exact Hk].
  - edestruct (X29_links_prev_past_second_page (Some "limit=5&offset=5")
                 (λ u, ["http"; "host"; "/search"; ""; u; ""])
                 (λ _, [("limit", "5"); ("offset", "5")])
                 (λ d, Py.join "&" ((λ kv, kv.1) <$> d))
                 (Py.join "|") [] 5%Z 10%Z "limit=5&offset=5")
      as (l & a & Hl & Hk & _); [reflexivity|reflexivity|].
    exists l. split; [exact Hl|exact Hk].
Defined.

(** ** Checking the fields *)

Section CheckFieldsFacts.
Import Py Quoting Db Schema.

Variable DB : Type.
Variable engine_execute : DB → statement → dbapi_error + DB * cursor_result.
Variable _type_names : list string.
Variable is_valid_field_name : string → bool.

Local Abbreviation _is_valid_pg_type :=
  (Schema._is_valid_pg_type DB engine_execute _type_names).
Local Abbreviation check_fields :=
  (Schema.check_fields DB engine_execute _type_names is_valid_field_name).

Local Abbreviation cached := (Schema.cached _type_names).

Lemma check_fields_step (f : supplied_field) (fs : list supplied_field)
    (c : connection DB) :
  cached f →
  check_fields (f :: fs) c
  = if negb (is_valid_field_name (id f)) then
      (inl (error1 "fields"
              (Write.quoted (id f) +:+ " is not a valid field name")), c)
    else check_fields fs c.
Proof.
  unfold Schema.cached. intros Hf. cbn [Schema.check_fields].
  unfold mbind at 1, M_bind at 1, bind at 1.
  destruct (type f) as [t|].
  - destruct (String.eqb_spec t "") as [->|Hne].
    + cbn. by destruct (is_valid_field_name (id f)).
    + destruct Hf as [?|Hin]; [done|].
      unfold Schema._is_valid_pg_type. rewrite bool_decide_eq_true_2 by done.
      cbn. by destruct (is_valid_field_name (id f)).
  - cbn. by destruct (is_valid_field_name (id f)).
Qed.

(** X30. [check_fields] asks the engine nothing about a field whose type is
    not given, is empty, or is among the cached type names: it accepts such
    fields when their names are valid, and raises a validation error for the
    first field with an invalid name.  A type outside the cache that the
    engine reports as an undefined object, or as a syntax error, is raised as
    a validation error that quotes the type. *)
Theorem X30_check_fields_cache_and_errors (pre post : list supplied_field)
    (f : supplied_field) (c : connection DB) :
  Forall cached pre →
  Forall (λ f, is_valid_field_name (id f) = true) pre →
  (Forall cached (f :: post) →
   Forall (λ f, is_valid_field_name (id f) = true) (f :: post) →
   check_fields (pre ++ f :: post) c = (inr tt, c))
  ∧ (cached f → is_valid_field_name (id f) = false →
     check_fields (pre ++ f :: post) c
     = (inl (error1 "fields"
               (Write.quoted (id f) +:+ " is not a valid field name")), c))
  ∧ (∀ t err,
       type f = Some t → t ≠ "" → t ∉ _type_names →
       engine_execute (current c)
         (Text "SELECT cast(:type as regtype)" (One [("type", VStr t)]))
       = inl err →
       cls err = ProgrammingError →
       pgcode err = Some undefined_object ∨ pgcode err = Some syntax_error →
       (check_fields (pre ++ f :: post) c).1
       = inl (error1 "fields"
                (Write.quoted t +:+ " is not a valid field type"))).
Proof.
  intros Hpre Hnames.
  assert (Hskip : ∀ rest, check_fields (pre ++ rest) c = check_fields rest c).
  { intros rest. induction Hpre as [|g pre Hg Hpre IH]; [done|].
    apply Forall_cons in Hnames as [Hgn Hnames]. cbn [app].
    rewrite check_fields_step by done. rewrite Hgn. cbn [negb].
    by apply IH. }
  rewrite Hskip. split; [|split].
  - intros Hall Hvalid. clear Hskip. generalize (f :: post), Hall, Hvalid.
    clear. intros fs Hall. induction Hall as [|g fs Hg Hfs IH]; [done|].
    intros [Hgn Hvalid]%Forall_cons. rewrite check_fields_step by done.
    rewrite Hgn. by apply IH.
  - intros Hf Hbad. rewrite check_fields_step by done. by rewrite Hbad.
  - intros t err Ht Hne Hout He Hcls Hcode. cbn [Schema.check_fields].
    rewrite Ht. apply String.eqb_neq in Hne. rewrite Hne.
    unfold Schema._is_valid_pg_type. rewrite bool_decide_eq_false_2 by done.
    unfold mbind, M_bind, bind, try_except, Db.execute. rewrite He.
    unfold pg_type_handler. rewrite Hcls.
    destruct Hcode as [-> | ->]; rewrite ?bool_decide_eq_true_2 by done;
      rewrite ?orb_true_r; by cbn.
Qed.

End CheckFieldsFacts.

Lemma X30_check_fields_cache_and_errors_witness :
  let check :=
    Schema.check_fields Toy.table Toy.engine_execute ["text"; "int4"]
      (λ n, negb (String.prefix "_" n)) in
  check [ToySchema.field "a" (Some "text"); ToySchema.field "b" None]
        (Db.connect Toy.empty_resource)
  = (inr tt, Db.connect Toy.empty_resource)
  ∧ check [ToySchema.field "a" (Some "text"); ToySchema.field "_b" None]
          (Db.connect Toy.empty_resource)
    = (inl (Db.error1 "fields"
              (Write.quoted "_b" +:+ " is not a valid field name")),
       Db.connect Toy.empty_resource).
Proof.
  intros check. split.
  - edestruct (X30_check_fields_cache_and_errors Toy.table Toy.engine_execute
                 ["text"; "int4"] (λ n, negb (String.prefix "_" n))
                 [ToySchema.field "a" (Some "text")] []
                 (ToySchema.field "b" None) (Db.connect Toy.empty_resource))
      as (Hok & _).
    + apply Forall_cons. split; [right; constructor|constructor].
    + by repeat constructor.
    + apply Hok; by repeat constructor.
  - edestruct (X30_check_fields_cache_and_errors Toy.table Toy.engine_execute
                 ["text"; "int4"] (λ n, negb (String.prefix "_" n))
                 [ToySchema.field "a" (Some "text")] []
                 (ToySchema.field "_b" None) (Db.connect Toy.empty_resource))
      as (_ & Hbad & _).
    + apply Forall_cons. split; [right; constructor|constructor].
    + by repeat constructor.
    + apply Hbad; by repeat constructor.
Defined.
